(** * JTAG adapter mock: bit-vector codec, TAP navigation, device registry

    A shallow embedding of [src/dpi/digilent_jtag_mock.cpp] and of the
    MSB-first shift helper of [src/dpi/jtag_counter_tests.cpp].

    Conventions of the embedding:
    - a C [int] is a [Z]; C division and remainder truncate, so they are
      [Z.quot] and [Z.rem]; signed overflow is undefined behaviour and is
      modelled as the absence of a result;
    - [svBit] and C++ [bool] are [bool];
    - a byte ([uint8_t], or a [char] seen through its bit pattern) is a [Z]
      in [0, 256);
    - console output ([printf], [std::cout]) is not modelled. *)

From Stdlib Require Import ZArith QArith Lia ZifyNat.
From stdpp Require Import base numbers option list gmap.

Local Open Scope Z_scope.

(** ** Machine integers *)

Definition INT_MAX : Z := 2147483647.
Definition INT_MIN : Z := -2147483648.

Definition is_int (z : Z) : Prop := INT_MIN ≤ z ≤ INT_MAX.

(** Conversion of an [int] to [uint8_t] / [uint32_t]. *)
Definition to_uint8 (z : Z) : Z := z mod 256.
Definition to_uint32 (z : Z) : Z := z mod 4294967296.

(** [(x >> k) & 1] converted to a one-bit value. *)
Definition shr_and_1 (x k : Z) : bool := negb (Z.land (Z.shiftr x k) 1 =? 0).

(** ** Bit-vector codec (utility functions of the mock) *)

(** Byte [n] of a vector; 0 where the vector has no such byte. *)
Definition byte_at (v : list Z) (n : nat) : Z := default 0 (v !! n).

(** Specification-level accessor: bit [i mod 8] of byte [i / 8]. *)
Definition vec_bit (v : list Z) (i : Z) : bool :=
  Z.testbit (byte_at v (Z.to_nat (i / 8))) (i mod 8).

(** Loop of [bytes_to_bits], from index [i], [count] iterations left. An
    access [bytes[i/8]] past the end of the vector is undefined. *)
Fixpoint bytes_to_bits_loop (bytes : list Z) (i : Z) (count : nat)
    (bits : list bool) : option (list bool) :=
  match count with
  | O => Some bits
  | S count' =>
      match bytes !! Z.to_nat (Z.quot i 8) with
      | Some b =>
          let bit_val := shr_and_1 b (Z.rem i 8) in
          bytes_to_bits_loop bytes (i + 1) count' (bits ++ [bit_val])
      | None => None
      end
  end.

(** [bytes_to_bits]: [bit_count] is an [int]; the loop does not run when it
    is zero or negative. *)
Definition bytes_to_bits (bytes : list Z) (bit_count : Z) : option (list bool) :=
  bytes_to_bits_loop bytes 0 (Z.to_nat bit_count) [].

(** [bytes[i/8] |= (1 << (i % 8))] on a vector of [uint8_t]; [i] is a
    [size_t]. *)
Definition or_bit (bytes : list Z) (i : nat) : list Z :=
  <[ (i / 8)%nat :=
       to_uint8 (Z.lor (byte_at bytes (i / 8)) (Z.shiftl 1 (Z.of_nat (i mod 8)))) ]>
    bytes.

(** [bits_to_bytes]: [(size + 7) / 8] zero bytes, then one pass over the
    bits; every index the loop uses is inside both vectors. *)
Definition bits_to_bytes (bits : list bool) : list Z :=
  fold_left
    (λ (bytes : list Z) (i : nat), if (bits !!! i : bool) then or_bit bytes i else bytes)
    (seq 0 (length bits))
    (replicate ((length bits + 7) / 8)%nat 0).

(** ** The two collaborators outside the mock *)

(** The SystemVerilog testbench behind the DPI-C imports of the header.
    [tb_jtag_step tms tdi is_last] is one clock edge and yields [tdo_out]. *)
Class SvTestbench := {
  sim : Type;
  tb_jtag_step : bool → bool → bool → sim → bool * sim;
  tb_drive_jtag_pins : bool → bool → bool → sim → sim;
  tb_get_tdo : sim → bool * sim;
  tb_wait_cycles : Z → sim → sim
}.

(** [std::mt19937 gen] with [std::uniform_real_distribution<> dis(0.0, 1.0)]:
    one draw returns a number and the next generator state. *)
Class RandomEngine := {
  rng : Type;
  uniform_real : rng → Q * rng
}.

(** What crossed the DPI-C boundary, with the value that came back. *)
Inductive SvEvent : Type :=
  | EvJtagStep (tms tdi is_last tdo : bool)
  | EvDrivePins (tck tms tdi : bool)
  | EvGetTdo (tdo : bool)
  | EvWaitCycles (cycles : Z).

(** The call alone, without the simulator's answer. *)
Inductive SvCall : Type :=
  | JtagStep (tms tdi is_last : bool)
  | DrivePins (tck tms tdi : bool)
  | GetTdo
  | WaitCycles (cycles : Z).

Definition call_of (e : SvEvent) : SvCall :=
  match e with
  | EvJtagStep tms tdi is_last _ => JtagStep tms tdi is_last
  | EvDrivePins tck tms tdi => DrivePins tck tms tdi
  | EvGetTdo _ => GetTdo
  | EvWaitCycles n => WaitCycles n
  end.

(** ** Adapter state *)

Definition TRUE : Z := 1.
Definition FALSE : Z := 0.

Record JtagDevice : Type := mkJtagDevice {
  enabled : bool;
  clock_freq : Z;
  tck_state : bool;
  tms_state : bool;
  tdi_state : bool;
  tdo_state : bool;
  device_id : Z;
  timeout_ms : Z
}.

(** [JtagDevice::JtagDevice()] *)
Definition JtagDevice_new : JtagDevice :=
  {| enabled := false; clock_freq := 1000000;
     tck_state := false; tms_state := false;
     tdi_state := false; tdo_state := false;
     device_id := 0x12345678; timeout_ms := 1000 |}.

Definition set_enabled (b : bool) (d : JtagDevice) : JtagDevice :=
  mkJtagDevice b (clock_freq d) (tck_state d) (tms_state d) (tdi_state d)
    (tdo_state d) (device_id d) (timeout_ms d).

Definition set_clock_freq (f : Z) (d : JtagDevice) : JtagDevice :=
  mkJtagDevice (enabled d) f (tck_state d) (tms_state d) (tdi_state d)
    (tdo_state d) (device_id d) (timeout_ms d).

Definition set_pins (tms tdi tck : bool) (d : JtagDevice) : JtagDevice :=
  mkJtagDevice (enabled d) (clock_freq d) tck tms tdi
    (tdo_state d) (device_id d) (timeout_ms d).

Definition set_tdo_state (tdo : bool) (d : JtagDevice) : JtagDevice :=
  mkJtagDevice (enabled d) (clock_freq d) (tck_state d) (tms_state d)
    (tdi_state d) tdo (device_id d) (timeout_ms d).

Section Mock.
Context `{TB : SvTestbench} `{RE : RandomEngine}.

(** Everything a call of the mock can read or change: the static
    [device_registry], the generator [gen], the open arrays an
    [svOpenArrayHandle] stands for (keyed by handle, so two handles may name
    the same array), the simulator, and the log of DPI calls. *)
Record World : Type := mkWorld {
  device_registry : gmap Z JtagDevice;
  gen : rng;
  open_arrays : gmap Z (list Z);
  sv_sim : sim;
  sv_trace : list SvEvent
}.

Definition with_registry (r : gmap Z JtagDevice) (w : World) : World :=
  mkWorld r (gen w) (open_arrays w) (sv_sim w) (sv_trace w).
Definition with_gen (g : rng) (w : World) : World :=
  mkWorld (device_registry w) g (open_arrays w) (sv_sim w) (sv_trace w).
Definition with_arrays (a : gmap Z (list Z)) (w : World) : World :=
  mkWorld (device_registry w) (gen w) a (sv_sim w) (sv_trace w).
Definition with_sim (s : sim) (e : SvEvent) (w : World) : World :=
  mkWorld (device_registry w) (gen w) (open_arrays w) s (sv_trace w ++ [e]).

(** State and undefined behaviour: [None] is a run that leaves defined C++. *)
Definition M (A : Type) : Type := World → option (A * World).

Definition ret {A} (a : A) : M A := λ w, Some (a, w).
Definition bind {A B} (m : M A) (k : A → M B) : M B :=
  λ w, match m w with Some (a, w') => k a w' | None => None end.
Definition undefined {A} : M A := λ _, None.

End Mock.

Notation "x <- m ;; k" := (bind m (λ x, k))
  (at level 100, m at next level, right associativity).
Notation "m ;; k" := (bind m (λ _, k))
  (at level 100, right associativity).

Section Operations.
Context `{TB : SvTestbench} `{RE : RandomEngine}.

(** *** Control flow *)

(** [for (int i = start; ...; i++) body], [count] iterations left; [acc] is
    the locals the body assigns. *)
Fixpoint for_from {A} (i : Z) (count : nat) (body : Z → A → M A) (acc : A) : M A :=
  match count with
  | O => ret acc
  | S count' => acc' <- body i acc ;; for_from (i + 1) count' body acc'
  end.

(** [for (int i = 0; i < n; i++) body] *)
Definition for_int {A} (n : Z) (body : Z → A → M A) (acc : A) : M A :=
  for_from 0 (Z.to_nat n) body acc.

(** [for (bool v : sequence) body] *)
Fixpoint for_each {A B} (l : list B) (body : B → A → M A) (acc : A) : M A :=
  match l with
  | [] => ret acc
  | v :: l' => acc' <- body v acc ;; for_each l' body acc'
  end.

(** *** Arithmetic that can leave defined behaviour *)

(** [a + b] on [int]. *)
Definition int_add (a b : Z) : M Z :=
  if decide (is_int (a + b)) then ret (a + b) else undefined.

(** [(data >> k) & 1] on a [uint32_t]; the shift count must be in [0, 32). *)
Definition u32_bit (data k : Z) : M bool :=
  if decide (0 ≤ k < 32) then ret (shr_and_1 data k) else undefined.

(** [1 << k] on [int], read through its 32-bit pattern. *)
Definition int_shl_1 (k : Z) : M Z :=
  if decide (0 ≤ k < 32) then ret (Z.shiftl 1 k) else undefined.

(** *** Open arrays *)

(** [((char * )svGetArrayPtr(h))[i]] *)
Definition array_load (h i : Z) : M Z := λ w,
  match open_arrays w !! h with
  | Some v =>
      if decide (0 ≤ i) then
        match v !! Z.to_nat i with
        | Some b => Some (b, w)
        | None => None
        end
      else None
  | None => None
  end.

(** [((char * )svGetArrayPtr(h))[i] = b] *)
Definition array_store (h i b : Z) : M unit := λ w,
  match open_arrays w !! h with
  | Some v =>
      if decide (0 ≤ i ∧ (Z.to_nat i < length v)%nat) then
        Some (tt, with_arrays (<[h := <[Z.to_nat i := b]> v]> (open_arrays w)) w)
      else None
  | None => None
  end.

(** [svGetArrayPtr(h)] kept in a local: the storage of the open array behind
    [h]. A handle that names no array is not one the simulator passed in. *)
Definition sv_get_array_ptr (h : Z) : M unit := λ w,
  match open_arrays w !! h with
  | Some _ => Some (tt, w)
  | None => None
  end.

(** *** DPI-C imports, logged *)

Definition sv_jtag_step (tms tdi is_last : bool) : M bool := λ w,
  let r := tb_jtag_step tms tdi is_last (sv_sim w) in
  Some (r.1, with_sim r.2 (EvJtagStep tms tdi is_last r.1) w).

Definition sv_drive_jtag_pins (tck tms tdi : bool) : M unit := λ w,
  Some (tt, with_sim (tb_drive_jtag_pins tck tms tdi (sv_sim w))
              (EvDrivePins tck tms tdi) w).

Definition sv_get_tdo : M bool := λ w,
  let r := tb_get_tdo (sv_sim w) in
  Some (r.1, with_sim r.2 (EvGetTdo r.1) w).

Definition sv_wait_cycles (cycles : Z) : M unit := λ w,
  Some (tt, with_sim (tb_wait_cycles cycles (sv_sim w)) (EvWaitCycles cycles) w).

(** *** The registry, a [std::map<HIF, JtagDevice>] *)

(** [device_registry.find(hif)]: [None] is [end()]. *)
Definition registry_find (hif : Z) : M (option JtagDevice) := λ w,
  Some (device_registry w !! hif, w).

(** [it->second.field = v] through a valid iterator. *)
Definition registry_modify (hif : Z) (f : JtagDevice → JtagDevice) : M unit := λ w,
  Some (tt, with_registry (alter f hif (device_registry w)) w).

(** [device_registry[hif]] on the left of an assignment: [operator[]] first
    inserts a default-constructed device when the key is absent. *)
Definition registry_subscript (hif : Z) (f : JtagDevice → JtagDevice) : M unit := λ w,
  let d := default JtagDevice_new (device_registry w !! hif) in
  Some (tt, with_registry (<[hif := f d]> (device_registry w)) w).

(** *** Failure injection *)

Definition default_failure_rate : Q := 1 # 100.

Definition simulate_communication_error (failure_rate : Q) : M bool := λ w,
  let r := uniform_real (gen w) in
  Some (if Qlt_le_dec r.1 failure_rate then true else false, with_gen r.2 w).

Definition simulate_timeout (operation_time_ms timeout : Z) : bool :=
  operation_time_ms >? timeout.

(** *** Direct signal access *)

Definition drive_jtag_pins (tck_val tms_val tdi_val : bool) : M unit :=
  sv_drive_jtag_pins tck_val tms_val tdi_val.

Definition read_jtag_pins : M bool := sv_get_tdo.

Definition wait_cycles (cycles : Z) : M unit := sv_wait_cycles cycles.

(** *** TAP navigation helpers *)

Definition tap_reset : M unit :=
  for_int 5 (λ _ _, _ <- sv_jtag_step true false false ;; ret tt) tt ;;
  _ <- sv_jtag_step false false false ;;
  ret tt.

Definition navigate_to_shift_ir : M unit :=
  let tms_sequence := [true; true; false; false] in
  for_each tms_sequence
    (λ tms_val _, _ <- sv_jtag_step tms_val false false ;; ret tt) tt.

Definition navigate_to_shift_dr : M unit :=
  let tms_sequence := [true; false; false] in
  for_each tms_sequence
    (λ tms_val _, _ <- sv_jtag_step tms_val false false ;; ret tt) tt.

Definition navigate_to_shift_dr_with_idle : M unit :=
  _ <- sv_jtag_step false false false ;;
  let tms_sequence := [true; false; false] in
  for_each tms_sequence
    (λ tms_val _, _ <- sv_jtag_step tms_val false false ;; ret tt) tt.

Definition exit_to_run_test_idle : M unit :=
  _ <- sv_jtag_step true false false ;;
  _ <- sv_jtag_step false false false ;;
  ret tt.

(** *** Core Digilent JTAG API *)

Definition djtg_enable (hif : Z) : M Z :=
  failed <- simulate_communication_error default_failure_rate ;;
  if (failed : bool) then ret FALSE
  else
    registry_subscript hif (λ _, JtagDevice_new) ;;
    registry_subscript hif (set_enabled true) ;;
    ret TRUE.

Definition djtg_disable (hif : Z) : M Z :=
  it <- registry_find hif ;;
  match it with
  | None => ret FALSE
  | Some dev =>
      if negb (enabled dev) then ret FALSE
      else
        registry_modify hif (set_enabled false) ;;
        ret TRUE
  end.

(** One iteration of the bit loop of [djtg_put_tms_tdi_bits]. *)
Definition put_bit (tms_data tdi_data tdo_data cbit bit_idx : Z) : M unit :=
  let byte_idx := Z.quot bit_idx 8 in
  let bit_pos := Z.rem bit_idx 8 in
  tms_byte <- array_load tms_data byte_idx ;;
  let tms_bit := shr_and_1 tms_byte bit_pos in
  tdi_byte <- array_load tdi_data byte_idx ;;
  let tdi_bit := shr_and_1 tdi_byte bit_pos in
  let is_last := bit_idx =? cbit - 1 in
  tdo_bit <- sv_jtag_step tms_bit tdi_bit is_last ;;
  if (tdo_bit : bool) then
    tdo_byte <- array_load tdo_data byte_idx ;;
    array_store tdo_data byte_idx (to_uint8 (Z.lor tdo_byte (Z.shiftl 1 bit_pos)))
  else ret tt.

Definition djtg_put_tms_tdi_bits (hif tms_data tdi_data tdo_data cbit : Z)
    (overlap : bool) : M Z :=
  it <- registry_find hif ;;
  match it with
  | None => ret FALSE
  | Some dev =>
      if negb (enabled dev) then ret FALSE
      else
        let operation_time := Z.quot cbit 1000 in
        if simulate_timeout operation_time (timeout_ms dev) then ret FALSE
        else
          cbit_7 <- int_add cbit 7 ;;
          let byte_count := Z.quot cbit_7 8 in
          sv_get_array_ptr tdo_data ;;
          for_int byte_count (λ i _, array_store tdo_data i 0) tt ;;
          for_int cbit
            (λ bit_idx _, put_bit tms_data tdi_data tdo_data cbit bit_idx) tt ;;
          ret TRUE
  end.

Definition djtg_get_tms_tdi_tdo_bits (hif tms_data tdi_data tdo_data cbit : Z)
    (overlap : bool) : M Z :=
  djtg_put_tms_tdi_bits hif tms_data tdi_data tdo_data cbit overlap.

Definition djtg_set_tms_tdi_tck (hif : Z) (tms tdi tck : bool) : M Z :=
  it <- registry_find hif ;;
  match it with
  | None => ret FALSE
  | Some dev =>
      if negb (enabled dev) then ret FALSE
      else
        registry_modify hif (set_pins tms tdi tck) ;;
        drive_jtag_pins tck tms tdi ;;
        ret TRUE
  end.

(** The four out-parameters come in with their old contents and go out with
    what the call left in them. *)
Definition djtg_get_tms_tdi_tdo_tck (hif : Z) (tms tdi tdo tck : bool)
    : M (Z * (bool * bool * bool * bool)) :=
  it <- registry_find hif ;;
  match it with
  | None => ret (FALSE, (tms, tdi, tdo, tck))
  | Some dev =>
      if negb (enabled dev) then ret (FALSE, (tms, tdi, tdo, tck))
      else
        let tms' := tms_state dev in
        let tdi' := tdi_state dev in
        let tck' := tck_state dev in
        tdo' <- read_jtag_pins ;;
        registry_modify hif (set_tdo_state tdo') ;;
        ret (TRUE, (tms', tdi', tdo', tck'))
  end.

(** [freq_set] is the old content of the out-parameter. *)
Definition djtg_set_speed (hif freq_req freq_set : Z) : M (Z * Z) :=
  it <- registry_find hif ;;
  match it with
  | None => ret (FALSE, freq_set)
  | Some dev =>
      if negb (enabled dev) then ret (FALSE, freq_set)
      else
        let max_freq := 50000000 in
        let min_freq := 1000 in
        let actual_freq :=
          if freq_req >? max_freq then max_freq
          else if freq_req <? min_freq then min_freq
          else freq_req in
        registry_modify hif (set_clock_freq actual_freq) ;;
        ret (TRUE, actual_freq)
  end.

Definition djtg_get_speed (hif freq_cur : Z) : M (Z * Z) :=
  it <- registry_find hif ;;
  match it with
  | None => ret (FALSE, freq_cur)
  | Some dev =>
      if negb (enabled dev) then ret (FALSE, freq_cur)
      else ret (TRUE, clock_freq dev)
  end.

(** *** MSB-first shift helper of the counter tests *)

Definition shift_data_register_msb_first (hif data bit_count : Z) : M Z :=
  for_int bit_count
    (λ i result,
       bit_val <- u32_bit data (bit_count - 1 - i) ;;
       let is_last := i =? bit_count - 1 in
       tdo_bit <- sv_jtag_step is_last bit_val is_last ;;
       if (tdo_bit : bool) then
         one_shl <- int_shl_1 (bit_count - 1 - i) ;;
         ret (Z.lor result (to_uint32 one_shl))
       else ret result)
    0.

(** *** The counter tests: LSB-first shift helper *)

Definition shift_data_register (hif data bit_count : Z) (is_instruction : bool)
    : M Z :=
  for_int bit_count
    (λ i result,
       bit_val <- u32_bit data i ;;
       let is_last := i =? bit_count - 1 in
       tdo_bit <- sv_jtag_step is_last bit_val is_last ;;
       if (tdo_bit : bool) then
         one_shl <- int_shl_1 i ;;
         ret (Z.lor result (to_uint32 one_shl))
       else ret result)
    0.

(** *** The counter tests *)

(** A [bool] or a comparison used as an [int]. *)
Definition int_of_bool (b : bool) : Z := if b then 1 else 0.

(** A non-zero integer used as a condition. *)
Definition nonzero (z : Z) : bool := negb (z =? 0).

Definition test_counter_idcode (hif : Z) : M Z :=
  navigate_to_shift_ir ;;
  let instruction := 0x1 in
  _ <- shift_data_register hif instruction 4 true ;;
  exit_to_run_test_idle ;;
  navigate_to_shift_dr_with_idle ;;
  idcode <- shift_data_register hif 0 32 false ;;
  exit_to_run_test_idle ;;
  let expected := 0x12345678 in
  if idcode =? expected then ret 1 else ret 0.

Definition test_boundary_scan_sample (hif : Z) : M Z :=
  navigate_to_shift_ir ;;
  let instruction := 0x2 in
  _ <- shift_data_register hif instruction 4 true ;;
  exit_to_run_test_idle ;;
  navigate_to_shift_dr ;;
  bsr_data <- shift_data_register hif 0 9 false ;;
  let up_down := nonzero (Z.land bsr_data 0x1) in
  let count_oe := Z.land (Z.shiftr bsr_data 5) 0xF in
  exit_to_run_test_idle ;;
  let test_passed := true in
  let test_passed := if negb (int_of_bool up_down =? 1) then false else test_passed in
  let test_passed := if negb (count_oe =? 0xF) then false else test_passed in
  ret (if test_passed then 1 else 0).

(** The bit reversal loop of [test_boundary_scan_extest]. *)
Definition reverse9 (bsr_readback_raw : Z) : Z :=
  fold_left
    (λ bsr_readback i,
       if nonzero (Z.land bsr_readback_raw (Z.shiftl 1 i))
       then Z.lor bsr_readback (Z.shiftl 1 (8 - i))
       else bsr_readback)
    (seqZ 0 9) 0.

Definition test_boundary_scan_extest (hif : Z) : M Z :=
  navigate_to_shift_ir ;;
  _ <- shift_data_register hif 0x2 4 true ;;
  exit_to_run_test_idle ;;
  navigate_to_shift_dr ;;
  let test_pattern := 0x1AF in
  _ <- shift_data_register hif test_pattern 9 false ;;
  exit_to_run_test_idle ;;
  navigate_to_shift_ir ;;
  _ <- shift_data_register hif 0x0 4 true ;;
  exit_to_run_test_idle ;;
  wait_cycles 5 ;;
  navigate_to_shift_ir ;;
  _ <- shift_data_register hif 0x2 4 true ;;
  exit_to_run_test_idle ;;
  navigate_to_shift_dr ;;
  bsr_readback_raw <- shift_data_register hif 0 9 false ;;
  let bsr_readback := reverse9 bsr_readback_raw in
  exit_to_run_test_idle ;;
  let readback_up_down := nonzero (Z.land bsr_readback 0x1) in
  let readback_count := Z.land (Z.shiftr bsr_readback 1) 0xF in
  let readback_count_oe := Z.land (Z.shiftr bsr_readback 5) 0xF in
  let expected_up_down := nonzero (Z.land test_pattern 1) in
  let expected_count := Z.land (Z.shiftr test_pattern 1) 0xF in
  let expected_count_oe := Z.land (Z.shiftr test_pattern 5) 0xF in
  let test_passed := true in
  let test_passed :=
    if negb (Bool.eqb readback_up_down expected_up_down) then false
    else test_passed in
  let test_passed :=
    if negb (readback_count =? expected_count) then false else test_passed in
  let test_passed :=
    if negb (readback_count_oe =? expected_count_oe) then false
    else test_passed in
  ret (if test_passed then 1 else 0).

Definition test_bypass (hif : Z) : M Z :=
  navigate_to_shift_ir ;;
  _ <- shift_data_register hif 0xF 4 true ;;
  exit_to_run_test_idle ;;
  navigate_to_shift_dr ;;
  let test_pattern := 0xAA in
  received_data <-
    for_int 8
      (λ i received_data,
         let tdi_bit := shr_and_1 test_pattern (7 - i) in
         tdo_bit <- sv_jtag_step false tdi_bit false ;;
         ret (Z.lor received_data (Z.shiftl (int_of_bool tdo_bit) (7 - i))))
      0 ;;
  exit_to_run_test_idle ;;
  let expected_delayed :=
    Z.lor (Z.shiftr test_pattern 1) (Z.shiftl (Z.land test_pattern 1) 7) in
  if received_data =? expected_delayed then ret 1 else ret 0.

Definition test_preload_instruction (hif : Z) : M Z :=
  navigate_to_shift_ir ;;
  _ <- shift_data_register hif 0x2 4 true ;;
  exit_to_run_test_idle ;;
  navigate_to_shift_dr ;;
  let test_data := 0x1A5 in
  for_int 9
    (λ i _,
       let tdi_bit := shr_and_1 test_data (8 - i) in
       _ <- sv_jtag_step false tdi_bit false ;; ret tt) tt ;;
  exit_to_run_test_idle ;;
  ret 1.

Definition test_unknown_instruction (hif : Z) : M Z :=
  navigate_to_shift_ir ;;
  let unknown_instruction := 0x5 in
  _ <- shift_data_register hif unknown_instruction 4 true ;;
  exit_to_run_test_idle ;;
  navigate_to_shift_dr ;;
  let test_pattern := 0x33 in
  _ <- for_int 8
         (λ i received_data,
            let tdi_bit := shr_and_1 test_pattern (7 - i) in
            tdo_bit <- sv_jtag_step false tdi_bit false ;;
            ret (Z.lor received_data (Z.shiftl (int_of_bool tdo_bit) (7 - i))))
         0 ;;
  exit_to_run_test_idle ;;
  ret 1.

Definition test_instruction_register_capture (hif : Z) : M Z :=
  navigate_to_shift_ir ;;
  _ <- for_int 4
         (λ i captured_ir,
            tdo_bit <- sv_jtag_step false false false ;;
            ret (Z.lor captured_ir (Z.shiftl (int_of_bool tdo_bit) (3 - i))))
         0 ;;
  exit_to_run_test_idle ;;
  ret 1.

Definition test_complex_instruction_sequence (hif : Z) : M Z :=
  let sequence_passed := 0 in
  let total_sequences := 4 in
  tap_reset ;;
  navigate_to_shift_ir ;;
  _ <- shift_data_register hif 0x1 4 true ;;
  exit_to_run_test_idle ;;
  navigate_to_shift_dr ;;
  idcode <- shift_data_register hif 0 32 false ;;
  exit_to_run_test_idle ;;
  let sequence_passed :=
    if idcode =? 0x12345678 then sequence_passed + 1 else sequence_passed in
  navigate_to_shift_ir ;;
  _ <- shift_data_register hif 0x2 4 true ;;
  exit_to_run_test_idle ;;
  navigate_to_shift_dr ;;
  sample_data <- shift_data_register hif 0 9 false ;;
  exit_to_run_test_idle ;;
  let sequence_passed :=
    if (Z.land sample_data 0x1 =? 1)
       && (Z.land (Z.shiftr sample_data 5) 0xF =? 0xF)
    then sequence_passed + 1 else sequence_passed in
  navigate_to_shift_ir ;;
  _ <- shift_data_register hif 0x0 4 true ;;
  exit_to_run_test_idle ;;
  navigate_to_shift_dr ;;
  _ <- shift_data_register hif 0x1AF 9 false ;;
  exit_to_run_test_idle ;;
  let sequence_passed := sequence_passed + 1 in
  navigate_to_shift_ir ;;
  _ <- shift_data_register hif 0xF 4 true ;;
  exit_to_run_test_idle ;;
  navigate_to_shift_dr ;;
  _ <- for_int 4
         (λ i bypass_data,
            tdo_bit <- sv_jtag_step false true false ;;
            ret (Z.lor bypass_data (Z.shiftl (int_of_bool tdo_bit) i)))
         0 ;;
  exit_to_run_test_idle ;;
  let sequence_passed := sequence_passed + 1 in
  if sequence_passed =? total_sequences then ret 1 else ret 0.

Definition test_tap_state_transitions (hif : Z) : M Z :=
  for_int 5 (λ _ _, _ <- sv_jtag_step true false false ;; ret tt) tt ;;
  _ <- sv_jtag_step false false false ;;
  _ <- sv_jtag_step true false false ;;
  _ <- sv_jtag_step true false false ;;
  _ <- sv_jtag_step false false false ;;
  _ <- sv_jtag_step false false false ;;
  _ <- sv_jtag_step true false false ;;
  _ <- sv_jtag_step true false false ;;
  _ <- sv_jtag_step false false false ;;
  _ <- sv_jtag_step true false false ;;
  _ <- sv_jtag_step false false false ;;
  _ <- sv_jtag_step false false false ;;
  _ <- sv_jtag_step true false false ;;
  _ <- sv_jtag_step true false false ;;
  _ <- sv_jtag_step false false false ;;
  ret 1.

(** [run_counter_jtag_tests] is [void]; the model returns what it prints as
    "Test Results": [passed_tests], or nothing when it returns early. *)
Definition run_counter_jtag_tests : M (option Z) :=
  let hif := 1 in
  enabled_ok <- djtg_enable hif ;;
  if negb (nonzero enabled_ok) then ret None
  else
    speed <- djtg_set_speed hif 10000000 0 ;;
    if negb (nonzero speed.1) then ret None
    else
      tap_reset ;;
      let passed_tests := 0 in
      p1 <- test_counter_idcode hif ;;
      p2 <- test_boundary_scan_sample hif ;;
      p3 <- test_boundary_scan_extest hif ;;
      p4 <- test_bypass hif ;;
      p5 <- test_preload_instruction hif ;;
      p6 <- test_unknown_instruction hif ;;
      p7 <- test_instruction_register_capture hif ;;
      p8 <- test_complex_instruction_sequence hif ;;
      p9 <- test_tap_state_transitions hif ;;
      let passed_tests := passed_tests + p1 + p2 + p3 + p4 + p5 + p6 + p7 + p8 + p9 in
      _ <- djtg_disable hif ;;
      ret (Some passed_tests).

End Operations.

(** ** Concrete collaborators, for running the model *)

(** A loopback simulator: TDO is the TDI of the same clock edge. *)
Definition loopback_tb : SvTestbench :=
  {| sim := unit;
     tb_jtag_step := λ _ tdi _ s, (tdi, s);
     tb_drive_jtag_pins := λ _ _ _ s, s;
     tb_get_tdo := λ s, (false, s);
     tb_wait_cycles := λ _ s, s |}.

(** A loopback with one register: TDO is the TDI of the previous edge. *)
Definition delayed_loopback_tb : SvTestbench :=
  {| sim := bool;
     tb_jtag_step := λ _ tdi _ s, (s, tdi);
     tb_drive_jtag_pins := λ _ _ _ s, s;
     tb_get_tdo := λ s, (s, s);
     tb_wait_cycles := λ _ s, s |}.

(** A simulator that answers from a script, then with 0. *)
Definition scripted_tb : SvTestbench :=
  {| sim := list bool;
     tb_jtag_step := λ _ _ _ s, (default false (head s), tail s);
     tb_drive_jtag_pins := λ _ _ _ s, s;
     tb_get_tdo := λ s, (default false (head s), s);
     tb_wait_cycles := λ _ s, s |}.

(** A generator whose every draw is [u]. *)
Definition const_rng (u : Q) : RandomEngine :=
  {| rng := unit; uniform_real := λ g, (u, g) |}.

(** The world of a fresh process: empty registry, no array, empty log. *)
Definition fresh_world `{TB : SvTestbench} `{RE : RandomEngine}
    (g : rng) (s : sim) : World :=
  mkWorld ∅ g ∅ s [].

(** ** Vocabulary of the statements *)

(** The values of a [uint8_t]. *)
Definition is_uint8 (b : Z) : Prop := 0 ≤ b < 256.

(** [bytes[bit_idx / 8] |= 1 << (bit_idx % 8)] on a [char] array. *)
Definition or_bit_at (v : list Z) (i : Z) : list Z :=
  <[Z.to_nat (i / 8) :=
      to_uint8 (Z.lor (byte_at v (Z.to_nat (i / 8))) (Z.shiftl 1 (i mod 8)))]> v.

(** The output array after the clearing loop. *)
Definition cleared (byte_count : nat) (v : list Z) : list Z :=
  replicate byte_count 0 ++ drop byte_count v.

(** The frequency [djtg_set_speed] settles on. *)
Definition clamp_freq (freq_req : Z) : Z := Z.min (Z.max freq_req 1000) 50000000.

(** The state [djtg_enable] leaves a handle in. *)
Definition enabled_defaults : JtagDevice :=
  {| enabled := true; clock_freq := 1000000;
     tck_state := false; tms_state := false;
     tdi_state := false; tdo_state := false;
     device_id := 0x12345678; timeout_ms := 1000 |}.

(** No operation assigns [timeout_ms] or [device_id]: every entry keeps the
    values of the constructor. *)
Definition registry_ok (reg : gmap Z JtagDevice) : Prop :=
  ∀ h d, reg !! h = Some d → timeout_ms d = 1000 ∧ device_id d = 0x12345678.

(** What [k] iterations of the bit loop have done: [evs] are the step calls
    made, [v] is the output array, [v0] the output array before the loop. *)
Definition shifted (cbit : Z) (tmsv tdiv v0 : list Z) (k : nat)
    (evs : list SvEvent) (v : list Z) : Prop :=
  length evs = k ∧ length v = length v0 ∧
  (∀ i, 0 ≤ i < Z.of_nat k →
     ∃ r, evs !! Z.to_nat i
          = Some (EvJtagStep (vec_bit tmsv i) (vec_bit tdiv i) (i =? cbit - 1) r) ∧
          vec_bit v i = vec_bit v0 i || r) ∧
  (∀ j, Z.of_nat k ≤ j → vec_bit v j = vec_bit v0 j) ∧
  (∀ m, is_uint8 (byte_at v0 m) → is_uint8 (byte_at v m)) ∧
  (∀ m : nat, Z.of_nat k ≤ 8 * Z.of_nat m → v !! m = v0 !! m).

(** What [k] iterations of the MSB-first loop have done. *)
Definition msb_shifted (data bit_count : Z) (k : nat) (evs : list SvEvent)
    (result : Z) : Prop :=
  length evs = k ∧ 0 ≤ result ∧
  (∀ i, 0 ≤ i < Z.of_nat k →
     ∃ tdo, evs !! Z.to_nat i
            = Some (EvJtagStep (i =? bit_count - 1)
                      (Z.testbit data (bit_count - 1 - i))
                      (i =? bit_count - 1) tdo) ∧
            Z.testbit result (bit_count - 1 - i) = tdo) ∧
  (∀ p, p < bit_count - Z.of_nat k ∨ bit_count ≤ p → Z.testbit result p = false).

(** The calls a client can make on the API. *)
Inductive ApiCall : Type :=
  | CallEnable (hif : Z)
  | CallDisable (hif : Z)
  | CallPutBits (hif tms_data tdi_data tdo_data cbit : Z) (overlap : bool)
  | CallGetBits (hif tms_data tdi_data tdo_data cbit : Z) (overlap : bool)
  | CallSetPins (hif : Z) (tms tdi tck : bool)
  | CallGetPins (hif : Z)
  | CallSetSpeed (hif freq_req : Z)
  | CallGetSpeed (hif : Z).

(** The handle a call is about. *)
Definition call_hif (c : ApiCall) : Z :=
  match c with
  | CallEnable hif | CallDisable hif | CallPutBits hif _ _ _ _ _
  | CallGetBits hif _ _ _ _ _ | CallSetPins hif _ _ _ | CallGetPins hif
  | CallSetSpeed hif _ | CallGetSpeed hif => hif
  end.

(** The arguments and the answer of a logged step call; [false] for the
    other DPI calls. *)
Definition step_tms (e : SvEvent) : bool :=
  match e with EvJtagStep tms _ _ _ => tms | _ => false end.
Definition step_tdi (e : SvEvent) : bool :=
  match e with EvJtagStep _ tdi _ _ => tdi | _ => false end.
Definition step_tdo (e : SvEvent) : bool :=
  match e with EvJtagStep _ _ _ tdo => tdo | _ => false end.
Definition step_last (e : SvEvent) : bool :=
  match e with EvJtagStep _ _ is_last _ => is_last | _ => false end.
Definition is_step (e : SvEvent) : Prop :=
  match e with EvJtagStep _ _ _ _ => True | _ => False end.

(** The arguments of one step call: TMS, TDI, is_last. *)
Definition StepArgs : Type := bool * bool * bool.

Definition step_event (c : StepArgs) (tdo : bool) : SvEvent :=
  EvJtagStep c.1.1 c.1.2 c.2 tdo.

(** A navigation call: TDI and is_last low. *)
Definition nav (tms : bool) : StepArgs := (tms, false, false).

(** The calls of the two word shifts, in order. *)
Definition lsb_calls (data bit_count : Z) : list StepArgs :=
  (λ i, (i =? bit_count - 1, Z.testbit data i, i =? bit_count - 1))
    <$> seqZ 0 bit_count.
Definition msb_calls (data bit_count : Z) : list StepArgs :=
  (λ i, (i =? bit_count - 1, Z.testbit data (bit_count - 1 - i),
         i =? bit_count - 1))
    <$> seqZ 0 bit_count.

(** The number whose bit [i] is element [i] of the list. *)
Definition lsb_word (bits : list bool) : Z :=
  fold_right (λ b z, Z.b2z b + 2 * z) 0 bits.

(** The low [n] bits of a number, bit 0 first. *)
Definition bits_of (n : nat) (z : Z) : list bool :=
  Z.testbit z <$> seqZ 0 (Z.of_nat n).

(** A loop that makes one step call per index and folds the answers into
    its local: the value of the local after the answers [rs], from index
    [i] on. *)
Fixpoint fold_steps {A} (upd : Z → A → bool → A) (i : Z) (rs : list bool)
    (acc : A) : A :=
  match rs with
  | [] => acc
  | r :: rs' => fold_steps upd (i + 1) rs' (upd i acc r)
  end.

(** The calls of the navigation helpers. *)
Definition reset_calls : list StepArgs :=
  nav <$> [true; true; true; true; true; false].
Definition ir_calls : list StepArgs := nav <$> [true; true; false; false].
Definition dr_calls : list StepArgs := nav <$> [true; false; false].
Definition dr_idle_calls : list StepArgs := nav <$> [false; true; false; false].
Definition exit_calls : list StepArgs := nav <$> [true; false].

(** Load a 4-bit instruction and come back to Run-Test-Idle: 10 calls. *)
Definition load_ir_calls (instruction : Z) : list StepArgs :=
  ir_calls ++ lsb_calls instruction 4 ++ exit_calls.

(** [count] data calls with TMS and is_last low, TDI from [pattern], most
    significant bit first. *)
Definition data_calls (pattern count : Z) : list StepArgs :=
  (λ i, (false, Z.testbit pattern (count - 1 - i), false)) <$> seqZ 0 count.

(** The calls of [test_counter_idcode]: the 32 data register calls are
    calls 14 to 45. *)
Definition idcode_calls : list StepArgs :=
  load_ir_calls 0x1 ++ dr_idle_calls ++ lsb_calls 0 32 ++ exit_calls.

(** The calls of [test_boundary_scan_sample]: the 9 data register calls are
    calls 13 to 21. *)
Definition sample_calls : list StepArgs :=
  load_ir_calls 0x2 ++ dr_calls ++ lsb_calls 0 9 ++ exit_calls.

(** The calls of [test_bypass]: the 8 data calls are calls 13 to 20. *)
Definition bypass_calls : list StepArgs :=
  load_ir_calls 0xF ++ dr_calls ++ data_calls 0xAA 8 ++ exit_calls.

(** The calls of the four tests that check nothing. *)
Definition preload_calls : list StepArgs :=
  load_ir_calls 0x2 ++ dr_calls ++ data_calls 0x1A5 9 ++ exit_calls.
Definition unknown_calls : list StepArgs :=
  load_ir_calls 0x5 ++ dr_calls ++ data_calls 0x33 8 ++ exit_calls.
Definition ir_capture_calls : list StepArgs :=
  ir_calls ++ data_calls 0 4 ++ exit_calls.
Definition tap_transition_calls : list StepArgs :=
  reset_calls ++ ir_calls ++ (nav <$> [true; true; false]) ++ dr_calls ++
  (nav <$> [true; true; false]).

(** The calls of [test_boundary_scan_extest] before and after its
    [wait_cycles(5)]: the 9 readback calls are calls 13 to 21 of the second
    part. *)
Definition extest_calls_1 : list StepArgs :=
  load_ir_calls 0x2 ++ dr_calls ++ lsb_calls 0x1AF 9 ++ exit_calls ++
  load_ir_calls 0x0.
Definition extest_calls_2 : list StepArgs :=
  load_ir_calls 0x2 ++ dr_calls ++ lsb_calls 0 9 ++ exit_calls.

(** The calls of [test_complex_instruction_sequence]: the 32 IDCODE answers
    are calls 19 to 50, the 9 SAMPLE answers calls 66 to 74. *)
Definition complex_calls : list StepArgs :=
  reset_calls ++
  load_ir_calls 0x1 ++ dr_calls ++ lsb_calls 0 32 ++ exit_calls ++
  load_ir_calls 0x2 ++ dr_calls ++ lsb_calls 0 9 ++ exit_calls ++
  load_ir_calls 0x0 ++ dr_calls ++ lsb_calls 0x1AF 9 ++ exit_calls ++
  load_ir_calls 0xF ++ dr_calls ++ replicate 4 (false, true, false) ++
  exit_calls.

(** The calls of [run_counter_jtag_tests] before and after the one
    [wait_cycles(5)] it makes, inside [test_boundary_scan_extest]. *)
Definition suite_calls_1 : list StepArgs :=
  reset_calls ++ idcode_calls ++ sample_calls ++ extest_calls_1.
Definition suite_calls_2 : list StepArgs :=
  extest_calls_2 ++ bypass_calls ++ preload_calls ++ unknown_calls ++
  ir_capture_calls ++ complex_calls ++ tap_transition_calls.

Section Vocabulary.
Context `{TB : SvTestbench} `{RE : RandomEngine}.

(** The world after [wait_cycles(cycles)]. *)
Definition waited (cycles : Z) (w : World) : World :=
  with_sim (tb_wait_cycles cycles (sv_sim w)) (EvWaitCycles cycles) w.

(** What the simulator answers to a sequence of step calls made from state
    [s], and the state it is in afterwards. *)
Fixpoint answers (cs : list StepArgs) (s : sim) : list bool :=
  match cs with
  | [] => []
  | c :: cs' =>
      let r := tb_jtag_step c.1.1 c.1.2 c.2 s in r.1 :: answers cs' r.2
  end.

Fixpoint sim_after (cs : list StepArgs) (s : sim) : sim :=
  match cs with
  | [] => s
  | c :: cs' => sim_after cs' (tb_jtag_step c.1.1 c.1.2 c.2 s).2
  end.

(** The world after the step calls [cs] and nothing else: the simulator has
    moved on and the calls are logged with their answers. *)
Definition after (cs : list StepArgs) (w : World) : World :=
  mkWorld (device_registry w) (gen w) (open_arrays w)
    (sim_after cs (sv_sim w))
    (sv_trace w ++ zip_with step_event cs (answers cs (sv_sim w))).

(** A handle is active when the registry has an entry for it and the entry
    is enabled: the negation of the guard every operation but [djtg_enable]
    starts with. *)
Definition is_active (hif : Z) (w : World) : bool :=
  match device_registry w !! hif with
  | Some dev => enabled dev
  | None => false
  end.

(** Every operation but [djtg_enable] fails on [hif] and leaves the world,
    and its out-parameters, as they were. *)
Definition ops_fail (hif : Z) (w : World) : Prop :=
  djtg_disable hif w = Some (FALSE, w) ∧
  (∀ freq_req freq_set,
     djtg_set_speed hif freq_req freq_set w = Some ((FALSE, freq_set), w)) ∧
  (∀ freq_cur, djtg_get_speed hif freq_cur w = Some ((FALSE, freq_cur), w)) ∧
  (∀ tms tdi tck, djtg_set_tms_tdi_tck hif tms tdi tck w = Some (FALSE, w)) ∧
  (∀ tms tdi tdo tck,
     djtg_get_tms_tdi_tdo_tck hif tms tdi tdo tck w
     = Some ((FALSE, (tms, tdi, tdo, tck)), w)) ∧
  (∀ tms_data tdi_data tdo_data cbit overlap,
     djtg_put_tms_tdi_bits hif tms_data tdi_data tdo_data cbit overlap w
     = Some (FALSE, w)) ∧
  (∀ tms_data tdi_data tdo_data cbit overlap,
     djtg_get_tms_tdi_tdo_bits hif tms_data tdi_data tdo_data cbit overlap w
     = Some (FALSE, w)).

Definition run_call (c : ApiCall) : M Z :=
  match c with
  | CallEnable hif => djtg_enable hif
  | CallDisable hif => djtg_disable hif
  | CallPutBits hif tms tdi tdo cbit overlap =>
      djtg_put_tms_tdi_bits hif tms tdi tdo cbit overlap
  | CallGetBits hif tms tdi tdo cbit overlap =>
      djtg_get_tms_tdi_tdo_bits hif tms tdi tdo cbit overlap
  | CallSetPins hif tms tdi tck => djtg_set_tms_tdi_tck hif tms tdi tck
  | CallGetPins hif =>
      r <- djtg_get_tms_tdi_tdo_tck hif false false false false ;; ret r.1
  | CallSetSpeed hif freq_req => r <- djtg_set_speed hif freq_req 0 ;; ret r.1
  | CallGetSpeed hif => r <- djtg_get_speed hif 0 ;; ret r.1
  end.

(** A client session: calls in order, results dropped. *)
Fixpoint run_calls (cs : list ApiCall) (w : World) : option World :=
  match cs with
  | [] => Some w
  | c :: cs' =>
      match run_call c w with
      | Some (_, w') => run_calls cs' w'
      | None => None
      end
  end.

(** What a run of the mock leaves alone when it only writes array [h]. *)
Definition writes_only (h : Z) (w w' : World) : Prop :=
  device_registry w' = device_registry w ∧ gen w' = gen w ∧
  (∀ h', h' ≠ h → open_arrays w' !! h' = open_arrays w !! h') ∧
  (length <$> open_arrays w' !! h) = (length <$> open_arrays w !! h).

(** A logged step call whose answer is what the simulator says to it in
    some state. *)
Definition step_answered (e : SvEvent) : Prop :=
  match e with
  | EvJtagStep tms tdi is_last tdo =>
      ∃ s, tdo = (tb_jtag_step tms tdi is_last s).1
  | _ => False
  end.

End Vocabulary.

(** Handle 1 enabled; arrays 10 (TMS), 11 (TDI) and 12 (TDO, dirty). *)
Definition demo_world : @World loopback_tb (const_rng (1 # 2)) :=
  @mkWorld loopback_tb (const_rng (1 # 2)) (<[1 := enabled_defaults]> ∅) tt
    (<[10 := [0x35; 0x02]]> (<[11 := [0xC6; 0x01]]> (<[12 := [0xFF; 0xFF; 0xFF]]> ∅)))
    tt [].

(** Linear arithmetic with division and remainder by constants. *)
Ltac div_lia := zify; Z.div_mod_to_equations; lia.

(** ** Small runs of the model *)

Example bits_to_bytes_ex :
  bits_to_bytes [true; false; true; true; false; false; false; false; true] = [13; 1].
Proof. reflexivity. Qed.

Example bytes_to_bits_ex :
  bytes_to_bits [13; 1] 9 =
  Some [true; false; true; true; false; false; false; false; true].
Proof. reflexivity. Qed.

Example bytes_to_bits_short : bytes_to_bits [13] 9 = None.
Proof. reflexivity. Qed.

(** Both outcomes of [djtg_enable] occur: a draw below the failure rate
    fails, a draw above it succeeds. *)
Example enable_can_fail :
  fst <$> djtg_enable 1 (@fresh_world loopback_tb (const_rng 0) tt tt) = Some FALSE.
Proof. reflexivity. Qed.

Example enable_can_succeed :
  fst <$> djtg_enable 1 (@fresh_world loopback_tb (const_rng (1 # 2)) tt tt)
  = Some TRUE.
Proof. reflexivity. Qed.

(** ** Bits of bytes *)

Lemma shr_and_1_testbit (x k : Z) : 0 ≤ k → shr_and_1 x k = Z.testbit x k.
Proof.
  intros Hk. unfold shr_and_1.
  replace (Z.testbit x k) with (Z.testbit (Z.shiftr x k) 0)
    by (rewrite Z.shiftr_spec by lia; f_equal; lia).
  rewrite Z.bit0_odd.
  change 1 with (Z.ones 1). rewrite Z.land_ones by lia.
  change (2 ^ 1) with 2. rewrite Zmod_odd.
  destruct (Z.odd (Z.shiftr x k)); reflexivity.
Qed.

Lemma testbit_one (k : Z) : Z.testbit 1 k = (k =? 0).
Proof.
  destruct (Z.eqb_spec k 0) as [->|Hne]; [reflexivity|].
  destruct (Z.lt_ge_cases k 0) as [Hneg|Hpos].
  - apply Z.testbit_neg_r; lia.
  - apply (Z.bits_above_log2 1 k); simpl; lia.
Qed.

Lemma to_uint8_range (z : Z) : 0 ≤ to_uint8 z < 256.
Proof. unfold to_uint8. apply Z.mod_pos_bound. lia. Qed.

Lemma to_uint8_testbit (z k : Z) :
  0 ≤ k < 8 → Z.testbit (to_uint8 z) k = Z.testbit z k.
Proof.
  intros Hk. unfold to_uint8. change 256 with (2 ^ 8).
  apply Z.mod_pow2_bits_low. lia.
Qed.

Lemma or_shl_testbit (b p q : Z) :
  0 ≤ p → Z.testbit (Z.lor b (Z.shiftl 1 p)) q = Z.testbit b q || (q =? p).
Proof.
  intros Hp. rewrite Z.lor_spec. f_equal.
  destruct (Z.lt_ge_cases q 0) as [Hq|Hq].
  - rewrite Z.testbit_neg_r by lia. symmetry. apply Z.eqb_neq. lia.
  - rewrite Z.shiftl_spec by lia. rewrite testbit_one.
    destruct (Z.eqb_spec (q - p) 0), (Z.eqb_spec q p); try reflexivity; lia.
Qed.

(** A byte is its eight bits. *)
Lemma byte_ext (a b : Z) :
  0 ≤ a < 256 → 0 ≤ b < 256 →
  (∀ k, 0 ≤ k < 8 → Z.testbit a k = Z.testbit b k) → a = b.
Proof.
  intros Ha Hb Hbits. apply Z.bits_inj'. intros n Hn.
  destruct (Z.lt_ge_cases n 8) as [Hlt|Hge]; [apply Hbits; lia|].
  rewrite <- (Z.mod_small a (2 ^ 8)), <- (Z.mod_small b (2 ^ 8))
    by (change (2 ^ 8) with 256; lia).
  rewrite !Z.mod_pow2_bits_high by lia. reflexivity.
Qed.

Lemma bit_index_split (i j : Z) : i / 8 = j / 8 → i mod 8 = j mod 8 → i = j.
Proof.
  intros Hq Hr.
  rewrite (Z.div_mod i 8), (Z.div_mod j 8) by lia. lia.
Qed.

Lemma byte_at_lookup (v : list Z) (n : nat) (b : Z) :
  v !! n = Some b → byte_at v n = b.
Proof. unfold byte_at. by intros ->. Qed.

Lemma byte_at_insert_eq (v : list Z) (n : nat) (x : Z) :
  (n < length v)%nat → byte_at (<[n := x]> v) n = x.
Proof. intros Hn. unfold byte_at. by rewrite list_lookup_insert_eq. Qed.

Lemma byte_at_insert_ne (v : list Z) (n m : nat) (x : Z) :
  n ≠ m → byte_at (<[n := x]> v) m = byte_at v m.
Proof. intros Hn. unfold byte_at. by rewrite list_lookup_insert_ne. Qed.

Lemma byte_at_replicate_0 (n m : nat) : byte_at (replicate n 0) m = 0.
Proof.
  unfold byte_at. destruct (replicate n 0 !! m) as [b|] eqn:Hb; [|done].
  by apply lookup_replicate in Hb as [-> _].
Qed.

(** Setting bit [i] of a packed vector changes bit [i] and no other. *)
Lemma vec_bit_or (v : list Z) (i j : Z) :
  0 ≤ i → 0 ≤ j → (Z.to_nat (i / 8) < length v)%nat →
  vec_bit
    (<[Z.to_nat (i / 8) :=
         to_uint8 (Z.lor (byte_at v (Z.to_nat (i / 8))) (Z.shiftl 1 (i mod 8)))]> v) j
  = vec_bit v j || (j =? i).
Proof.
  intros Hi Hj Hlen. unfold vec_bit.
  assert (0 ≤ i mod 8 < 8) by (apply Z.mod_pos_bound; lia).
  assert (0 ≤ j mod 8 < 8) by (apply Z.mod_pos_bound; lia).
  destruct (decide (j / 8 = i / 8)) as [Heq|Hne].
  - rewrite Heq, byte_at_insert_eq by done.
    rewrite to_uint8_testbit, or_shl_testbit by lia. f_equal.
    destruct (Z.eqb_spec (j mod 8) (i mod 8)) as [Hr|Hr],
             (Z.eqb_spec j i) as [Hji|Hji]; try reflexivity.
    + exfalso. apply Hji. by apply bit_index_split.
    + subst j. done.
  - rewrite byte_at_insert_ne.
    + destruct (Z.eqb_spec j i) as [->|_]; [done|]. by rewrite orb_false_r.
    + intros Hn. apply Hne. apply Z2Nat.inj in Hn; [done| |];
        apply Z.div_pos; lia.
Qed.

Lemma vec_bit_replicate_0 (n : nat) (j : Z) : vec_bit (replicate n 0) j = false.
Proof.
  unfold vec_bit. rewrite byte_at_replicate_0. apply Z.testbit_0_l.
Qed.

Lemma bytes_to_bits_loop_spec (bytes : list Z) (count : nat) (i : Z) (acc : list bool) :
  0 ≤ i → i + Z.of_nat count ≤ 8 * Z.of_nat (length bytes) →
  bytes_to_bits_loop bytes i count acc
  = Some (acc ++ (vec_bit bytes <$> seqZ i (Z.of_nat count))).
Proof.
  revert i acc. induction count as [|c IH]; intros i acc Hi Hlen; simpl.
  - by rewrite app_nil_r.
  - rewrite Z.quot_div_nonneg, Z.rem_mod_nonneg by lia.
    destruct (bytes !! Z.to_nat (i / 8)) as [b|] eqn:Hb.
    + rewrite IH by lia. rewrite <- app_assoc. do 2 f_equal.
      rewrite (seqZ_cons i) by lia. rewrite fmap_cons. simpl. f_equal.
      * unfold vec_bit. rewrite (byte_at_lookup _ _ _ Hb).
        apply shr_and_1_testbit. apply Z.mod_pos_bound. lia.
      * do 2 f_equal; lia.
    + exfalso. apply lookup_ge_None in Hb. div_lia.
Qed.

(** [bytes_to_bits] succeeds as soon as the vector holds [bit_count] bits,
    and then lists bit [i mod 8] of byte [i / 8] for [i] below [bit_count]. *)
Lemma bytes_to_bits_spec (bytes : list Z) (bit_count : Z) :
  bit_count ≤ 8 * Z.of_nat (length bytes) →
  bytes_to_bits bytes bit_count = Some (vec_bit bytes <$> seqZ 0 bit_count).
Proof.
  intros Hlen. unfold bytes_to_bits.
  rewrite bytes_to_bits_loop_spec by lia. simpl. do 2 f_equal.
  destruct (Z.le_gt_cases bit_count 0) as [Hn|Hp].
  - rewrite !seqZ_nil; [done|lia|lia].
  - f_equal. lia.
Qed.

Lemma or_bit_spec (bytes : list Z) (i : nat) (j : Z) :
  (i / 8 < length bytes)%nat → 0 ≤ j →
  vec_bit (or_bit bytes i) j = vec_bit bytes j || (j =? Z.of_nat i).
Proof.
  intros Hlen Hj. unfold or_bit.
  replace (i / 8)%nat with (Z.to_nat (Z.of_nat i / 8)) by div_lia.
  replace (Z.of_nat (i mod 8)) with (Z.of_nat i mod 8) by div_lia.
  apply vec_bit_or; [lia|lia|div_lia].
Qed.

(** The packing loop after its first [k] iterations. *)
Lemma bits_to_bytes_prefix (bits : list bool) (k : nat) :
  (k ≤ length bits)%nat →
  let v :=
    fold_left
      (λ (bytes : list Z) (i : nat),
         if (bits !!! i : bool) then or_bit bytes i else bytes)
      (seq 0 k) (replicate ((length bits + 7) / 8)%nat 0) in
  length v = ((length bits + 7) / 8)%nat ∧
  Forall is_uint8 v ∧
  ∀ j, 0 ≤ j →
    vec_bit v j = bool_decide (j < Z.of_nat k) && (bits !!! Z.to_nat j).
Proof.
  induction k as [|k IH]; intros Hk; cbv zeta in *.
  - simpl. split; [by rewrite length_replicate|]. split.
    + apply Forall_replicate. unfold is_uint8. lia.
    + intros j Hj. rewrite vec_bit_replicate_0.
      rewrite bool_decide_eq_false_2 by lia. done.
  - rewrite seq_S, fold_left_app. simpl.
    destruct IH as (Hlen & Hrange & Hbits); [lia|].
    set (v := fold_left _ (seq 0 k) _) in *.
    destruct (bits !!! k) eqn:Hbk.
    + split; [unfold or_bit; by rewrite length_insert|]. split.
      * unfold or_bit. apply Forall_insert; [done|]. apply to_uint8_range.
      * intros j Hj. rewrite or_bit_spec by (try done; rewrite Hlen; div_lia).
        rewrite Hbits by done.
        destruct (Z.eqb_spec j (Z.of_nat k)) as [->|Hne].
        -- rewrite Nat2Z.id, Hbk.
           rewrite bool_decide_eq_false_2, bool_decide_eq_true_2 by lia. done.
        -- rewrite orb_false_r. f_equal. apply bool_decide_ext. lia.
    + split; [done|]. split; [done|].
      intros j Hj. rewrite Hbits by done.
      destruct (Z.eqb_spec j (Z.of_nat k)) as [->|Hne].
      * rewrite Nat2Z.id, Hbk, !andb_false_r. done.
      * f_equal. apply bool_decide_ext. lia.
Qed.

(** [bits_to_bytes] yields [ceil(len / 8)] bytes whose bit [j] is [bits[j]]
    below [len] and 0 from there on. *)
Lemma bits_to_bytes_spec (bits : list bool) :
  length (bits_to_bytes bits) = ((length bits + 7) / 8)%nat ∧
  Forall is_uint8 (bits_to_bytes bits) ∧
  ∀ j, 0 ≤ j →
    vec_bit (bits_to_bytes bits) j
    = bool_decide (j < Z.of_nat (length bits)) && (bits !!! Z.to_nat j).
Proof. apply (bits_to_bytes_prefix bits (length bits)). lia. Qed.

(** Two packed vectors with the same bits are the same vector. *)
Lemma vec_ext (u v : list Z) :
  length u = length v → Forall is_uint8 u → Forall is_uint8 v →
  (∀ j, 0 ≤ j < 8 * Z.of_nat (length u) → vec_bit u j = vec_bit v j) →
  u = v.
Proof.
  intros Hlen Hu Hv Hbits.
  apply (list_eq_same_length _ _ (length u)); [done|done|].
  intros n a b Hn Ha Hb.
  apply byte_ext.
  - exact (Forall_lookup_1 is_uint8 u n a Hu Ha).
  - exact (Forall_lookup_1 is_uint8 v n b Hv Hb).
  - intros k Hk.
    specialize (Hbits (8 * Z.of_nat n + k)). unfold vec_bit in Hbits.
    replace ((8 * Z.of_nat n + k) / 8) with (Z.of_nat n) in Hbits by div_lia.
    replace ((8 * Z.of_nat n + k) mod 8) with k in Hbits by div_lia.
    rewrite Nat2Z.id in Hbits.
    rewrite (byte_at_lookup _ _ _ Ha), (byte_at_lookup _ _ _ Hb) in Hbits.
    apply Hbits. lia.
Qed.

Lemma bytes_to_bits_lookup (bytes : list Z) (bit_count : Z) (bits : list bool) :
  bytes_to_bits bytes bit_count = Some bits →
  bit_count ≤ 8 * Z.of_nat (length bytes) →
  length bits = Z.to_nat bit_count ∧
  ∀ i, 0 ≤ i < bit_count → bits !! Z.to_nat i = Some (vec_bit bytes i).
Proof.
  intros Hrun Hlen. rewrite bytes_to_bits_spec in Hrun by done.
  injection Hrun as <-. split.
  - by rewrite length_fmap, length_seqZ.
  - intros i Hi. rewrite list_lookup_fmap, lookup_seqZ_lt by lia.
    simpl. do 2 f_equal. lia.
Qed.

(** C7: packing the unpacking of a whole byte sequence gives the sequence
    back; unpacking puts bit [i mod 8] of byte [i / 8] at position [i], needs
    no byte past the last declared bit and does not depend on any bit from
    [bit_count] on; packing yields [ceil(len / 8)] bytes, bit [j] of which is
    [bits[j]] below [len] and 0 from there on. *)
Theorem pack_unpack_roundtrip (bytes : list Z) (Hbytes : Forall is_uint8 bytes) :
  (∃ bits,
     bytes_to_bits bytes (8 * Z.of_nat (length bytes)) = Some bits ∧
     bits_to_bytes bits = bytes) ∧
  (∀ bit_count, bit_count ≤ 8 * Z.of_nat (length bytes) →
     ∃ bits,
       bytes_to_bits bytes bit_count = Some bits ∧
       length bits = Z.to_nat bit_count ∧
       ∀ i, 0 ≤ i < bit_count → bits !! Z.to_nat i = Some (vec_bit bytes i)) ∧
  (∀ bit_count (bytes' : list Z),
     bit_count ≤ 8 * Z.of_nat (length bytes) →
     bit_count ≤ 8 * Z.of_nat (length bytes') →
     (∀ i, 0 ≤ i < bit_count → vec_bit bytes i = vec_bit bytes' i) →
     bytes_to_bits bytes bit_count = bytes_to_bits bytes' bit_count) ∧
  (∀ bits : list bool,
     length (bits_to_bytes bits) = ((length bits + 7) / 8)%nat ∧
     Forall is_uint8 (bits_to_bytes bits) ∧
     ∀ j, 0 ≤ j < 8 * Z.of_nat ((length bits + 7) / 8) →
       vec_bit (bits_to_bytes bits) j
       = if bool_decide (j < Z.of_nat (length bits))
         then bits !!! Z.to_nat j else false).
Proof.
  split; [|split; [|split]].
  - eexists. split; [apply bytes_to_bits_spec; lia|].
    set (bits := vec_bit bytes <$> seqZ 0 (8 * Z.of_nat (length bytes))).
    assert (Hn : length bits = (8 * length bytes)%nat).
    { unfold bits. rewrite length_fmap, length_seqZ. lia. }
    destruct (bits_to_bytes_spec bits) as (Hlen & Hrange & Hbits).
    apply vec_ext; [rewrite Hlen, Hn; div_lia|done|done|].
    intros j Hj. rewrite Hbits by lia.
    rewrite Hlen, Hn in Hj.
    rewrite bool_decide_eq_true_2 by div_lia. simpl.
    unfold bits. apply list_lookup_total_correct.
    rewrite list_lookup_fmap, lookup_seqZ_lt by div_lia.
    simpl. do 2 f_equal. lia.
  - intros bit_count Hlen. eexists. split; [by apply bytes_to_bits_spec|].
    eapply bytes_to_bits_lookup; [by apply bytes_to_bits_spec|done].
  - intros bit_count bytes' Hlen Hlen' Hsame.
    rewrite !bytes_to_bits_spec by done. f_equal.
    apply list_fmap_ext. intros n i Hi. apply lookup_seqZ in Hi as [-> Hi].
    apply Hsame. lia.
  - intros bits. destruct (bits_to_bytes_spec bits) as (Hlen & Hrange & Hbits).
    split; [done|]. split; [done|]. intros j Hj. rewrite Hbits by lia.
    by destruct (bool_decide (j < Z.of_nat (length bits))).
Qed.

Lemma pack_unpack_roundtrip_witness :
  Forall is_uint8 [165; 60] ∧
  ∃ bits, bytes_to_bits [165; 60] 16 = Some bits ∧ bits_to_bytes bits = [165; 60].
Proof.
  assert (H : Forall is_uint8 [165; 60])
    by (repeat constructor; unfold is_uint8; lia).
  split; [exact H|].
  exact (proj1 (pack_unpack_roundtrip [165; 60] H)).
Defined.

(** C10: unpacking the packed form of any bit sequence, with the sequence's
    own length, gives the sequence back, whatever its length. *)
Theorem unpack_pack_roundtrip (bits : list bool) :
  bytes_to_bits (bits_to_bytes bits) (Z.of_nat (length bits)) = Some bits.
Proof.
  destruct (bits_to_bytes_spec bits) as (Hlen & _ & Hbits).
  rewrite bytes_to_bits_spec by (rewrite Hlen; div_lia).
  f_equal. apply list_eq. intros i. rewrite list_lookup_fmap.
  destruct (decide (i < length bits)%nat) as [Hi|Hi].
  - rewrite lookup_seqZ_lt by lia. simpl.
    rewrite Hbits by lia. rewrite bool_decide_eq_true_2 by lia. simpl.
    replace (Z.to_nat (0 + Z.of_nat i)) with i by lia.
    symmetry. by apply list_lookup_lookup_total_lt.
  - rewrite lookup_seqZ_ge by lia. simpl.
    symmetry. apply lookup_ge_None. lia.
Qed.

(** ** Running the mock *)

Section Runs.
Context `{TB : SvTestbench} `{RE : RandomEngine}.

(** C2: reset, then go to Shift-IR, leave to Run-Test-Idle, go to Shift-DR
    with the extra idle cycle: whatever the simulator and its answers, the
    run ends and makes exactly these 16 step calls, TDI and is_last low,
    and touches neither the registry nor any array. *)
Theorem tap_sequence_calls (w : World) :
  ∃ w' evs,
    (tap_reset ;; navigate_to_shift_ir ;; exit_to_run_test_idle ;;
     navigate_to_shift_dr_with_idle) w = Some (tt, w') ∧
    sv_trace w' = sv_trace w ++ evs ∧
    call_of <$> evs =
      (λ tms, JtagStep tms false false) <$>
        [true; true; true; true; true; false;
         true; true; false; false;
         true; false;
         false; true; false; false] ∧
    length evs = 16%nat ∧
    device_registry w' = device_registry w ∧
    open_arrays w' = open_arrays w.
Proof.
  eexists _, _. split; [cbv -[tb_jtag_step app]; reflexivity|].
  split; [cbn; rewrite <- !app_assoc; cbn; reflexivity|].
  cbn. auto.
Qed.

Lemma inactive_ops_fail (hif : Z) (w : World) :
  is_active hif w = false → ops_fail hif w.
Proof.
  unfold is_active, ops_fail. intros Hin.
  unfold djtg_get_tms_tdi_tdo_bits, djtg_put_tms_tdi_bits, djtg_disable,
    djtg_set_speed, djtg_get_speed, djtg_set_tms_tdi_tck,
    djtg_get_tms_tdi_tdo_tck, bind, registry_find, ret.
  destruct (device_registry w !! hif) as [dev|]; [rewrite Hin; simpl|];
    repeat split; reflexivity.
Qed.

Lemma disable_deactivates (hif : Z) (w w' : World) (r : Z) :
  djtg_disable hif w = Some (r, w') → is_active hif w' = false.
Proof.
  unfold djtg_disable, bind, registry_find, registry_modify, ret, is_active.
  destruct (device_registry w !! hif) as [dev|] eqn:Hreg.
  - destruct (enabled dev) eqn:Hen; simpl; intros [= <- <-]; simpl.
    + by rewrite lookup_alter_eq, Hreg.
    + by rewrite Hreg.
  - intros [= <- <-]. by rewrite Hreg.
Qed.

(** C4: on a handle with no entry, or with a disabled entry, or just after a
    [djtg_disable] of it, every operation but [djtg_enable] returns FALSE and
    leaves registry, arrays, simulator and call log untouched. *)
Theorem inactive_handle_fails (hif : Z) (w : World)
    (Hinactive :
       device_registry w !! hif = None ∨
       (∃ dev, device_registry w !! hif = Some dev ∧ enabled dev = false) ∨
       (∃ w0 r, djtg_disable hif w0 = Some (r, w))) :
  ops_fail hif w.
Proof.
  apply inactive_ops_fail.
  destruct Hinactive as [Hnone|[(dev & Hdev & Hen)|(w0 & r & Hdis)]].
  - unfold is_active. by rewrite Hnone.
  - unfold is_active. by rewrite Hdev.
  - by eapply disable_deactivates.
Qed.

(** C8: the get-style bulk operation is the put-style one, result, arrays
    and call log included, and neither looks at [overlap]. *)
Theorem get_bits_is_put_bits (hif tms_data tdi_data tdo_data cbit : Z)
    (overlap overlap' : bool) (w : World) :
  djtg_get_tms_tdi_tdo_bits hif tms_data tdi_data tdo_data cbit overlap w
  = djtg_put_tms_tdi_bits hif tms_data tdi_data tdo_data cbit overlap w ∧
  djtg_put_tms_tdi_bits hif tms_data tdi_data tdo_data cbit overlap w
  = djtg_put_tms_tdi_bits hif tms_data tdi_data tdo_data cbit overlap' w ∧
  djtg_get_tms_tdi_tdo_bits hif tms_data tdi_data tdo_data cbit overlap w
  = djtg_get_tms_tdi_tdo_bits hif tms_data tdi_data tdo_data cbit overlap' w.
Proof. repeat split; reflexivity. Qed.

(** C3: on an enabled handle [djtg_set_speed] succeeds, stores and returns
    the request clamped into [1000, 50000000], and [djtg_get_speed] right
    after returns that value; 100000000 gives 50000000, 10 gives 1000 and
    2000000 gives 2000000. *)
Theorem set_speed_clamps (hif freq_req freq_set freq_cur : Z) (w : World)
    (dev : JtagDevice)
    (Hreg : device_registry w !! hif = Some dev) (Hen : enabled dev = true) :
  (∃ w',
     djtg_set_speed hif freq_req freq_set w = Some ((TRUE, clamp_freq freq_req), w') ∧
     device_registry w' !! hif = Some (set_clock_freq (clamp_freq freq_req) dev) ∧
     (∀ h, h ≠ hif → device_registry w' !! h = device_registry w !! h) ∧
     sv_trace w' = sv_trace w ∧ open_arrays w' = open_arrays w ∧
     djtg_get_speed hif freq_cur w' = Some ((TRUE, clamp_freq freq_req), w')) ∧
  fst <$> djtg_set_speed hif 100000000 freq_set w = Some (TRUE, 50000000) ∧
  fst <$> djtg_set_speed hif 10 freq_set w = Some (TRUE, 1000) ∧
  fst <$> djtg_set_speed hif 2000000 freq_set w = Some (TRUE, 2000000).
Proof.
  unfold djtg_set_speed, djtg_get_speed, bind, registry_find, registry_modify, ret.
  rewrite Hreg, Hen. simpl. split; [|by repeat split].
  eexists. split; [|split; [|split; [|split; [|split]]]].
  - do 3 f_equal. unfold clamp_freq.
    destruct (Z.gtb_spec freq_req 50000000); [lia|].
    destruct (Z.ltb_spec freq_req 1000); lia.
  - simpl. rewrite lookup_alter_eq, Hreg. simpl. do 3 f_equal.
    unfold clamp_freq.
    destruct (Z.gtb_spec freq_req 50000000); [lia|].
    destruct (Z.ltb_spec freq_req 1000); lia.
  - intros h Hh. simpl. by rewrite lookup_alter_ne.
  - reflexivity.
  - reflexivity.
  - simpl. rewrite lookup_alter_eq, Hreg. simpl. rewrite Hen. simpl.
    do 3 f_equal. unfold clamp_freq.
    destruct (Z.gtb_spec freq_req 50000000); [lia|].
    destruct (Z.ltb_spec freq_req 1000); lia.
Qed.

Lemma enable_run (hif : Z) (w : World) :
  djtg_enable hif w =
  if Qlt_le_dec (uniform_real (gen w)).1 default_failure_rate
  then Some (FALSE, with_gen (uniform_real (gen w)).2 w)
  else Some (TRUE,
             with_registry (<[hif := enabled_defaults]> (device_registry w))
               (with_gen (uniform_real (gen w)).2 w)).
Proof.
  unfold djtg_enable, bind, simulate_communication_error, registry_subscript, ret.
  simpl. destruct (Qlt_le_dec _ _); [reflexivity|]. simpl.
  rewrite lookup_insert_eq, insert_insert_eq. reflexivity.
Qed.

(** C5: [djtg_enable] draws once from the generator. When the draw is below
    the failure rate it fails and leaves the registry (and arrays, simulator,
    call log) as they were; otherwise it succeeds and binds [hif] to the
    defaults, whatever was there before, so that a frequency configured
    earlier is gone; no other handle changes. *)
Theorem enable_outcomes (hif : Z) (w : World) :
  ∃ r w',
    djtg_enable hif w = Some (r, w') ∧
    open_arrays w' = open_arrays w ∧ sv_sim w' = sv_sim w ∧
    sv_trace w' = sv_trace w ∧
    gen w' = (uniform_real (gen w)).2 ∧
    (((uniform_real (gen w)).1 < default_failure_rate)%Q ∧
     r = FALSE ∧ device_registry w' = device_registry w
     ∨
     (default_failure_rate <= (uniform_real (gen w)).1)%Q ∧
     r = TRUE ∧
     device_registry w' = <[hif := enabled_defaults]> (device_registry w) ∧
     device_registry w' !! hif =
       Some (mkJtagDevice true 1000000 false false false false 0x12345678 1000) ∧
     (∀ h, h ≠ hif → device_registry w' !! h = device_registry w !! h) ∧
     ∀ freq_cur, djtg_get_speed hif freq_cur w' = Some ((TRUE, 1000000), w')).
Proof.
  rewrite enable_run. destruct (Qlt_le_dec _ _) as [Hlt|Hle].
  - eexists _, _. split; [reflexivity|]. do 4 (split; [reflexivity|]).
    left. by repeat split.
  - eexists _, _. split; [reflexivity|]. do 4 (split; [reflexivity|]).
    right. split; [done|]. split; [done|]. split; [done|]. simpl.
    split; [apply lookup_insert_eq|]. split.
    + intros h Hh. by rewrite lookup_insert_ne.
    + intros freq_cur. unfold djtg_get_speed, bind, registry_find, ret. simpl.
      by rewrite lookup_insert_eq.
Qed.

End Runs.

(** ** Loops and bulk shifting *)

Section Shifts.
Context `{TB : SvTestbench} `{RE : RandomEngine}.

(** Invariant rule for the counted loop: it runs to its end when every
    iteration runs and keeps the invariant. *)
Lemma for_from_invariant {A} (I : nat → A → World → Prop)
    (body : Z → A → M A) (count : nat) (i : Z) (acc : A) (w : World) :
  I 0%nat acc w →
  (∀ k a u, (k < count)%nat → I k a u →
     ∃ a' u', body (i + Z.of_nat k) a u = Some (a', u') ∧ I (S k) a' u') →
  ∃ a' w', for_from i count body acc w = Some (a', w') ∧ I count a' w'.
Proof.
  revert I i acc w. induction count as [|c IH]; intros I i acc w H0 Hstep.
  - eexists _, _. split; [reflexivity|done].
  - destruct (Hstep 0%nat acc w) as (a1 & w1 & Hrun & HI); [lia|done|].
    replace (i + Z.of_nat 0) with i in Hrun by lia.
    destruct (IH (λ k, I (S k)) (i + 1) a1 w1) as (a' & w' & Hrun' & HI').
    + done.
    + intros k a u Hk HIk.
      replace (i + 1 + Z.of_nat k) with (i + Z.of_nat (S k)) by lia.
      apply Hstep; [lia|done].
    + exists a', w'. split; [|done]. simpl. unfold bind. by rewrite Hrun.
Qed.

Lemma array_load_run (h i b : Z) (v : list Z) (w : World) :
  open_arrays w !! h = Some v → 0 ≤ i → v !! Z.to_nat i = Some b →
  array_load h i w = Some (b, w).
Proof.
  intros Hh Hi Hb. unfold array_load. rewrite Hh.
  rewrite decide_True by done. by rewrite Hb.
Qed.

Lemma array_store_run (h i b : Z) (v : list Z) (w : World) :
  open_arrays w !! h = Some v → 0 ≤ i → (Z.to_nat i < length v)%nat →
  array_store h i b w
  = Some (tt, with_arrays (<[h := <[Z.to_nat i := b]> v]> (open_arrays w)) w).
Proof.
  intros Hh Hi Hlen. unfold array_store. rewrite Hh.
  by rewrite decide_True by done.
Qed.

Lemma zero_prefix_step (v : list Z) (k : nat) :
  (k < length v)%nat →
  <[k := 0]> (replicate k 0 ++ drop k v) = replicate (S k) 0 ++ drop (S k) v.
Proof.
  intros Hk. destruct (lookup_lt_is_Some_2 v k Hk) as [x Hx].
  rewrite insert_app_r_alt by (rewrite length_replicate; lia).
  rewrite length_replicate, Nat.sub_diag, (drop_S v x k Hx).
  rewrite replicate_S_end, <- app_assoc. reflexivity.
Qed.

(** The clearing loop of [djtg_put_tms_tdi_bits] zeroes the first [n] bytes
    of the array and nothing else. *)
Lemma clear_loop_run (h : Z) (n : nat) (v : list Z) (w : World) :
  open_arrays w !! h = Some v → (n ≤ length v)%nat →
  ∃ w',
    for_from 0 n (λ i _, array_store h i 0) tt w = Some (tt, w') ∧
    device_registry w' = device_registry w ∧ gen w' = gen w ∧
    sv_sim w' = sv_sim w ∧ sv_trace w' = sv_trace w ∧
    open_arrays w' = <[h := replicate n 0 ++ drop n v]> (open_arrays w).
Proof.
  intros Hh Hn.
  destruct (for_from_invariant
    (λ k (_ : unit) u,
       device_registry u = device_registry w ∧ gen u = gen w ∧
       sv_sim u = sv_sim w ∧ sv_trace u = sv_trace w ∧
       open_arrays u = <[h := replicate k 0 ++ drop k v]> (open_arrays w))
    (λ i _, array_store h i 0) n 0 tt w) as ([] & w' & Hrun & HI).
  - repeat split. simpl. rewrite drop_0. by rewrite insert_id.
  - intros k [] u Hk (Hr & Hg & Hs & Ht & Ha).
    eexists tt, _. split.
    + eapply array_store_run; [rewrite Ha; apply lookup_insert_eq|lia|].
      rewrite length_app, length_replicate, length_drop. lia.
    + simpl. repeat split; try done.
      rewrite Ha, insert_insert_eq. f_equal.
      replace (Z.to_nat (0 + Z.of_nat k)) with k by lia.
      apply zero_prefix_step. lia.
  - exists w'. split; [done|]. exact HI.
Qed.

(** One iteration of the bit loop: a single step call with the bits read
    from the input arrays, then at most one update of the output array. *)
Lemma put_bit_run (tms_data tdi_data tdo_data cbit i : Z)
    (tmsv tdiv v : list Z) (u : World) :
  open_arrays u !! tms_data = Some tmsv →
  open_arrays u !! tdi_data = Some tdiv →
  open_arrays u !! tdo_data = Some v →
  0 ≤ i → i < 8 * Z.of_nat (length tmsv) → i < 8 * Z.of_nat (length tdiv) →
  i < 8 * Z.of_nat (length v) →
  let r := tb_jtag_step (vec_bit tmsv i) (vec_bit tdiv i) (i =? cbit - 1) (sv_sim u) in
  put_bit tms_data tdi_data tdo_data cbit i u
  = Some (tt,
          with_arrays
            (<[tdo_data := if r.1 then or_bit_at v i else v]> (open_arrays u))
            (with_sim r.2
               (EvJtagStep (vec_bit tmsv i) (vec_bit tdiv i) (i =? cbit - 1) r.1) u)).
Proof.
  intros Htms Htdi Htdo Hi Hltms Hltdi Hlv r.
  assert (Hpos : 0 ≤ i mod 8 < 8) by (apply Z.mod_pos_bound; lia).
  destruct (lookup_lt_is_Some_2 tmsv (Z.to_nat (i / 8))) as [bm Hbm]; [div_lia|].
  destruct (lookup_lt_is_Some_2 tdiv (Z.to_nat (i / 8))) as [bd Hbd]; [div_lia|].
  destruct (lookup_lt_is_Some_2 v (Z.to_nat (i / 8))) as [bo Hbo]; [div_lia|].
  assert (Hvm : shr_and_1 bm (i mod 8) = vec_bit tmsv i).
  { unfold vec_bit. rewrite (byte_at_lookup _ _ _ Hbm).
    apply shr_and_1_testbit. lia. }
  assert (Hvd : shr_and_1 bd (i mod 8) = vec_bit tdiv i).
  { unfold vec_bit. rewrite (byte_at_lookup _ _ _ Hbd).
    apply shr_and_1_testbit. lia. }
  unfold put_bit, bind.
  rewrite Z.quot_div_nonneg, Z.rem_mod_nonneg by lia.
  rewrite (array_load_run _ _ bm tmsv) by (try done; div_lia).
  rewrite (array_load_run _ _ bd tdiv) by (try done; div_lia).
  rewrite Hvm, Hvd. unfold sv_jtag_step. cbv zeta. fold r.
  destruct (r.1) eqn:Hr1.
  - rewrite (array_load_run _ _ bo v) by (try done; div_lia).
    rewrite (array_store_run _ _ _ v) by (try done; div_lia).
    unfold or_bit_at. rewrite (byte_at_lookup _ _ _ Hbo). reflexivity.
  - unfold ret, with_arrays, with_sim. simpl.
    rewrite (insert_id _ _ _ Htdo). reflexivity.
Qed.

Lemma or_bit_at_length (v : list Z) (i : Z) : length (or_bit_at v i) = length v.
Proof. unfold or_bit_at. apply length_insert. Qed.

Lemma or_bit_at_spec (v : list Z) (i j : Z) :
  0 ≤ i → i < 8 * Z.of_nat (length v) → 0 ≤ j →
  vec_bit (or_bit_at v i) j = vec_bit v j || (j =? i).
Proof. intros Hi Hlen Hj. apply vec_bit_or; [done|done|div_lia]. Qed.

Lemma or_bit_at_byte (v : list Z) (i : Z) (m : nat) :
  is_uint8 (byte_at v m) → is_uint8 (byte_at (or_bit_at v i) m).
Proof.
  intros Hm. unfold or_bit_at.
  destruct (decide (Z.to_nat (i / 8) = m)) as [<-|Hne].
  - destruct (decide (Z.to_nat (i / 8) < length v)%nat) as [Hlt|Hge].
    + rewrite byte_at_insert_eq by done. apply to_uint8_range.
    + by rewrite list_insert_ge by lia.
  - by rewrite byte_at_insert_ne.
Qed.

Lemma or_bit_at_other (v : list Z) (i : Z) (m : nat) :
  0 ≤ i → i < 8 * Z.of_nat m → or_bit_at v i !! m = v !! m.
Proof.
  intros Hi Hm. unfold or_bit_at. apply list_lookup_insert_ne. div_lia.
Qed.

Lemma shifted_0 (cbit : Z) (tmsv tdiv v0 : list Z) :
  shifted cbit tmsv tdiv v0 0 [] v0.
Proof.
  unfold shifted. split; [done|]. split; [done|].
  split; [intros i Hi; simpl in Hi; lia|]. done.
Qed.

Lemma shifted_S (cbit : Z) (tmsv tdiv v0 : list Z) (k : nat)
    (evs : list SvEvent) (v : list Z) (r : bool) :
  Z.of_nat k < 8 * Z.of_nat (length v0) →
  shifted cbit tmsv tdiv v0 k evs v →
  shifted cbit tmsv tdiv v0 (S k)
    (evs ++ [EvJtagStep (vec_bit tmsv (Z.of_nat k)) (vec_bit tdiv (Z.of_nat k))
               (Z.of_nat k =? cbit - 1) r])
    (if r then or_bit_at v (Z.of_nat k) else v).
Proof.
  intros Hk (Hlen & Hv & Hdone & Hrest & Hrange & Hfar).
  unfold shifted. split; [|split; [|split; [|split; [|split]]]].
  - rewrite length_app. simpl. lia.
  - destruct r; [by rewrite or_bit_at_length|done].
  - intros i Hi. destruct (decide (i = Z.of_nat k)) as [->|Hne].
    + exists r. split.
      * rewrite Nat2Z.id, <- Hlen. apply list_lookup_middle. done.
      * destruct r.
        -- rewrite or_bit_at_spec by lia. rewrite Z.eqb_refl.
           by rewrite !orb_true_r.
        -- rewrite orb_false_r. apply Hrest. lia.
    + destruct (Hdone i) as (r' & Hev & Hbit); [lia|].
      exists r'. split.
      * rewrite lookup_app_l by lia. done.
      * destruct r; [|done]. rewrite or_bit_at_spec by lia.
        rewrite (proj2 (Z.eqb_neq i (Z.of_nat k))) by done.
        by rewrite orb_false_r.
  - intros j Hj. destruct r; [|apply Hrest; lia].
    rewrite or_bit_at_spec by lia.
    rewrite (proj2 (Z.eqb_neq j (Z.of_nat k))) by lia.
    rewrite orb_false_r. apply Hrest. lia.
  - intros m Hm. destruct r; [|by apply Hrange].
    apply or_bit_at_byte. by apply Hrange.
  - intros m Hm. destruct r; [|apply Hfar; lia].
    rewrite or_bit_at_other by lia. apply Hfar. lia.
Qed.

(** The bit loop of [djtg_put_tms_tdi_bits], for [n] bits, when the output
    array is neither of the input arrays. *)
Lemma put_loop_run (tms_data tdi_data tdo_data cbit : Z) (n : nat)
    (tmsv tdiv v0 : list Z) (w : World) :
  open_arrays w !! tms_data = Some tmsv →
  open_arrays w !! tdi_data = Some tdiv →
  open_arrays w !! tdo_data = Some v0 →
  tdo_data ≠ tms_data → tdo_data ≠ tdi_data →
  Z.of_nat n ≤ 8 * Z.of_nat (length tmsv) →
  Z.of_nat n ≤ 8 * Z.of_nat (length tdiv) →
  Z.of_nat n ≤ 8 * Z.of_nat (length v0) →
  ∃ w' evs v,
    for_from 0 n
      (λ bit_idx _, put_bit tms_data tdi_data tdo_data cbit bit_idx) tt w
    = Some (tt, w') ∧
    device_registry w' = device_registry w ∧ gen w' = gen w ∧
    sv_trace w' = sv_trace w ++ evs ∧
    open_arrays w' = <[tdo_data := v]> (open_arrays w) ∧
    shifted cbit tmsv tdiv v0 n evs v.
Proof.
  intros Htms Htdi Htdo Hne1 Hne2 Hl1 Hl2 Hl3.
  destruct (for_from_invariant
    (λ k (_ : unit) u,
       device_registry u = device_registry w ∧ gen u = gen w ∧
       ∃ evs v,
         sv_trace u = sv_trace w ++ evs ∧
         open_arrays u = <[tdo_data := v]> (open_arrays w) ∧
         shifted cbit tmsv tdiv v0 k evs v)
    (λ bit_idx _, put_bit tms_data tdi_data tdo_data cbit bit_idx)
    n 0 tt w) as ([] & w' & Hrun & Hr & Hg & evs & v & Ht & Ha & Hs).
  - split; [done|]. split; [done|]. exists [], v0.
    split; [by rewrite app_nil_r|]. split; [by rewrite insert_id|].
    apply shifted_0.
  - intros k [] u Hk (Hr & Hg & evs & v & Ht & Ha & Hs).
    assert (Hvlen : length v = length v0) by apply Hs.
    eexists tt, _. split.
    + rewrite Z.add_0_l.
      apply (put_bit_run _ _ _ _ _ tmsv tdiv v); try lia.
      * by rewrite Ha, lookup_insert_ne.
      * by rewrite Ha, lookup_insert_ne.
      * by rewrite Ha, lookup_insert_eq.
    + simpl. split; [done|]. split; [done|].
      eexists _, _. split; [by rewrite Ht, <- app_assoc|].
      split; [by rewrite Ha, insert_insert_eq|].
      apply shifted_S; [lia|done].
  - exists w', evs, v. done.
Qed.

Lemma cleared_length (n : nat) (v : list Z) :
  (n ≤ length v)%nat → length (cleared n v) = length v.
Proof.
  intros Hn. unfold cleared. rewrite length_app, length_replicate, length_drop. lia.
Qed.

Lemma cleared_byte_low (n m : nat) (v : list Z) :
  (m < n)%nat → byte_at (cleared n v) m = 0.
Proof.
  intros Hm. unfold cleared, byte_at.
  rewrite lookup_app_l by (rewrite length_replicate; lia).
  by rewrite lookup_replicate_2.
Qed.

Lemma cleared_lookup_high (n m : nat) (v : list Z) :
  (n ≤ m)%nat → cleared n v !! m = v !! m.
Proof.
  intros Hm. unfold cleared.
  rewrite lookup_app_r by (rewrite length_replicate; lia).
  rewrite length_replicate, lookup_drop. f_equal. lia.
Qed.

Lemma cleared_bit (n : nat) (v : list Z) (j : Z) :
  0 ≤ j < 8 * Z.of_nat n → vec_bit (cleared n v) j = false.
Proof.
  intros Hj. unfold vec_bit. rewrite cleared_byte_low by div_lia.
  apply Z.testbit_0_l.
Qed.

(** A successful run of [djtg_put_tms_tdi_bits], in full. *)
Lemma put_bits_run (hif tms_data tdi_data tdo_data cbit : Z) (overlap : bool)
    (dev : JtagDevice) (tmsv tdiv tdov : list Z) (w : World) :
  device_registry w !! hif = Some dev → enabled dev = true →
  simulate_timeout (Z.quot cbit 1000) (timeout_ms dev) = false →
  is_int (cbit + 7) →
  open_arrays w !! tms_data = Some tmsv →
  open_arrays w !! tdi_data = Some tdiv →
  open_arrays w !! tdo_data = Some tdov →
  tdo_data ≠ tms_data → tdo_data ≠ tdi_data →
  cbit ≤ 8 * Z.of_nat (length tmsv) →
  cbit ≤ 8 * Z.of_nat (length tdiv) →
  cbit ≤ 8 * Z.of_nat (length tdov) →
  ∃ w' evs v,
    djtg_put_tms_tdi_bits hif tms_data tdi_data tdo_data cbit overlap w
    = Some (TRUE, w') ∧
    device_registry w' = device_registry w ∧ gen w' = gen w ∧
    sv_trace w' = sv_trace w ++ evs ∧
    open_arrays w' = <[tdo_data := v]> (open_arrays w) ∧
    shifted cbit tmsv tdiv
      (cleared (Z.to_nat (Z.quot (cbit + 7) 8)) tdov) (Z.to_nat cbit) evs v.
Proof.
  intros Hreg Hen Hto Hint Htms Htdi Htdo Hne1 Hne2 Hl1 Hl2 Hl3.
  set (bc := Z.to_nat (Z.quot (cbit + 7) 8)).
  assert (Hbc : (bc ≤ length tdov)%nat).
  { unfold bc. destruct (Z.le_gt_cases 0 (cbit + 7)) as [Hp|Hn].
    - rewrite Z.quot_div_nonneg by lia. div_lia.
    - assert (Z.quot (cbit + 7) 8 ≤ 0) by (apply Z.quot_le_upper_bound; lia).
      lia. }
  destruct (clear_loop_run tdo_data bc tdov w Htdo Hbc)
    as (w1 & Hrun1 & Hr1 & Hg1 & Hs1 & Ht1 & Ha1).
  destruct (put_loop_run tms_data tdi_data tdo_data cbit (Z.to_nat cbit)
              tmsv tdiv (cleared bc tdov) w1)
    as (w2 & evs & v & Hrun2 & Hr2 & Hg2 & Ht2 & Ha2 & Hsh).
  - by rewrite Ha1, lookup_insert_ne.
  - by rewrite Ha1, lookup_insert_ne.
  - by rewrite Ha1, lookup_insert_eq.
  - done.
  - done.
  - lia.
  - lia.
  - rewrite cleared_length by done. lia.
  - exists w2, evs, v.
    split; [|split; [congruence|split; [congruence|split; [congruence|split]]]].
    + unfold djtg_put_tms_tdi_bits, bind, registry_find.
      rewrite Hreg, Hen. simpl. rewrite Hto.
      unfold int_add. rewrite decide_True by done. unfold ret at 1.
      unfold sv_get_array_ptr. rewrite Htdo.
      unfold for_int. fold bc. rewrite Hrun1, Hrun2. reflexivity.
    + by rewrite Ha2, Ha1, insert_insert_eq.
    + done.
Qed.

Lemma registry_ok_empty : registry_ok ∅.
Proof. intros h d Hd. by rewrite lookup_empty in Hd. Qed.

Lemma registry_ok_alter (f : JtagDevice → JtagDevice) (h : Z)
    (reg : gmap Z JtagDevice) :
  (∀ d, timeout_ms (f d) = timeout_ms d ∧ device_id (f d) = device_id d) →
  registry_ok reg → registry_ok (alter f h reg).
Proof.
  intros Hf Hok h' d' Hd'. destruct (decide (h = h')) as [<-|Hne].
  - rewrite lookup_alter_eq in Hd'.
    destruct (reg !! h) as [d|] eqn:Hd; [|done].
    injection Hd' as <-. destruct (Hf d) as [-> ->]. by eapply Hok.
  - rewrite lookup_alter_ne in Hd' by done. by eapply Hok.
Qed.

Lemma for_from_preserves {A} (P : World → Prop) (body : Z → A → M A)
    (count : nat) (i : Z) (acc a' : A) (w w' : World) :
  (∀ j a u b u', body j a u = Some (b, u') → P u → P u') →
  for_from i count body acc w = Some (a', w') → P w → P w'.
Proof.
  intros Hbody. revert i acc w.
  induction count as [|c IH]; intros i acc w; simpl.
  - by intros [= <- <-].
  - unfold bind. destruct (body i acc w) as [[a1 w1]|] eqn:Hb; [|done].
    intros Hrun Hw. eapply IH; [done|]. by eapply Hbody.
Qed.

Lemma array_load_world (h i b : Z) (w w' : World) :
  array_load h i w = Some (b, w') → w' = w.
Proof.
  unfold array_load. destruct (open_arrays w !! h); [|done].
  destruct (decide (0 ≤ i)); [|done].
  destruct (_ !! _); [|done]. by intros [= _ <-].
Qed.

Lemma array_store_registry (h i b : Z) (w w' : World) :
  array_store h i b w = Some (tt, w') → device_registry w' = device_registry w.
Proof.
  unfold array_store. destruct (open_arrays w !! h); [|done].
  destruct (decide _); [|done]. by intros [= <-].
Qed.

Lemma put_bit_registry (tms_data tdi_data tdo_data cbit i : Z) (w w' : World) :
  put_bit tms_data tdi_data tdo_data cbit i w = Some (tt, w') →
  device_registry w' = device_registry w.
Proof.
  unfold put_bit, bind.
  destruct (array_load tms_data _ w) as [[bm u1]|] eqn:H1; [|done].
  apply array_load_world in H1 as ->.
  destruct (array_load tdi_data _ w) as [[bd u2]|] eqn:H2; [|done].
  apply array_load_world in H2 as ->.
  unfold sv_jtag_step. cbv zeta.
  destruct (tb_jtag_step _ _ _ _).1.
  - destruct (array_load tdo_data _ _) as [[bo u3]|] eqn:H3; [|done].
    apply array_load_world in H3 as ->.
    intros Hst. by apply array_store_registry in Hst.
  - by intros [= <-].
Qed.

(** Bulk shifting never changes the registry, however the run ends. *)
Lemma put_bits_registry (hif tms_data tdi_data tdo_data cbit r : Z)
    (overlap : bool) (w w' : World) :
  djtg_put_tms_tdi_bits hif tms_data tdi_data tdo_data cbit overlap w
  = Some (r, w') →
  device_registry w' = device_registry w.
Proof.
  unfold djtg_put_tms_tdi_bits, bind, registry_find, ret.
  destruct (device_registry w !! hif) as [dev|]; [|by intros [= _ <-]].
  destruct (negb (enabled dev)); [by intros [= _ <-]|].
  destruct (simulate_timeout _ _); [by intros [= _ <-]|].
  unfold int_add. destruct (decide _); [|done]. unfold ret, for_int.
  unfold sv_get_array_ptr. destruct (open_arrays w !! tdo_data); [|done].
  destruct (for_from 0 _ _ tt w) as [[[] w1]|] eqn:Hc; [|done].
  destruct (for_from 0 _ _ tt w1) as [[[] w2]|] eqn:Hp; [|done].
  intros [= _ <-].
  transitivity (device_registry w1).
  - eapply (for_from_preserves (λ u, device_registry u = device_registry w1));
      [|exact Hp|done].
    intros j [] u [] u' Hb Hu. rewrite <- Hu. by eapply put_bit_registry.
  - eapply (for_from_preserves (λ u, device_registry u = device_registry w));
      [|exact Hc|done].
    intros j [] u [] u' Hb Hu. rewrite <- Hu. by eapply array_store_registry.
Qed.

(** Every API call keeps the registry within [registry_ok]. *)
Lemma run_call_registry_ok (c : ApiCall) (r : Z) (w w' : World) :
  run_call c w = Some (r, w') →
  registry_ok (device_registry w) → registry_ok (device_registry w').
Proof.
  intros Hrun Hok. destruct c; simpl in Hrun.
  - rewrite enable_run in Hrun. destruct (Qlt_le_dec _ _).
    + by injection Hrun as _ <-.
    + injection Hrun as _ <-. simpl. intros h d Hd.
      destruct (decide (hif = h)) as [<-|Hne].
      * rewrite lookup_insert_eq in Hd. by injection Hd as <-.
      * rewrite lookup_insert_ne in Hd by done. by eapply Hok.
  - unfold djtg_disable, bind, registry_find, registry_modify, ret in Hrun.
    destruct (device_registry w !! hif) as [dev|]; [|by injection Hrun as _ <-].
    destruct (negb (enabled dev)); injection Hrun as _ <-; [done|].
    simpl. by apply registry_ok_alter.
  - by rewrite (put_bits_registry _ _ _ _ _ _ _ _ _ Hrun).
  - unfold djtg_get_tms_tdi_tdo_bits in Hrun.
    by rewrite (put_bits_registry _ _ _ _ _ _ _ _ _ Hrun).
  - unfold djtg_set_tms_tdi_tck, bind, registry_find, registry_modify,
      drive_jtag_pins, sv_drive_jtag_pins, ret in Hrun.
    destruct (device_registry w !! hif) as [dev|]; [|by injection Hrun as _ <-].
    destruct (negb (enabled dev)); injection Hrun as _ <-; [done|].
    simpl. by apply registry_ok_alter.
  - unfold djtg_get_tms_tdi_tdo_tck, bind, registry_find, registry_modify,
      read_jtag_pins, sv_get_tdo, ret in Hrun.
    destruct (device_registry w !! hif) as [dev|]; [|by injection Hrun as _ <-].
    destruct (negb (enabled dev)); injection Hrun as _ <-; [done|].
    simpl. by apply registry_ok_alter.
  - unfold djtg_set_speed, bind, registry_find, registry_modify, ret in Hrun.
    destruct (device_registry w !! hif) as [dev|]; [|by injection Hrun as _ <-].
    destruct (negb (enabled dev)); injection Hrun as _ <-; [done|].
    simpl. by apply registry_ok_alter.
  - unfold djtg_get_speed, bind, registry_find, ret in Hrun.
    destruct (device_registry w !! hif) as [dev|]; [|by injection Hrun as _ <-].
    by destruct (negb (enabled dev)); injection Hrun as _ <-.
Qed.

(** Whatever the client calls, the registry stays within [registry_ok]. *)
Lemma run_calls_registry_ok (cs : list ApiCall) (u w : World) :
  run_calls cs u = Some w →
  registry_ok (device_registry u) → registry_ok (device_registry w).
Proof.
  revert u. induction cs as [|c cs IH]; intros u; simpl.
  - by intros [= <-].
  - destruct (run_call c u) as [[r u']|] eqn:Hc; [|done].
    intros Hrun Hok. apply (IH u' Hrun). by eapply run_call_registry_ok.
Qed.

Lemma byte_count_floor (cbit : Z) :
  Z.of_nat (Z.to_nat (Z.quot (cbit + 7) 8)) = Z.max 0 ((cbit + 7) / 8).
Proof.
  destruct (Z.le_gt_cases 0 (cbit + 7)) as [Hp|Hn].
  - rewrite Z.quot_div_nonneg by lia. div_lia.
  - assert (Z.quot (cbit + 7) 8 ≤ 0) by (apply Z.quot_le_upper_bound; lia).
    div_lia.
Qed.

Lemma timeout_pass_bound (cbit timeout : Z) :
  simulate_timeout (Z.quot cbit 1000) timeout = false → cbit < 1000 * (timeout + 1) ∨ cbit < 0.
Proof.
  unfold simulate_timeout. intros Hto.
  destruct (Z.le_gt_cases 0 cbit) as [Hp|Hn]; [left|right; lia].
  rewrite Z.quot_div_nonneg in Hto by lia.
  destruct (Z.gtb_spec (cbit / 1000) timeout); [done|]. div_lia.
Qed.


Lemma put_bits_defined_result (hif tms_data tdi_data tdo_data cbit r : Z)
    (overlap : bool) (dev : JtagDevice) (w w' : World) :
  device_registry w !! hif = Some dev → enabled dev = true →
  djtg_put_tms_tdi_bits hif tms_data tdi_data tdo_data cbit overlap w
  = Some (r, w') →
  r = if simulate_timeout (Z.quot cbit 1000) (timeout_ms dev) then FALSE else TRUE.
Proof.
  intros Hreg Hen. unfold djtg_put_tms_tdi_bits, bind, registry_find.
  rewrite Hreg, Hen. simpl.
  destruct (simulate_timeout _ _); [by intros [= <- _]|].
  unfold int_add. destruct (decide _); [|done]. unfold ret at 1.
  unfold sv_get_array_ptr. destruct (open_arrays w !! tdo_data); [|done].
  destruct (for_int _ _ tt w) as [[[] w1]|]; [|done].
  destruct (for_int _ _ tt w1) as [[[] w2]|]; [|done].
  by intros [= <- _].
Qed.

(** C6: on an enabled handle the bulk shift fails by timeout exactly when
    [cbit / 1000] (truncating) exceeds the handle's [timeout_ms]; it then
    returns with the world as it was: no step call, no write to any array,
    no change of the registry. *)
Theorem timeout_is_preflight (hif tms_data tdi_data tdo_data cbit : Z)
    (overlap : bool) (dev : JtagDevice) (w : World)
    (Hreg : device_registry w !! hif = Some dev) (Hen : enabled dev = true) :
  (Z.quot cbit 1000 > timeout_ms dev →
   djtg_put_tms_tdi_bits hif tms_data tdi_data tdo_data cbit overlap w
   = Some (FALSE, w)) ∧
  (∀ r w',
     djtg_put_tms_tdi_bits hif tms_data tdi_data tdo_data cbit overlap w
     = Some (r, w') →
     (r = FALSE ↔ Z.quot cbit 1000 > timeout_ms dev)) ∧
  (∀ tmsv tdiv tdov,
     ¬ Z.quot cbit 1000 > timeout_ms dev → is_int (cbit + 7) →
     open_arrays w !! tms_data = Some tmsv →
     open_arrays w !! tdi_data = Some tdiv →
     open_arrays w !! tdo_data = Some tdov →
     tdo_data ≠ tms_data → tdo_data ≠ tdi_data →
     cbit ≤ 8 * Z.of_nat (length tmsv) →
     cbit ≤ 8 * Z.of_nat (length tdiv) →
     cbit ≤ 8 * Z.of_nat (length tdov) →
     ∃ w',
       djtg_put_tms_tdi_bits hif tms_data tdi_data tdo_data cbit overlap w
       = Some (TRUE, w')).
Proof.
  split; [|split].
  - intros Hgt. unfold djtg_put_tms_tdi_bits, bind, registry_find.
    rewrite Hreg, Hen. simpl. unfold simulate_timeout.
    destruct (Z.gtb_spec (Z.quot cbit 1000) (timeout_ms dev)); [done|lia].
  - intros r w' Hrun.
    rewrite (put_bits_defined_result _ _ _ _ _ _ _ _ _ _ Hreg Hen Hrun).
    unfold simulate_timeout.
    destruct (Z.gtb_spec (Z.quot cbit 1000) (timeout_ms dev)).
    + split; [lia|done].
    + split; [done|lia].
  - intros tmsv tdiv tdov Hle Hint Htms Htdi Htdo Hne1 Hne2 Hl1 Hl2 Hl3.
    destruct (put_bits_run hif tms_data tdi_data tdo_data cbit overlap dev
                tmsv tdiv tdov w) as (w' & _ & _ & Hrun & _); try done.
    + unfold simulate_timeout.
      destruct (Z.gtb_spec (Z.quot cbit 1000) (timeout_ms dev)); [lia|done].
    + by exists w'.
Qed.

End Shifts.

(** ** MSB-first word shifting *)

Section WordShift.
Context `{TB : SvTestbench} `{RE : RandomEngine}.

Lemma to_uint32_shl_1 (q : Z) : 0 ≤ q < 32 → to_uint32 (Z.shiftl 1 q) = Z.shiftl 1 q.
Proof.
  intros Hq. unfold to_uint32. rewrite Z.shiftl_1_l.
  change 4294967296 with (2 ^ 32). apply Z.mod_small.
  split; [apply Z.pow_nonneg; lia|apply Z.pow_lt_mono_r; lia].
Qed.

(** One iteration of the loop of [shift_data_register_msb_first]. *)
Lemma msb_step_run (data bit_count i result : Z) (u : World) :
  0 ≤ i < bit_count → bit_count ≤ 32 →
  let q := bit_count - 1 - i in
  let r := tb_jtag_step (i =? bit_count - 1) (Z.testbit data q)
             (i =? bit_count - 1) (sv_sim u) in
  (bit_val <- u32_bit data (bit_count - 1 - i) ;;
   let is_last := i =? bit_count - 1 in
   tdo_bit <- sv_jtag_step is_last bit_val is_last ;;
   if (tdo_bit : bool) then
     one_shl <- int_shl_1 (bit_count - 1 - i) ;;
     ret (Z.lor result (to_uint32 one_shl))
   else ret result) u
  = Some (if r.1 then Z.lor result (Z.shiftl 1 q) else result,
          with_sim r.2
            (EvJtagStep (i =? bit_count - 1) (Z.testbit data q)
               (i =? bit_count - 1) r.1) u).
Proof.
  intros Hi Hn q r. unfold bind, u32_bit, int_shl_1.
  rewrite decide_True by lia. unfold ret at 1.
  rewrite shr_and_1_testbit by lia. unfold sv_jtag_step. cbv zeta.
  fold q. fold r. destruct (r.1); [|reflexivity].
  rewrite decide_True by lia. unfold ret.
  rewrite to_uint32_shl_1 by (unfold q; lia). reflexivity.
Qed.

Lemma msb_shifted_S (data bit_count : Z) (k : nat) (evs : list SvEvent)
    (result : Z) (r : bool) :
  Z.of_nat k < bit_count →
  msb_shifted data bit_count k evs result →
  msb_shifted data bit_count (S k)
    (evs ++ [EvJtagStep (Z.of_nat k =? bit_count - 1)
               (Z.testbit data (bit_count - 1 - Z.of_nat k))
               (Z.of_nat k =? bit_count - 1) r])
    (if r then Z.lor result (Z.shiftl 1 (bit_count - 1 - Z.of_nat k)) else result).
Proof.
  intros Hk (Hlen & Hpos & Hdone & Hzero).
  set (q := bit_count - 1 - Z.of_nat k).
  split; [|split; [|split]].
  - rewrite length_app. simpl. lia.
  - destruct r; [|done]. apply Z.lor_nonneg. split; [done|].
    apply Z.shiftl_nonneg. lia.
  - intros i Hi. destruct (decide (i = Z.of_nat k)) as [->|Hne].
    + exists r. split.
      * rewrite Nat2Z.id. apply list_lookup_middle. lia.
      * fold q. destruct r.
        -- rewrite or_shl_testbit by (unfold q; lia).
           by rewrite Z.eqb_refl, orb_true_r.
        -- apply Hzero. unfold q. lia.
    + destruct (Hdone i) as (tdo & Hev & Hbit); [lia|].
      exists tdo. split; [by rewrite lookup_app_l by lia|].
      destruct r; [|done]. rewrite or_shl_testbit by (unfold q; lia).
      rewrite (proj2 (Z.eqb_neq _ q)) by (unfold q; lia).
      by rewrite orb_false_r.
  - intros p Hp. destruct r; [|apply Hzero; lia].
    rewrite or_shl_testbit by (unfold q; lia).
    rewrite (proj2 (Z.eqb_neq p q)) by (unfold q; lia).
    rewrite orb_false_r. apply Hzero. lia.
Qed.

Lemma msb_shift_run (hif data bit_count : Z) (w : World) :
  bit_count ≤ 32 →
  ∃ w' evs result,
    shift_data_register_msb_first hif data bit_count w = Some (result, w') ∧
    device_registry w' = device_registry w ∧ gen w' = gen w ∧
    open_arrays w' = open_arrays w ∧
    sv_trace w' = sv_trace w ++ evs ∧
    msb_shifted data bit_count (Z.to_nat bit_count) evs result.
Proof.
  intros Hn. unfold shift_data_register_msb_first, for_int.
  destruct (for_from_invariant
    (λ k result u,
       device_registry u = device_registry w ∧ gen u = gen w ∧
       open_arrays u = open_arrays w ∧
       ∃ evs, sv_trace u = sv_trace w ++ evs ∧
              msb_shifted data bit_count k evs result)
    (λ i result,
       bit_val <- u32_bit data (bit_count - 1 - i) ;;
       let is_last := i =? bit_count - 1 in
       tdo_bit <- sv_jtag_step is_last bit_val is_last ;;
       if (tdo_bit : bool) then
         one_shl <- int_shl_1 (bit_count - 1 - i) ;;
         ret (Z.lor result (to_uint32 one_shl))
       else ret result)
    (Z.to_nat bit_count) 0 0 w)
    as (result & w' & Hrun & Hr & Hg & Ha & evs & Ht & Hsh).
  - split; [done|]. split; [done|]. split; [done|]. exists [].
    split; [by rewrite app_nil_r|]. split; [done|]. split; [done|].
    split; [intros i Hi; simpl in Hi; lia|]. intros p _. apply Z.testbit_0_l.
  - intros k result u Hk (Hr & Hg & Ha & evs & Ht & Hsh).
    rewrite Z.add_0_l. eexists _, _. split; [apply msb_step_run; lia|].
    simpl. split; [done|]. split; [done|]. split; [done|].
    eexists. split; [by rewrite Ht, <- app_assoc|].
    apply msb_shifted_S; [lia|done].
  - exists w', evs, result. done.
Qed.

(** C9: [shift_data_register_msb_first] makes one step call per bit, call
    [i] driving TDI with bit [bit_count - 1 - i] of [data], TMS and is_last
    high on the last call only, and puts the TDO of call [i] into bit
    [bit_count - 1 - i] of the result, whose other bits are 0. Shifting 0xA
    over 4 bits shows the simulator TDI 1, 0, 1, 0. It returns 0xA against a
    simulator that answers each call with the TDI of that call. Against a
    loopback that answers with the TDI of the call before, out of a one-bit
    register, it returns 0x5 when the register starts at 0 and 0xD when it
    starts at 1. *)
Theorem shift_msb_first (hif data bit_count : Z) (w : World)
    (Hbits : bit_count ≤ 32) :
  (∃ w' evs result,
     shift_data_register_msb_first hif data bit_count w = Some (result, w') ∧
     sv_trace w' = sv_trace w ++ evs ∧
     length evs = Z.to_nat bit_count ∧
     (∀ i, 0 ≤ i < bit_count →
        ∃ tdo,
          evs !! Z.to_nat i
          = Some (EvJtagStep (i =? bit_count - 1)
                    (Z.testbit data (bit_count - 1 - i))
                    (i =? bit_count - 1) tdo) ∧
          Z.testbit result (bit_count - 1 - i) = tdo) ∧
     0 ≤ result ∧
     (∀ p, bit_count ≤ p → Z.testbit result p = false) ∧
     device_registry w' = device_registry w ∧
     open_arrays w' = open_arrays w) ∧
  ((∀ tms tdi is_last s, (tb_jtag_step tms tdi is_last s).1 = tdi) →
   ∃ w' evs,
     shift_data_register_msb_first hif 0xA 4 w = Some (0xA, w') ∧
     sv_trace w' = sv_trace w ++ evs ∧
     call_of <$> evs =
       [JtagStep false true false; JtagStep false false false;
        JtagStep false true false; JtagStep true false true]) ∧
  (∀ reg : sim → bool,
     (∀ tms tdi is_last s,
        (tb_jtag_step tms tdi is_last s).1 = reg s ∧
        reg (tb_jtag_step tms tdi is_last s).2 = tdi) →
     ∃ w' evs,
       shift_data_register_msb_first hif 0xA 4 w
       = Some (if reg (sv_sim w) then 0xD else 0x5, w') ∧
       sv_trace w' = sv_trace w ++ evs ∧
       call_of <$> evs =
         [JtagStep false true false; JtagStep false false false;
          JtagStep false true false; JtagStep true false true]).
Proof.
  split; [|split].
  - destruct (msb_shift_run hif data bit_count w Hbits)
      as (w' & evs & result & Hrun & Hr & Hg & Ha & Ht & Hsh).
    destruct Hsh as (Hlen & Hpos & Hdone & Hzero).
    exists w', evs, result. repeat (split; [done|]).
    split; [intros i Hi; apply Hdone; lia|].
    split; [done|]. split; [|done]. intros p Hp. apply Hzero. lia.
  - intros Hloop.
    cbv -[tb_jtag_step app fmap fst snd]. rewrite !Hloop.
    eexists _, _. split; [reflexivity|].
    split; [cbn; rewrite <- !app_assoc; cbn; reflexivity|].
    cbn. rewrite ?Hloop. reflexivity.
  - intros reg Hdelay.
    assert (Hout : ∀ tms tdi is_last s,
              (tb_jtag_step tms tdi is_last s).1 = reg s)
      by (intros; apply Hdelay).
    assert (Hin : ∀ tms tdi is_last s,
              reg (tb_jtag_step tms tdi is_last s).2 = tdi)
      by (intros; apply Hdelay).
    destruct w as [rg g ar s tr]. simpl.
    destruct (reg s) eqn:Hfirst;
      repeat (cbv -[tb_jtag_step app fmap fst snd];
              rewrite ?Hout, ?Hin, ?Hfirst);
      (eexists _, _; split; [reflexivity|];
       split; [cbn; rewrite <- !app_assoc; cbn; reflexivity|];
       cbn; reflexivity).
Qed.

End WordShift.

(** ** Concrete runs *)

Lemma demo_world_ok : registry_ok (device_registry demo_world).
Proof.
  intros h d Hd. simpl in Hd.
  apply lookup_insert_Some in Hd as [[_ <-]|[_ Hd]]; [done|].
  by rewrite lookup_empty in Hd.
Qed.


Lemma enable_outcomes_witness :
  (∃ w',
     djtg_enable 1
       (with_registry (<[1 := set_clock_freq 2000000 enabled_defaults]> ∅)
          demo_world) = Some (TRUE, w') ∧
     device_registry w' !! 1 = Some enabled_defaults) ∧
  (∃ w',
     djtg_enable 1 (@fresh_world loopback_tb (const_rng 0) tt tt)
     = Some (FALSE, w') ∧
     device_registry w' = ∅).
Proof.
  split.
  - destruct (enable_outcomes 1
                (with_registry (<[1 := set_clock_freq 2000000 enabled_defaults]> ∅)
                   demo_world))
      as (r & w' & Hrun & _ & _ & _ & _ &
          [(Hlt & _)|(_ & -> & _ & Hdev & _)]).
    + vm_compute in Hlt. discriminate.
    + exists w'. split; [exact Hrun|exact Hdev].
  - destruct (enable_outcomes 1 (@fresh_world loopback_tb (const_rng 0) tt tt))
      as (r & w' & Hrun & _ & _ & _ & _ &
          [(_ & -> & Hreg)|(Hle & _)]).
    + exists w'. split; [exact Hrun|exact Hreg].
    + exfalso. apply Hle. reflexivity.
Defined.

Lemma set_speed_clamps_witness :
  fst <$> djtg_set_speed 1 100000000 0 demo_world = Some (TRUE, 50000000) ∧
  fst <$> djtg_set_speed 1 10 0 demo_world = Some (TRUE, 1000) ∧
  fst <$> djtg_set_speed 1 2000000 0 demo_world = Some (TRUE, 2000000).
Proof.
  exact (proj2 (set_speed_clamps 1 0 0 0 demo_world enabled_defaults
                  eq_refl eq_refl)).
Defined.

Lemma inactive_handle_fails_witness :
  device_registry demo_world !! 7 = None ∧ ops_fail 7 demo_world.
Proof.
  split; [reflexivity|].
  apply (inactive_handle_fails 7 demo_world). left. reflexivity.
Defined.

Lemma timeout_is_preflight_witness :
  Z.quot 2000000 1000 > timeout_ms enabled_defaults ∧
  djtg_put_tms_tdi_bits 1 10 11 12 2000000 false demo_world
  = Some (FALSE, demo_world).
Proof.
  split; [simpl; lia|].
  apply (proj1 (timeout_is_preflight 1 10 11 12 2000000 false enabled_defaults
                  demo_world eq_refl eq_refl)).
  simpl. lia.
Defined.

Lemma shift_msb_first_witness :
  (∃ w' evs,
     shift_data_register_msb_first 1 0xA 4 demo_world = Some (0xA, w') ∧
     sv_trace w' = sv_trace demo_world ++ evs ∧
     call_of <$> evs =
       [JtagStep false true false; JtagStep false false false;
        JtagStep false true false; JtagStep true false true]) ∧
  (∃ w' evs,
     shift_data_register_msb_first 1 0xA 4
       (@fresh_world delayed_loopback_tb (const_rng (1 # 2)) tt false)
     = Some (0x5, w') ∧
     sv_trace w' = [] ++ evs ∧
     call_of <$> evs =
       [JtagStep false true false; JtagStep false false false;
        JtagStep false true false; JtagStep true false true]).
Proof.
  split.
  - apply (proj1 (proj2 (shift_msb_first 1 0xA 4 demo_world ltac:(lia)))).
    reflexivity.
  - apply (proj2 (proj2 (@shift_msb_first delayed_loopback_tb (const_rng (1 # 2))
                           1 0xA 4
                           (@fresh_world delayed_loopback_tb (const_rng (1 # 2))
                              tt false) ltac:(lia)))
             (λ s, s)).
    intros tms tdi is_last s. split; reflexivity.
Defined.

(** C9, counterexample: against the loopback the spec describes, TDO being
    the TDI of the call before, shifting 0xA over 4 bits never returns 0xA:
    it returns 0x5 when the register starts at 0 and 0xD when it starts
    at 1. *)
Lemma shift_msb_first_loopback_counterexample :
  (∀ tms tdi is_last s,
     @tb_jtag_step delayed_loopback_tb tms tdi is_last s = (s, tdi)) ∧
  fst <$> shift_data_register_msb_first 1 0xA 4
            (@fresh_world delayed_loopback_tb (const_rng (1 # 2)) tt false)
  = Some 0x5 ∧
  fst <$> shift_data_register_msb_first 1 0xA 4
            (@fresh_world delayed_loopback_tb (const_rng (1 # 2)) tt true)
  = Some 0xD ∧
  ¬ ∃ s0 : bool,
      fst <$> shift_data_register_msb_first 1 0xA 4
                (@fresh_world delayed_loopback_tb (const_rng (1 # 2)) tt s0)
      = Some 0xA.
Proof.
  split; [reflexivity|]. split; [vm_compute; reflexivity|].
  split; [vm_compute; reflexivity|].
  intros [[] Hrun]; vm_compute in Hrun; discriminate.
Qed.


(** The run behind the witness of the bulk shift, spelled out: ten step
    calls, and the loopback puts the ten TDI bits into the cleared output;
    the third output byte is not touched. *)
Example put_bits_demo :
  (λ r, (r.1, open_arrays r.2 !! 12, call_of <$> sv_trace r.2)) <$>
    djtg_put_tms_tdi_bits 1 10 11 12 10 false demo_world
  = Some (TRUE, Some [0xC6; 0x01; 0xFF],
          [JtagStep true false false; JtagStep false true false;
           JtagStep true true false; JtagStep false false false;
           JtagStep true false false; JtagStep true false false;
           JtagStep false true false; JtagStep false true false;
           JtagStep false true false; JtagStep true false true]).
Proof. vm_compute. reflexivity. Qed.

(** When the output array is also the TDI array, the clearing loop wipes the
    TDI bits before they are read: every call then carries TDI 0. *)
Example put_bits_aliased :
  (λ r, (r.1, call_of <$> sv_trace r.2)) <$>
    djtg_put_tms_tdi_bits 1 10 11 11 4 false demo_world
  = Some (TRUE,
          [JtagStep true false false; JtagStep false false false;
           JtagStep true false false; JtagStep false false true]).
Proof. vm_compute. reflexivity. Qed.

(** An array too short for the bit count is an out-of-bounds access. *)
Example put_bits_out_of_bounds :
  djtg_put_tms_tdi_bits 1 10 11 12 17 false demo_world = None.
Proof. vm_compute. reflexivity. Qed.

(** With the TDO of each edge being the TDI of the edge before, the same
    shift returns 0x5. *)
Example shift_msb_first_delayed :
  fst <$> shift_data_register_msb_first 1 0xA 4
            (@fresh_world delayed_loopback_tb (const_rng (1 # 2)) tt false)
  = Some 0x5.
Proof. vm_compute. reflexivity. Qed.

(** A shift count of 32 or more is undefined. *)
Example shift_msb_first_33 :
  shift_data_register_msb_first 1 0 33 demo_world = None.
Proof. vm_compute. reflexivity. Qed.

(** Re-enabling forgets the configured frequency. *)
Example reenable_resets_speed :
  fst <$> (_ <- djtg_set_speed 1 2000000 0 ;; _ <- djtg_enable 1 ;;
           djtg_get_speed 1 0) demo_world
  = Some (TRUE, 1000000).
Proof. vm_compute. reflexivity. Qed.

(** The simulator's answers do not steer the navigation: a scripted
    simulator that answers 1 sixteen times sees the same calls. *)
Example tap_sequence_scripted :
  (λ r, call_of <$> sv_trace r.2) <$>
    (tap_reset ;; navigate_to_shift_ir ;; exit_to_run_test_idle ;;
     navigate_to_shift_dr_with_idle)
      (@fresh_world scripted_tb (const_rng (1 # 2)) tt (replicate 16 true))
  = Some ((λ tms, JtagStep tms false false) <$>
            [true; true; true; true; true; false; true; true; false; false;
             true; false; false; true; false; false]).
Proof. vm_compute. reflexivity. Qed.

(** * Further properties of the code *)

(** ** The codec at its edges *)

Lemma bytes_to_bits_loop_oob (bytes : list Z) (count : nat) (i : Z) (acc : list bool) :
  0 ≤ i ≤ 8 * Z.of_nat (length bytes) →
  8 * Z.of_nat (length bytes) < i + Z.of_nat count →
  bytes_to_bits_loop bytes i count acc = None.
Proof.
  revert i acc. induction count as [|c IH]; intros i acc Hi Hlen; simpl.
  - exfalso. lia.
  - destruct (bytes !! Z.to_nat (Z.quot i 8)) as [b|] eqn:Hb; [|done].
    apply lookup_lt_Some in Hb. rewrite Z.quot_div_nonneg in Hb by lia.
    apply IH; [div_lia|lia].
Qed.

(** X1: [bytes_to_bits] stays inside the vector exactly when the vector
    holds [bit_count] bits; a zero or negative count reads nothing. *)
Theorem bytes_to_bits_bounds (bytes : list Z) (bit_count : Z) :
  (is_Some (bytes_to_bits bytes bit_count) ↔
   bit_count ≤ 8 * Z.of_nat (length bytes)) ∧
  (bit_count ≤ 0 → bytes_to_bits bytes bit_count = Some []).
Proof.
  split; [split|].
  - intros [bits Hrun].
    destruct (Z.le_gt_cases bit_count (8 * Z.of_nat (length bytes))) as [|Hgt];
      [done|].
    unfold bytes_to_bits in Hrun.
    rewrite bytes_to_bits_loop_oob in Hrun by lia. done.
  - intros Hle. rewrite bytes_to_bits_spec by done. by eexists.
  - intros Hle. unfold bytes_to_bits.
    replace (Z.to_nat bit_count) with 0%nat by lia. reflexivity.
Qed.

Lemma bits_to_bytes_unpacked (bytes : list Z) (bit_count : Z) :
  0 ≤ bit_count ≤ 8 * Z.of_nat (length bytes) →
  let bits := vec_bit bytes <$> seqZ 0 bit_count in
  length (bits_to_bytes bits) = Z.to_nat ((bit_count + 7) / 8) ∧
  (∀ j, 0 ≤ j →
     vec_bit (bits_to_bytes bits) j = (j <? bit_count) && vec_bit bytes j) ∧
  (Forall is_uint8 bytes → bit_count mod 8 = 0 →
   bits_to_bytes bits = take (Z.to_nat (bit_count / 8)) bytes).
Proof.
  intros Hcount bits.
  assert (Hn : length bits = Z.to_nat bit_count)
    by (unfold bits; by rewrite length_fmap, length_seqZ).
  destruct (bits_to_bytes_spec bits) as (Hlen & Hrange & Hbits).
  assert (Hpack : ∀ j, 0 ≤ j →
            vec_bit (bits_to_bytes bits) j = (j <? bit_count) && vec_bit bytes j).
  { intros j Hj. rewrite Hbits by done. rewrite Hn.
    destruct (Z.ltb_spec j bit_count) as [Hlt|Hge].
    - rewrite bool_decide_eq_true_2 by lia. simpl.
      unfold bits. apply list_lookup_total_correct.
      rewrite list_lookup_fmap, lookup_seqZ_lt by lia.
      simpl. do 2 f_equal. lia.
    - rewrite bool_decide_eq_false_2 by lia. done. }
  split; [rewrite Hlen, Hn; div_lia|]. split; [exact Hpack|].
  intros Hbytes Hmod. apply vec_ext.
  - rewrite Hlen, Hn, length_take. div_lia.
  - done.
  - by apply Forall_take.
  - intros j Hj. rewrite Hlen, Hn in Hj. rewrite Hpack by lia.
    rewrite (proj2 (Z.ltb_lt j bit_count)) by div_lia. simpl.
    unfold vec_bit, byte_at. rewrite lookup_take_lt by div_lia. done.
Qed.

(** X2: unpacking the first [bit_count] bits and packing them again keeps
    those bits and clears the rest of the last byte; for a multiple of 8 the
    result is the first [bit_count / 8] bytes. *)
Theorem pack_unpack_prefix (bytes : list Z) (bit_count : Z)
    (Hbytes : Forall is_uint8 bytes)
    (Hcount : 0 ≤ bit_count ≤ 8 * Z.of_nat (length bytes)) :
  ∃ bits,
    bytes_to_bits bytes bit_count = Some bits ∧
    length (bits_to_bytes bits) = Z.to_nat ((bit_count + 7) / 8) ∧
    (∀ j, 0 ≤ j →
       vec_bit (bits_to_bytes bits) j = (j <? bit_count) && vec_bit bytes j) ∧
    (bit_count mod 8 = 0 →
     bits_to_bytes bits = take (Z.to_nat (bit_count / 8)) bytes).
Proof.
  destruct (bits_to_bytes_unpacked bytes bit_count Hcount) as (Hlen & Hbits & Hal).
  eexists. split; [apply bytes_to_bits_spec; lia|].
  split; [exact Hlen|]. split; [exact Hbits|]. intros Hmod. by apply Hal.
Qed.

Lemma pack_unpack_prefix_witness :
  ∃ bits,
    bytes_to_bits [0xFF; 0xFF] 11 = Some bits ∧
    length (bits_to_bytes bits) = 2%nat ∧
    vec_bit (bits_to_bytes bits) 10 = true ∧
    vec_bit (bits_to_bytes bits) 11 = false.
Proof.
  destruct (pack_unpack_prefix [0xFF; 0xFF] 11) as (bits & Hrun & Hlen & Hbits & _).
  - repeat constructor; unfold is_uint8; lia.
  - simpl. lia.
  - exists bits. split; [exact Hrun|]. split; [exact Hlen|].
    split; rewrite Hbits by lia; reflexivity.
Defined.

(** X3: at equal length, two bit sequences with the same packed form are
    the same sequence; across lengths packing does not tell a sequence from
    the same sequence with 0 bits appended inside the last byte. *)
Theorem bits_to_bytes_inj (bits bits' : list bool) :
  (length bits = length bits' →
   bits_to_bytes bits = bits_to_bytes bits' → bits = bits') ∧
  (∀ k : nat,
     ((length bits + k + 7) / 8 = (length bits + 7) / 8)%nat →
     bits_to_bytes (bits ++ replicate k false) = bits_to_bytes bits).
Proof.
  split.
  - intros Hlen Hpack.
    destruct (bits_to_bytes_spec bits) as (_ & _ & Hb).
    destruct (bits_to_bytes_spec bits') as (_ & _ & Hb').
    apply (list_eq_same_length _ _ (length bits)); [done|done|].
    intros i x y Hi Hx Hy.
    pose proof (Hb (Z.of_nat i) ltac:(lia)) as H1.
    pose proof (Hb' (Z.of_nat i) ltac:(lia)) as H2.
    rewrite Hpack, H2, <- Hlen in H1.
    rewrite bool_decide_eq_true_2, Nat2Z.id in H1 by lia. simpl in H1.
    rewrite (list_lookup_total_correct _ _ _ Hx),
            (list_lookup_total_correct _ _ _ Hy) in H1. done.
  - intros k Hk.
    destruct (bits_to_bytes_spec bits) as (Hl & Hr & Hb).
    destruct (bits_to_bytes_spec (bits ++ replicate k false)) as (Hl' & Hr' & Hb').
    rewrite length_app, length_replicate in Hl', Hb'.
    apply vec_ext; [lia|done|done|].
    intros j Hj. rewrite Hb', Hb by lia.
    destruct (decide (j < Z.of_nat (length bits))) as [Hlt|Hge].
    + rewrite !bool_decide_eq_true_2 by lia. simpl.
      rewrite lookup_total_app_l by lia. done.
    + rewrite (bool_decide_eq_false_2 (j < Z.of_nat (length bits))) by lia.
      destruct (bool_decide (j < Z.of_nat (length bits + k))) eqn:Hd; [|done].
      apply bool_decide_eq_true_1 in Hd. simpl.
      rewrite lookup_total_app_r by lia.
      apply list_lookup_total_correct, lookup_replicate_2. lia.
Qed.

(** ** The registry through its life *)

Section Lifecycle.
Context `{TB : SvTestbench} `{RE : RandomEngine}.

(** X4: on an enabled handle, setting the static pins drives the simulator
    once with the three levels, and reading them back returns the levels
    set together with the TDO the simulator shows, which is stored; the
    frequency and the enabled flag stay, as do all other handles. *)
Theorem static_pins_round_trip (hif : Z) (tms tdi tck a b c d : bool)
    (dev : JtagDevice) (w : World)
    (Hreg : device_registry w !! hif = Some dev) (Hen : enabled dev = true) :
  ∃ w1 w2 tdo,
    djtg_set_tms_tdi_tck hif tms tdi tck w = Some (TRUE, w1) ∧
    sv_trace w1 = sv_trace w ++ [EvDrivePins tck tms tdi] ∧
    djtg_get_tms_tdi_tdo_tck hif a b c d w1
    = Some ((TRUE, (tms, tdi, tdo, tck)), w2) ∧
    tdo = (tb_get_tdo (sv_sim w1)).1 ∧
    sv_trace w2 = sv_trace w1 ++ [EvGetTdo tdo] ∧
    device_registry w2 !! hif
    = Some (mkJtagDevice true (clock_freq dev) tck tms tdi tdo
              (device_id dev) (timeout_ms dev)) ∧
    (∀ h, h ≠ hif → device_registry w2 !! h = device_registry w !! h) ∧
    open_arrays w2 = open_arrays w.
Proof.
  unfold djtg_set_tms_tdi_tck, djtg_get_tms_tdi_tdo_tck, bind, registry_find,
    registry_modify, drive_jtag_pins, sv_drive_jtag_pins, read_jtag_pins,
    sv_get_tdo, ret.
  rewrite Hreg, Hen. simpl.
  eexists _, _, _. split; [reflexivity|]. split; [reflexivity|]. simpl.
  rewrite lookup_alter_eq, Hreg. simpl. rewrite Hen. simpl.
  split; [reflexivity|]. split; [reflexivity|]. split; [reflexivity|].
  split; [|split; [|reflexivity]].
  - simpl. rewrite !lookup_alter_eq, Hreg. simpl.
    unfold set_tdo_state, set_pins. simpl. by rewrite Hen.
  - intros h Hh. simpl. by rewrite !lookup_alter_ne.
Qed.

(** X5: disabling an enabled handle succeeds without any DPI call, keeps
    the entry with everything but the flag as it was, leaves the other
    handles alone, and a second disable fails. *)
Theorem disable_keeps_entry (hif : Z) (dev : JtagDevice) (w : World)
    (Hreg : device_registry w !! hif = Some dev) (Hen : enabled dev = true) :
  ∃ w1,
    djtg_disable hif w = Some (TRUE, w1) ∧
    device_registry w1 !! hif
    = Some (mkJtagDevice false (clock_freq dev) (tck_state dev) (tms_state dev)
              (tdi_state dev) (tdo_state dev) (device_id dev) (timeout_ms dev)) ∧
    (∀ h, h ≠ hif → device_registry w1 !! h = device_registry w !! h) ∧
    sv_trace w1 = sv_trace w ∧ sv_sim w1 = sv_sim w ∧
    open_arrays w1 = open_arrays w ∧
    djtg_disable hif w1 = Some (FALSE, w1).
Proof.
  unfold djtg_disable, bind, registry_find, registry_modify, ret.
  rewrite Hreg, Hen. simpl. eexists. split; [reflexivity|]. simpl.
  rewrite lookup_alter_eq, Hreg. simpl.
  split; [reflexivity|]. split; [|done].
  intros h Hh. by rewrite lookup_alter_ne.
Qed.

(** X6: [djtg_set_speed] always reports a frequency in [1000, 50000000],
    reports the request itself when it lies in that range, and asking for the
    reported frequency again changes nothing. *)
Theorem set_speed_idempotent (hif freq_req freq_set : Z) (dev : JtagDevice)
    (w : World)
    (Hreg : device_registry w !! hif = Some dev) (Hen : enabled dev = true) :
  ∃ freq w1,
    djtg_set_speed hif freq_req freq_set w = Some ((TRUE, freq), w1) ∧
    1000 ≤ freq ≤ 50000000 ∧
    (1000 ≤ freq_req ≤ 50000000 → freq = freq_req) ∧
    djtg_set_speed hif freq freq_set w1 = Some ((TRUE, freq), w1).
Proof.
  unfold djtg_set_speed, bind, registry_find, registry_modify, ret.
  rewrite Hreg, Hen. simpl.
  set (freq := if freq_req >? 50000000 then 50000000
               else if freq_req <? 1000 then 1000 else freq_req).
  assert (Hrange : 1000 ≤ freq ≤ 50000000).
  { unfold freq. destruct (Z.gtb_spec freq_req 50000000); [lia|].
    destruct (Z.ltb_spec freq_req 1000); lia. }
  eexists _, _. split; [reflexivity|]. split; [exact Hrange|]. split.
  - intros Hin. unfold freq. destruct (Z.gtb_spec freq_req 50000000); [lia|].
    destruct (Z.ltb_spec freq_req 1000); lia.
  - simpl. rewrite lookup_alter_eq, Hreg. simpl. rewrite Hen. simpl.
    destruct (Z.gtb_spec freq 50000000); [lia|].
    destruct (Z.ltb_spec freq 1000); [lia|].
    unfold with_registry. simpl. do 2 f_equal. f_equal.
    rewrite alter_alter_eq. apply alter_ext. intros d _. reflexivity.
Qed.

(** What one API call can do to the registry: nothing, a fresh entry for
    its handle (enable), or one update of the active entry of its handle. *)
Lemma run_call_registry_effect (c : ApiCall) (r : Z) (w w' : World) :
  run_call c w = Some (r, w') →
  device_registry w' = device_registry w ∨
  (c = CallEnable (call_hif c) ∧
   device_registry w' = <[call_hif c := enabled_defaults]> (device_registry w)) ∨
  (∃ f, device_registry w' = alter f (call_hif c) (device_registry w) ∧
        is_active (call_hif c) w = true ∧
        ∀ d, (enabled (f d) = enabled d ∨
              (c = CallDisable (call_hif c) ∧ enabled (f d) = false)) ∧
             (clock_freq (f d) = clock_freq d ∨
              1000 ≤ clock_freq (f d) ≤ 50000000)).
Proof.
  intros Hrun. destruct c; simpl in Hrun; simpl.
  - rewrite enable_run in Hrun. destruct (Qlt_le_dec _ _).
    + left. by injection Hrun as _ <-.
    + right. left. by injection Hrun as _ <-.
  - unfold djtg_disable, bind, registry_find, registry_modify, ret in Hrun.
    unfold is_active.
    destruct (device_registry w !! hif) as [dev|]; [|left; by injection Hrun as _ <-].
    destruct (enabled dev) eqn:Hen; simpl in Hrun; injection Hrun as _ <-;
      [|by left].
    right. right. exists (set_enabled false). split; [done|]. split; [done|].
    intros d. split; [right|left]; done.
  - left. by apply put_bits_registry in Hrun.
  - left. unfold djtg_get_tms_tdi_tdo_bits in Hrun.
    by apply put_bits_registry in Hrun.
  - unfold djtg_set_tms_tdi_tck, bind, registry_find, registry_modify,
      drive_jtag_pins, sv_drive_jtag_pins, ret in Hrun. unfold is_active.
    destruct (device_registry w !! hif) as [dev|]; [|left; by injection Hrun as _ <-].
    destruct (enabled dev) eqn:Hen; simpl in Hrun; injection Hrun as _ <-;
      [|by left].
    right. right. exists (set_pins tms tdi tck). split; [done|]. split; [done|].
    intros d. split; left; done.
  - unfold djtg_get_tms_tdi_tdo_tck, bind, registry_find, registry_modify,
      read_jtag_pins, sv_get_tdo, ret in Hrun. unfold is_active.
    destruct (device_registry w !! hif) as [dev|]; [|left; by injection Hrun as _ <-].
    destruct (enabled dev) eqn:Hen; simpl in Hrun; injection Hrun as _ <-;
      [|by left].
    right. right. eexists (set_tdo_state _). split; [done|]. split; [done|].
    intros d. split; left; done.
  - unfold djtg_set_speed, bind, registry_find, registry_modify, ret in Hrun.
    unfold is_active.
    destruct (device_registry w !! hif) as [dev|]; [|left; by injection Hrun as _ <-].
    destruct (enabled dev) eqn:Hen; simpl in Hrun; injection Hrun as _ <-;
      [|by left].
    right. right. eexists (set_clock_freq _). split; [done|]. split; [done|].
    intros d. split; [by left|right]. simpl.
    destruct (Z.gtb_spec freq_req 50000000); [lia|].
    destruct (Z.ltb_spec freq_req 1000); lia.
  - unfold djtg_get_speed, bind, registry_find, ret in Hrun.
    destruct (device_registry w !! hif) as [dev|]; [|left; by injection Hrun as _ <-].
    left. by destruct (negb (enabled dev)); injection Hrun as _ <-.
Qed.

(** X7: an API call changes no entry but that of its own handle and never
    removes an entry; a handle goes from inactive to active only through
    [djtg_enable] of it, and from active to inactive only through
    [djtg_disable] of it. *)
Theorem api_call_lifecycle (c : ApiCall) (r : Z) (w w' : World)
    (Hrun : run_call c w = Some (r, w')) :
  (∀ h, h ≠ call_hif c → device_registry w' !! h = device_registry w !! h) ∧
  (∀ h, is_Some (device_registry w !! h) → is_Some (device_registry w' !! h)) ∧
  (∀ h, is_active h w = false → is_active h w' = true → c = CallEnable h) ∧
  (∀ h, is_active h w = true → is_active h w' = false → c = CallDisable h).
Proof.
  pose proof (run_call_registry_effect c r w w' Hrun) as Heff.
  assert (Hother : ∀ h, h ≠ call_hif c →
            device_registry w' !! h = device_registry w !! h).
  { intros h Hh. destruct Heff as [->|[[_ ->]|(f & -> & _)]]; [done| |].
    - by rewrite lookup_insert_ne.
    - by rewrite lookup_alter_ne. }
  split; [exact Hother|]. split; [|split].
  - intros h Hsome. destruct Heff as [->|[[_ ->]|(f & -> & _)]]; [done| |].
    + apply lookup_insert_is_Some'. by right.
    + by apply lookup_alter_is_Some.
  - intros h Hoff Hon. destruct (decide (h = call_hif c)) as [->|Hne].
    + destruct Heff as [Heq|[[Hc Heq]|(f & Heq & Hact & _)]].
      * unfold is_active in *. rewrite Heq in Hon. congruence.
      * done.
      * congruence.
    + unfold is_active in *. rewrite (Hother h Hne) in Hon. congruence.
  - intros h Hon Hoff. destruct (decide (h = call_hif c)) as [->|Hne].
    + destruct Heff as [Heq|[[Hc Heq]|(f & Heq & Hact & Hf)]].
      * unfold is_active in *. rewrite Heq in Hoff. congruence.
      * unfold is_active in Hoff. rewrite Heq, lookup_insert_eq in Hoff. done.
      * unfold is_active in Hon, Hoff. rewrite Heq, lookup_alter_eq in Hoff.
        destruct (device_registry w !! call_hif c) as [d|]; [|done].
        simpl in Hoff. destruct (Hf d) as [[He|[Hc _]] _]; [congruence|done].
    + unfold is_active in *. rewrite (Hother h Hne) in Hoff. congruence.
Qed.

Lemma run_call_freq_range (c : ApiCall) (r : Z) (w w' : World) :
  run_call c w = Some (r, w') →
  (∀ h d, device_registry w !! h = Some d → 1000 ≤ clock_freq d ≤ 50000000) →
  ∀ h d, device_registry w' !! h = Some d → 1000 ≤ clock_freq d ≤ 50000000.
Proof.
  intros Hrun Hinv h d Hd.
  destruct (run_call_registry_effect c r w w' Hrun)
    as [Heq|[[_ Heq]|(f & Heq & _ & Hf)]]; rewrite Heq in Hd.
  - by eapply Hinv.
  - apply lookup_insert_Some in Hd as [[_ <-]|[_ Hd]]; [simpl; lia|].
    by eapply Hinv.
  - destruct (decide (call_hif c = h)) as [<-|Hne].
    + rewrite lookup_alter_eq in Hd.
      destruct (device_registry w !! call_hif c) as [d0|] eqn:Hd0; [|done].
      injection Hd as <-. destruct (Hf d0) as [_ [->|Hr]]; [|done].
      by eapply Hinv.
    + rewrite lookup_alter_ne in Hd by done. by eapply Hinv.
Qed.

(** An invariant of the registry that every call keeps holds along a whole
    session. *)
Lemma run_calls_preserves (P : gmap Z JtagDevice → Prop) (cs : list ApiCall)
    (u w : World) :
  (∀ c r v v', run_call c v = Some (r, v') →
               P (device_registry v) → P (device_registry v')) →
  run_calls cs u = Some w → P (device_registry u) → P (device_registry w).
Proof.
  intros Hstep. revert u. induction cs as [|c cs IH]; intros u; simpl.
  - by intros [= <-].
  - destruct (run_call c u) as [[r u']|] eqn:Hc; [|done].
    intros Hrun Hu. apply (IH u' Hrun). by eapply Hstep.
Qed.

(** X8: in every world a client session reaches from an empty registry,
    whatever arrays, simulator and generator it starts with, each registry
    entry has a frequency within [1000, 50000000], the timeout 1000 and the
    device id 0x12345678. *)
Theorem session_registry_bounds (cs : list ApiCall) (w0 w : World)
    (Hinit : device_registry w0 = ∅) (Hrun : run_calls cs w0 = Some w) :
  ∀ h d, device_registry w !! h = Some d →
    1000 ≤ clock_freq d ≤ 50000000 ∧
    timeout_ms d = 1000 ∧ device_id d = 0x12345678.
Proof.
  intros h d Hd. split.
  - revert h d Hd.
    apply (run_calls_preserves
             (λ reg, ∀ h d, reg !! h = Some d → 1000 ≤ clock_freq d ≤ 50000000)
             cs w0 w); [|done|].
    + intros c r v v' Hc Hv. by eapply run_call_freq_range.
    + intros h d Hd. rewrite Hinit in Hd. by rewrite lookup_empty in Hd.
  - revert h d Hd. change (registry_ok (device_registry w)).
    apply (run_calls_preserves registry_ok cs w0 w); [|done|].
    + intros c r v v' Hc Hv. by eapply run_call_registry_ok.
    + rewrite Hinit. apply registry_ok_empty.
Qed.

End Lifecycle.

Lemma static_pins_round_trip_witness :
  ∃ w1 w2 tdo,
    djtg_set_tms_tdi_tck 1 true false true demo_world = Some (TRUE, w1) ∧
    djtg_get_tms_tdi_tdo_tck 1 false false false false w1
    = Some ((TRUE, (true, false, tdo, true)), w2).
Proof.
  destruct (static_pins_round_trip 1 true false true false false false false
              enabled_defaults demo_world eq_refl eq_refl)
    as (w1 & w2 & tdo & Hset & _ & Hget & _).
  exists w1, w2, tdo. split; [exact Hset|exact Hget].
Defined.

Lemma disable_keeps_entry_witness :
  ∃ w1,
    djtg_disable 1 demo_world = Some (TRUE, w1) ∧
    djtg_disable 1 w1 = Some (FALSE, w1).
Proof.
  destruct (disable_keeps_entry 1 enabled_defaults demo_world eq_refl eq_refl)
    as (w1 & Hfirst & _ & _ & _ & _ & _ & Hsecond).
  exists w1. split; [exact Hfirst|exact Hsecond].
Defined.

Lemma set_speed_idempotent_witness :
  ∃ freq w1,
    djtg_set_speed 1 7 0 demo_world = Some ((TRUE, freq), w1) ∧
    1000 ≤ freq ≤ 50000000 ∧
    djtg_set_speed 1 freq 0 w1 = Some ((TRUE, freq), w1).
Proof.
  destruct (set_speed_idempotent 1 7 0 enabled_defaults demo_world
              eq_refl eq_refl)
    as (freq & w1 & Hrun & Hrange & _ & Hagain).
  exists freq, w1. split; [exact Hrun|]. split; [exact Hrange|exact Hagain].
Defined.

Lemma api_call_lifecycle_witness :
  is_active 1 demo_world = true ∧
  ∃ w',
    run_call (CallDisable 1) demo_world = Some (TRUE, w') ∧
    is_active 1 w' = false ∧
    device_registry w' !! 7 = device_registry demo_world !! 7.
Proof.
  split; [reflexivity|]. eexists. split; [reflexivity|].
  split; [reflexivity|].
  apply (proj1 (api_call_lifecycle (CallDisable 1) TRUE demo_world _ eq_refl) 7).
  simpl. lia.
Defined.

Lemma session_registry_bounds_witness :
  ∃ w d,
    run_calls [CallEnable 1; CallSetSpeed 1 7;
               CallPutBits 1 10 11 12 10 false; CallDisable 1]
      (@mkWorld loopback_tb (const_rng (1 # 2)) ∅ tt (open_arrays demo_world)
         tt []) = Some w ∧
    length (sv_trace w) = 10%nat ∧
    device_registry w !! 1 = Some d ∧
    1000 ≤ clock_freq d ≤ 50000000 ∧
    timeout_ms d = 1000 ∧ device_id d = 0x12345678.
Proof.
  destruct (run_calls _ _) as [w|] eqn:Hrun;
    [|vm_compute in Hrun; discriminate].
  pose proof Hrun as Hw. vm_compute in Hw. injection Hw as <-.
  eexists _, _. split; [reflexivity|]. split; [reflexivity|].
  split; [reflexivity|].
  refine (session_registry_bounds _ _ _ _ Hrun 1 _ _); reflexivity.
Defined.

(** ** Bulk shifting, whatever the arrays *)

Section BulkShift.
Context `{TB : SvTestbench} `{RE : RandomEngine}.

(** X9: with nothing to shift (a zero or negative bit count) the bulk
    operation on an enabled handle succeeds and leaves the world as it was,
    provided the output handle names an array: its pointer is taken before
    the loops. The TMS and TDI handles are used inside the bit loop only, so
    here they need not name anything. *)
Theorem put_bits_nothing_to_shift (hif tms_data tdi_data tdo_data cbit : Z)
    (overlap : bool) (dev : JtagDevice) (w : World)
    (Hok : registry_ok (device_registry w))
    (Hreg : device_registry w !! hif = Some dev) (Hen : enabled dev = true)
    (Hint : is_int cbit) (Hle : cbit ≤ 0)
    (Htdo : is_Some (open_arrays w !! tdo_data)) :
  djtg_put_tms_tdi_bits hif tms_data tdi_data tdo_data cbit overlap w
  = Some (TRUE, w).
Proof.
  destruct (Hok hif dev Hreg) as [Hto _]. destruct Htdo as [tdov Htdo].
  unfold djtg_put_tms_tdi_bits, bind, registry_find.
  rewrite Hreg, Hen. simpl. unfold simulate_timeout. rewrite Hto.
  assert (Hq : Z.quot cbit 1000 ≤ 0) by (apply Z.quot_le_upper_bound; lia).
  destruct (Z.gtb_spec (Z.quot cbit 1000) 1000); [lia|].
  unfold int_add. rewrite decide_True
    by (unfold is_int, INT_MIN, INT_MAX in *; lia).
  unfold ret at 1. unfold sv_get_array_ptr. rewrite Htdo. unfold for_int.
  assert (Hb : Z.quot (cbit + 7) 8 ≤ 0).
  { destruct (Z.le_gt_cases 0 (cbit + 7)).
    - rewrite Z.quot_div_nonneg by lia. div_lia.
    - apply Z.quot_le_upper_bound; lia. }
  replace (Z.to_nat (Z.quot (cbit + 7) 8)) with 0%nat by lia.
  replace (Z.to_nat cbit) with 0%nat by lia. reflexivity.
Qed.

(** X10: as no call ever changes the timeout of 1000 ms, a bulk shift on an
    enabled handle times out, before doing anything, exactly from 1001000
    bits on. *)
Theorem timeout_threshold (hif tms_data tdi_data tdo_data cbit : Z)
    (overlap : bool) (dev : JtagDevice) (w : World)
    (Hok : registry_ok (device_registry w))
    (Hreg : device_registry w !! hif = Some dev) (Hen : enabled dev = true) :
  (1001000 ≤ cbit →
   djtg_put_tms_tdi_bits hif tms_data tdi_data tdo_data cbit overlap w
   = Some (FALSE, w)) ∧
  (cbit < 1001000 →
   ∀ r w',
     djtg_put_tms_tdi_bits hif tms_data tdi_data tdo_data cbit overlap w
     = Some (r, w') → r = TRUE).
Proof.
  destruct (Hok hif dev Hreg) as [Hto _]. split.
  - intros Hbig. unfold djtg_put_tms_tdi_bits, bind, registry_find.
    rewrite Hreg, Hen. simpl. unfold simulate_timeout. rewrite Hto.
    rewrite Z.quot_div_nonneg by lia.
    destruct (Z.gtb_spec (cbit / 1000) 1000); [done|div_lia].
  - intros Hsmall r w' Hrun.
    rewrite (put_bits_defined_result _ _ _ _ _ _ _ _ _ _ Hreg Hen Hrun).
    unfold simulate_timeout. rewrite Hto.
    destruct (Z.gtb_spec (Z.quot cbit 1000) 1000) as [Hgt|]; [|done].
    exfalso. destruct (Z.le_gt_cases 0 cbit).
    + rewrite Z.quot_div_nonneg in Hgt by lia. div_lia.
    + assert (Z.quot cbit 1000 ≤ 0) by (apply Z.quot_le_upper_bound; lia). lia.
Qed.

(** Invariant rule for a counted loop that is known to have run. *)
Lemma for_from_post {A} (I : nat → A → World → Prop) (body : Z → A → M A)
    (count : nat) (i : Z) (acc a' : A) (w w' : World) :
  I 0%nat acc w →
  (∀ k a u a1 u1, (k < count)%nat → I k a u →
     body (i + Z.of_nat k) a u = Some (a1, u1) → I (S k) a1 u1) →
  for_from i count body acc w = Some (a', w') → I count a' w'.
Proof.
  revert I i acc w. induction count as [|c IH]; intros I i acc w H0 Hstep; simpl.
  - by intros [= <- <-].
  - unfold bind. destruct (body i acc w) as [[a1 w1]|] eqn:Hb; [|done].
    apply (IH (λ k, I (S k)) (i + 1)).
    + apply (Hstep 0%nat acc w); [lia|done|].
      by replace (i + Z.of_nat 0) with i by lia.
    + intros k a u a2 u2 Hk HI Hrun. apply (Hstep (S k) a u); [lia|done|].
      by replace (i + Z.of_nat (S k)) with (i + 1 + Z.of_nat k) by lia.
Qed.

Lemma writes_only_refl (h : Z) (w : World) : writes_only h w w.
Proof. by repeat split. Qed.

Lemma writes_only_trans (h : Z) (w1 w2 w3 : World) :
  writes_only h w1 w2 → writes_only h w2 w3 → writes_only h w1 w3.
Proof.
  intros (Hr1 & Hg1 & Ha1 & Hl1) (Hr2 & Hg2 & Ha2 & Hl2).
  split; [congruence|]. split; [congruence|]. split; [|congruence].
  intros h' Hh'. rewrite Ha2, Ha1 by done. done.
Qed.

Lemma array_store_effect (h i b : Z) (w w' : World) :
  array_store h i b w = Some (tt, w') →
  writes_only h w w' ∧ sv_sim w' = sv_sim w ∧ sv_trace w' = sv_trace w.
Proof.
  unfold array_store. destruct (open_arrays w !! h) as [v|] eqn:Hv; [|done].
  destruct (decide _); [|done]. intros [= <-]. simpl.
  split; [|done]. split; [done|]. split; [done|]. simpl. split.
  - intros h' Hh'. by rewrite lookup_insert_ne.
  - rewrite lookup_insert_eq, Hv. simpl. by rewrite length_insert.
Qed.

(** One iteration of the bit loop, for any arrays: one step call, answered
    by the simulator, and at most a write to the output array. *)
Lemma put_bit_effect (tms_data tdi_data tdo_data cbit i : Z) (w w' : World) :
  put_bit tms_data tdi_data tdo_data cbit i w = Some (tt, w') →
  writes_only tdo_data w w' ∧
  ∃ tms tdi,
    sv_trace w' =
      sv_trace w ++
      [EvJtagStep tms tdi (i =? cbit - 1)
         (tb_jtag_step tms tdi (i =? cbit - 1) (sv_sim w)).1].
Proof.
  unfold put_bit, bind.
  destruct (array_load tms_data _ w) as [[bm u1]|] eqn:H1; [|done].
  apply array_load_world in H1 as ->.
  destruct (array_load tdi_data _ w) as [[bd u2]|] eqn:H2; [|done].
  apply array_load_world in H2 as ->.
  unfold sv_jtag_step. cbv zeta.
  set (r := tb_jtag_step _ _ _ _).
  destruct (r.1) eqn:Hr1.
  - destruct (array_load tdo_data _ _) as [[bo u3]|] eqn:H3; [|done].
    apply array_load_world in H3 as ->.
    intros Hst. apply array_store_effect in Hst as [(Hr & Hg & Ha & Hl) [_ Ht]].
    split; [by repeat split|].
    exists (shr_and_1 bm (Z.rem i 8)), (shr_and_1 bd (Z.rem i 8)).
    rewrite Ht. simpl. unfold r in Hr1. by rewrite Hr1.
  - intros [= <-]. split; [by repeat split|].
    exists (shr_and_1 bm (Z.rem i 8)), (shr_and_1 bd (Z.rem i 8)).
    simpl. unfold r in Hr1. by rewrite Hr1.
Qed.

Lemma put_bits_effect (hif tms_data tdi_data tdo_data cbit r : Z)
    (overlap : bool) (w w' : World) :
  djtg_put_tms_tdi_bits hif tms_data tdi_data tdo_data cbit overlap w
  = Some (r, w') →
  writes_only tdo_data w w' ∧
  (r = FALSE ∧ w' = w ∨
   r = TRUE ∧
   ∃ evs, sv_trace w' = sv_trace w ++ evs ∧
          length evs = Z.to_nat cbit ∧ Forall step_answered evs ∧
          ∀ (i : nat) e, evs !! i = Some e →
                         step_last e = (Z.of_nat i =? cbit - 1)).
Proof.
  unfold djtg_put_tms_tdi_bits, bind, registry_find, ret.
  destruct (device_registry w !! hif) as [dev|];
    [|intros [= <- <-]; split; [apply writes_only_refl|by left]].
  destruct (negb (enabled dev));
    [intros [= <- <-]; split; [apply writes_only_refl|by left]|].
  destruct (simulate_timeout _ _);
    [intros [= <- <-]; split; [apply writes_only_refl|by left]|].
  unfold int_add. destruct (decide _); [|done]. unfold ret, for_int.
  unfold sv_get_array_ptr.
  destruct (open_arrays w !! tdo_data) as [tdov|] eqn:Htdo; [|done].
  destruct (for_from 0 _ _ tt w) as [[[] w1]|] eqn:Hc; [|done].
  destruct (for_from 0 _ _ tt w1) as [[[] w2]|] eqn:Hp; [|done].
  intros [= <- <-].
  assert (H1 : writes_only tdo_data w w1 ∧ sv_trace w1 = sv_trace w).
  { apply (for_from_post
             (λ _ (_ : unit) u, writes_only tdo_data w u ∧ sv_trace u = sv_trace w)
             _ _ _ _ _ _ _ (conj (writes_only_refl _ _) eq_refl)) in Hc; [done|].
    intros k [] u [] u1 _ [Hw Ht] Hst.
    apply array_store_effect in Hst as (Hw' & _ & Ht').
    split; [by eapply writes_only_trans|congruence]. }
  destruct H1 as [Hw1 Ht1].
  assert (H2 : writes_only tdo_data w1 w2 ∧
               ∃ evs, sv_trace w2 = sv_trace w1 ++ evs ∧
                      length evs = Z.to_nat cbit ∧ Forall step_answered evs ∧
                      ∀ (i : nat) e, evs !! i = Some e →
                                     step_last e = (Z.of_nat i =? cbit - 1)).
  { apply (for_from_post
             (λ k (_ : unit) u,
                writes_only tdo_data w1 u ∧
                ∃ evs, sv_trace u = sv_trace w1 ++ evs ∧
                       length evs = k ∧ Forall step_answered evs ∧
                       ∀ (i : nat) e, evs !! i = Some e →
                                      step_last e = (Z.of_nat i =? cbit - 1)))
      in Hp; [done| |].
    - split; [apply writes_only_refl|]. exists [].
      split; [by rewrite app_nil_r|]. split; [done|]. split; [done|].
      intros j e Hj. done.
    - intros k [] u [] u1 _ (Hw & evs & Ht & Hlen & Hst & Hlast) Hb.
      apply put_bit_effect in Hb as (Hw' & tms & tdi & Ht').
      split; [by eapply writes_only_trans|].
      eexists (evs ++ [_]). split; [by rewrite Ht', Ht, <- app_assoc|].
      split; [rewrite length_app; simpl; lia|].
      split; [apply Forall_app; split; [done|]; repeat constructor; by eexists|].
      intros j e Hj. apply lookup_app_Some in Hj as [Hj|[Hge Hj]].
      + by apply Hlast.
      + apply list_lookup_singleton_Some in Hj as [Hj0 <-]. simpl.
        f_equal. lia. }
  destruct H2 as (Hw2 & evs & Ht2 & Hlen & Hst & Hlast).
  split; [by eapply writes_only_trans|]. right. split; [done|].
  exists evs. split; [by rewrite Ht2, Ht1|]. done.
Qed.

(** X11: however the three handles alias and whatever the arrays hold, a
    bulk shift that returns changes no registry entry and no array but the
    output one, whose length it keeps; it makes step calls only: none when
    it fails, and when it succeeds exactly [cbit] of them, the last one
    alone flagged [is_last]. *)
Theorem put_bits_footprint (hif tms_data tdi_data tdo_data cbit r : Z)
    (overlap : bool) (w w' : World)
    (Hrun : djtg_put_tms_tdi_bits hif tms_data tdi_data tdo_data cbit overlap w
            = Some (r, w')) :
  writes_only tdo_data w w' ∧
  (r = FALSE ∧ w' = w ∨
   r = TRUE ∧
   ∃ evs, sv_trace w' = sv_trace w ++ evs ∧
          length evs = Z.to_nat cbit ∧ Forall is_step evs ∧
          ∀ (i : nat) e, evs !! i = Some e →
                         step_last e = (Z.of_nat i =? cbit - 1)).
Proof.
  destruct (put_bits_effect _ _ _ _ _ _ _ _ _ Hrun) as [Hw [Hf|[Hr Hs]]];
    (split; [exact Hw|]); [by left|right].
  split; [exact Hr|]. destruct Hs as (evs & Ht & Hlen & Hans & Hlast).
  exists evs. split; [done|]. split; [done|]. split; [|done].
  eapply Forall_impl; [exact Hans|]. by intros [].
Qed.

Lemma shifted_codec (cbit : Z) (tmsv tdiv tdov : list Z) (evs : list SvEvent)
    (v : list Z) :
  cbit ≤ 8 * Z.of_nat (length tdov) →
  shifted cbit tmsv tdiv (cleared (Z.to_nat (Z.quot (cbit + 7) 8)) tdov)
    (Z.to_nat cbit) evs v →
  Forall is_step evs ∧
  step_tms <$> evs = (vec_bit tmsv <$> seqZ 0 cbit) ∧
  step_tdi <$> evs = (vec_bit tdiv <$> seqZ 0 cbit) ∧
  v = bits_to_bytes (step_tdo <$> evs) ++ drop (Z.to_nat ((cbit + 7) / 8)) tdov.
Proof.
  intros Hl3 (Hlen & Hvlen & Hdone & Hrest & Hrange & Hfar).
  pose proof (byte_count_floor cbit) as Hbc.
  set (bc := Z.to_nat (Z.quot (cbit + 7) 8)) in *.
  assert (Hbclen : (bc ≤ length tdov)%nat) by div_lia.
  rewrite cleared_length in Hvlen by done.
  assert (Hbc' : Z.to_nat ((cbit + 7) / 8) = bc) by lia.
  assert (Hproj : ∀ (f : SvEvent → bool) (g : Z → bool),
            (∀ i tdo, f (EvJtagStep (vec_bit tmsv i) (vec_bit tdiv i)
                           (i =? cbit - 1) tdo) = g i) →
            f <$> evs = (g <$> seqZ 0 cbit)).
  { intros f g Hfg. apply list_eq. intros i. rewrite !list_lookup_fmap.
    destruct (decide (i < Z.to_nat cbit)%nat) as [Hi|Hi].
    - destruct (Hdone (Z.of_nat i)) as (tdo & Hev & _); [lia|].
      rewrite Nat2Z.id in Hev. rewrite Hev, lookup_seqZ_lt by lia. simpl.
      by rewrite Hfg.
    - rewrite lookup_seqZ_ge by lia.
      rewrite (proj2 (lookup_ge_None evs i)) by lia. done. }
  split.
  { apply Forall_lookup. intros i e He.
    destruct (Hdone (Z.of_nat i)) as (tdo & Hev & _);
      [apply lookup_lt_Some in He; lia|].
    rewrite Nat2Z.id, He in Hev. by injection Hev as ->. }
  split; [by apply Hproj|]. split; [by apply Hproj|].
  rewrite Hbc'.
  rewrite <- (take_drop bc v) at 1. f_equal.
  - destruct (bits_to_bytes_spec (step_tdo <$> evs)) as (Hpl & Hpr & Hpb).
    rewrite length_fmap, Hlen in Hpl, Hpb.
    apply vec_ext.
    + rewrite length_take, Hpl. div_lia.
    + apply Forall_lookup. intros m x Hx.
      apply lookup_take_Some in Hx as [Hx Hm].
      rewrite <- (byte_at_lookup _ _ _ Hx). apply Hrange.
      rewrite cleared_byte_low by done. unfold is_uint8. lia.
    + done.
    + intros j Hj. rewrite length_take in Hj. rewrite Hpb by lia.
      assert (Hjv : vec_bit (take bc v) j = vec_bit v j).
      { unfold vec_bit, byte_at. rewrite lookup_take_lt by div_lia. done. }
      rewrite Hjv. destruct (decide (j < cbit)) as [Hlt|Hge].
      * rewrite bool_decide_eq_true_2 by lia. simpl.
        destruct (Hdone j) as (tdo & Hev & Hbit); [lia|].
        rewrite Hbit, cleared_bit by div_lia. simpl.
        symmetry. apply list_lookup_total_correct.
        by rewrite list_lookup_fmap, Hev.
      * rewrite bool_decide_eq_false_2 by lia. simpl.
        rewrite Hrest by lia. apply cleared_bit. div_lia.
  - apply list_eq. intros m. rewrite !lookup_drop.
    rewrite Hfar by div_lia. apply cleared_lookup_high. lia.
Qed.

(** X12: the bulk shift is the codec around the simulator: the TMS and TDI
    levels of its calls are [bytes_to_bits] of the two input arrays, and what
    it writes over the first [ceil(cbit / 8)] output bytes is [bits_to_bytes]
    of the TDO answers, in order. *)
Theorem put_bits_is_codec (hif tms_data tdi_data tdo_data cbit : Z)
    (overlap : bool) (dev : JtagDevice) (tmsv tdiv tdov : list Z) (w : World)
    (Hok : registry_ok (device_registry w))
    (Hreg : device_registry w !! hif = Some dev) (Hen : enabled dev = true)
    (Hint : is_int cbit)
    (Hpass : simulate_timeout (Z.quot cbit 1000) (timeout_ms dev) = false)
    (Htms : open_arrays w !! tms_data = Some tmsv)
    (Htdi : open_arrays w !! tdi_data = Some tdiv)
    (Htdo : open_arrays w !! tdo_data = Some tdov)
    (Hne1 : tdo_data ≠ tms_data) (Hne2 : tdo_data ≠ tdi_data)
    (Hl1 : cbit ≤ 8 * Z.of_nat (length tmsv))
    (Hl2 : cbit ≤ 8 * Z.of_nat (length tdiv))
    (Hl3 : cbit ≤ 8 * Z.of_nat (length tdov)) :
  ∃ w' evs,
    djtg_put_tms_tdi_bits hif tms_data tdi_data tdo_data cbit overlap w
    = Some (TRUE, w') ∧
    sv_trace w' = sv_trace w ++ evs ∧ Forall is_step evs ∧
    bytes_to_bits tmsv cbit = Some (step_tms <$> evs) ∧
    bytes_to_bits tdiv cbit = Some (step_tdi <$> evs) ∧
    open_arrays w' =
      <[tdo_data := bits_to_bytes (step_tdo <$> evs) ++
                    drop (Z.to_nat ((cbit + 7) / 8)) tdov]> (open_arrays w).
Proof.
  destruct (Hok hif dev Hreg) as [Hto _].
  assert (Hint7 : is_int (cbit + 7)).
  { apply timeout_pass_bound in Hpass. unfold is_int, INT_MIN, INT_MAX in *. lia. }
  destruct (put_bits_run hif tms_data tdi_data tdo_data cbit overlap dev
              tmsv tdiv tdov w) as (w' & evs & v & Hrun & Hr & Hg & Ht & Ha & Hsh);
    try done.
  destruct (shifted_codec cbit tmsv tdiv tdov evs v Hl3 Hsh)
    as (Hst & Hm & Hd & Hv).
  exists w', evs. split; [done|]. split; [done|]. split; [done|].
  rewrite Hm, Hd, !bytes_to_bits_spec by done. by rewrite Ha, <- Hv.
Qed.

(** X13: against a simulator that answers every TDI with the same TDO, the
    bulk shift copies the first [cbit] TDI bits into the output array and
    clears the rest of the last byte touched; for a multiple of 8 it copies
    [cbit / 8] bytes and leaves the bytes after them as they were. *)
Theorem put_bits_loopback (hif tms_data tdi_data tdo_data cbit : Z)
    (overlap : bool) (dev : JtagDevice) (tmsv tdiv tdov : list Z) (w : World)
    (Hloop : ∀ tms tdi is_last s, (tb_jtag_step tms tdi is_last s).1 = tdi)
    (Hok : registry_ok (device_registry w))
    (Hreg : device_registry w !! hif = Some dev) (Hen : enabled dev = true)
    (Hint : is_int cbit)
    (Hpass : simulate_timeout (Z.quot cbit 1000) (timeout_ms dev) = false)
    (Htms : open_arrays w !! tms_data = Some tmsv)
    (Htdi : open_arrays w !! tdi_data = Some tdiv)
    (Htdo : open_arrays w !! tdo_data = Some tdov)
    (Hne1 : tdo_data ≠ tms_data) (Hne2 : tdo_data ≠ tdi_data)
    (Hl1 : cbit ≤ 8 * Z.of_nat (length tmsv))
    (Hl2 : cbit ≤ 8 * Z.of_nat (length tdiv))
    (Hl3 : cbit ≤ 8 * Z.of_nat (length tdov)) :
  ∃ w' tdi_bits,
    djtg_put_tms_tdi_bits hif tms_data tdi_data tdo_data cbit overlap w
    = Some (TRUE, w') ∧
    bytes_to_bits tdiv cbit = Some tdi_bits ∧
    open_arrays w' !! tdo_data =
      Some (bits_to_bytes tdi_bits ++ drop (Z.to_nat ((cbit + 7) / 8)) tdov) ∧
    (Forall is_uint8 tdiv → 0 ≤ cbit → cbit mod 8 = 0 →
     open_arrays w' !! tdo_data =
       Some (take (Z.to_nat (cbit / 8)) tdiv ++ drop (Z.to_nat (cbit / 8)) tdov)).
Proof.
  destruct (Hok hif dev Hreg) as [Hto _].
  assert (Hint7 : is_int (cbit + 7)).
  { apply timeout_pass_bound in Hpass. unfold is_int, INT_MIN, INT_MAX in *. lia. }
  destruct (put_bits_run hif tms_data tdi_data tdo_data cbit overlap dev
              tmsv tdiv tdov w) as (w' & evs & v & Hrun & Hr & Hg & Ht & Ha & Hsh);
    try done.
  destruct (shifted_codec cbit tmsv tdiv tdov evs v Hl3 Hsh)
    as (Hst & Hm & Hd & Hv).
  assert (Hecho : step_tdo <$> evs = step_tdi <$> evs).
  { destruct (put_bits_effect _ _ _ _ _ _ _ _ _ Hrun) as [_ [[Hf _]|[_ Hs]]];
      [done|].
    destruct Hs as (evs' & Ht' & _ & Hans & _).
    rewrite Ht in Ht'. apply app_inv_head in Ht' as <-.
    apply list_eq. intros i. rewrite !list_lookup_fmap.
    destruct (evs !! i) as [e|] eqn:He; [|done]. simpl. f_equal.
    pose proof (Forall_lookup_1 _ _ _ _ Hans He) as Hx.
    destruct e; try done. destruct Hx as [s ->]. simpl. apply Hloop. }
  assert (Hout : open_arrays w' !! tdo_data =
            Some (bits_to_bytes (vec_bit tdiv <$> seqZ 0 cbit) ++
                  drop (Z.to_nat ((cbit + 7) / 8)) tdov)).
  { rewrite Ha, lookup_insert_eq, Hv, Hecho, Hd. done. }
  exists w', (vec_bit tdiv <$> seqZ 0 cbit).
  split; [done|]. split; [by apply bytes_to_bits_spec|]. split; [done|].
  intros Hu8 Hpos Hmod. rewrite Hout.
  destruct (bits_to_bytes_unpacked tdiv cbit) as (_ & _ & Hal); [lia|].
  rewrite (Hal Hu8 Hmod). do 3 f_equal. div_lia.
Qed.

End BulkShift.

Lemma put_bits_nothing_to_shift_witness :
  open_arrays demo_world !! 77 = None ∧ open_arrays demo_world !! 78 = None ∧
  djtg_put_tms_tdi_bits 1 77 78 12 0 false demo_world = Some (TRUE, demo_world).
Proof.
  split; [reflexivity|]. split; [reflexivity|].
  apply (put_bits_nothing_to_shift 1 77 78 12 0 false enabled_defaults
           demo_world demo_world_ok eq_refl eq_refl);
    [vm_compute; intuition discriminate|lia|by eexists].
Defined.

Lemma timeout_threshold_witness :
  djtg_put_tms_tdi_bits 1 10 11 12 1001000 false demo_world
  = Some (FALSE, demo_world).
Proof.
  apply (proj1 (timeout_threshold 1 10 11 12 1001000 false enabled_defaults
                  demo_world demo_world_ok eq_refl eq_refl)).
  lia.
Defined.

Lemma put_bits_footprint_witness :
  ∃ w',
    djtg_put_tms_tdi_bits 1 10 11 12 10 false demo_world = Some (TRUE, w') ∧
    writes_only 12 demo_world w'.
Proof.
  destruct (djtg_put_tms_tdi_bits 1 10 11 12 10 false demo_world)
    as [[r w']|] eqn:Hrun.
  - destruct (put_bits_footprint 1 10 11 12 10 r false demo_world w' Hrun)
      as [Hw _].
    assert (r = TRUE) as ->.
    { vm_compute in Hrun. by injection Hrun as <- _. }
    exists w'. split; [reflexivity|exact Hw].
  - vm_compute in Hrun. discriminate.
Defined.

Lemma put_bits_is_codec_witness :
  ∃ w' evs,
    djtg_put_tms_tdi_bits 1 10 11 12 10 false demo_world = Some (TRUE, w') ∧
    bytes_to_bits [0x35; 0x02] 10 = Some (step_tms <$> evs) ∧
    bytes_to_bits [0xC6; 0x01] 10 = Some (step_tdi <$> evs).
Proof.
  destruct (put_bits_is_codec 1 10 11 12 10 false enabled_defaults
              [0x35; 0x02] [0xC6; 0x01] [0xFF; 0xFF; 0xFF] demo_world)
    as (w' & evs & Hrun & _ & _ & Hm & Hd & _);
    [exact demo_world_ok|reflexivity|reflexivity|vm_compute; intuition discriminate
    |reflexivity|reflexivity|reflexivity|reflexivity|lia|lia|simpl; lia
    |simpl; lia|simpl; lia|].
  exists w', evs. split; [exact Hrun|]. split; [exact Hm|exact Hd].
Defined.

Lemma put_bits_loopback_witness :
  ∃ w',
    djtg_put_tms_tdi_bits 1 10 11 12 16 false demo_world = Some (TRUE, w') ∧
    open_arrays w' !! 12 = Some [0xC6; 0x01; 0xFF].
Proof.
  destruct (put_bits_loopback 1 10 11 12 16 false enabled_defaults
              [0x35; 0x02] [0xC6; 0x01] [0xFF; 0xFF; 0xFF] demo_world)
    as (w' & tdi_bits & Hrun & _ & _ & Hcopy);
    [intros tms tdi is_last s; reflexivity
    |exact demo_world_ok|reflexivity|reflexivity|vm_compute; intuition discriminate
    |reflexivity|reflexivity|reflexivity|reflexivity|lia|lia|simpl; lia
    |simpl; lia|simpl; lia|].
  exists w'. split; [exact Hrun|].
  apply Hcopy; [|lia|reflexivity].
  repeat constructor; unfold is_uint8; lia.
Defined.

(** ** Step sequences that do not depend on the answers *)

Section OpenLoop.
Context `{TB : SvTestbench} `{RE : RandomEngine}.

Lemma after_nil (w : World) : after [] w = w.
Proof. destruct w. unfold after. simpl. by rewrite app_nil_r. Qed.

Lemma after_cons (c : StepArgs) (cs : list StepArgs) (w : World) :
  after cs (after [c] w) = after (c :: cs) w.
Proof. unfold after. simpl. by rewrite <- app_assoc. Qed.

Lemma answers_app (cs1 cs2 : list StepArgs) (s : sim) :
  answers (cs1 ++ cs2) s = answers cs1 s ++ answers cs2 (sim_after cs1 s).
Proof.
  revert s. induction cs1 as [|c cs1 IH]; intros s; simpl; [done|].
  by rewrite IH.
Qed.

Lemma after_app (cs1 cs2 : list StepArgs) (w : World) :
  after cs2 (after cs1 w) = after (cs1 ++ cs2) w.
Proof.
  revert w. induction cs1 as [|c cs1 IH]; intros w.
  - by rewrite after_nil.
  - rewrite <- after_cons, IH. simpl. by rewrite after_cons.
Qed.

Lemma answers_length (cs : list StepArgs) (s : sim) :
  length (answers cs s) = length cs.
Proof. revert s. induction cs as [|c cs IH]; intros s; simpl; [done|]. by rewrite IH. Qed.

Lemma sim_after_after (cs : list StepArgs) (w : World) :
  sv_sim (after cs w) = sim_after cs (sv_sim w).
Proof. reflexivity. Qed.

Lemma sv_jtag_step_after (tms tdi is_last : bool) (w : World) :
  sv_jtag_step tms tdi is_last w
  = Some ((tb_jtag_step tms tdi is_last (sv_sim w)).1,
          after [(tms, tdi, is_last)] w).
Proof. reflexivity. Qed.

(** A counted loop whose body is one step call, with arguments that depend
    on the index only, followed by an update of the local. *)
Lemma for_from_steps {A} (call : Z → StepArgs) (upd : Z → A → bool → A)
    (body : Z → A → M A) (n : nat) (i : Z) (acc : A) (w : World) :
  (∀ k a u, (k < n)%nat →
     body (i + Z.of_nat k) a u
     = Some (upd (i + Z.of_nat k) a
               (tb_jtag_step (call (i + Z.of_nat k)).1.1
                  (call (i + Z.of_nat k)).1.2 (call (i + Z.of_nat k)).2
                  (sv_sim u)).1,
             after [call (i + Z.of_nat k)] u)) →
  for_from i n body acc w
  = Some (fold_steps upd i (answers (call <$> seqZ i (Z.of_nat n)) (sv_sim w)) acc,
          after (call <$> seqZ i (Z.of_nat n)) w).
Proof.
  revert i acc w. induction n as [|n IH]; intros i acc w Hbody.
  - simpl. by rewrite after_nil.
  - rewrite seqZ_cons by lia. rewrite fmap_cons.
    replace (Z.pred (Z.of_nat (S n))) with (Z.of_nat n) by lia.
    replace (Z.succ i) with (i + 1) by lia.
    simpl. unfold bind.
    pose proof (Hbody 0%nat acc w ltac:(lia)) as H0.
    replace (i + Z.of_nat 0) with i in H0 by lia. rewrite H0.
    rewrite IH.
    + by rewrite after_cons.
    + intros k a u Hk.
      replace (i + 1 + Z.of_nat k) with (i + Z.of_nat (S k)) by lia.
      apply Hbody. lia.
Qed.

(** A range-based loop over fixed TMS levels, TDI and is_last low. *)
Lemma for_each_nav (l : list bool) (w : World) :
  for_each l (λ tms_val _, _ <- sv_jtag_step tms_val false false ;; ret tt) tt w
  = Some (tt, after (nav <$> l) w).
Proof.
  revert w. induction l as [|b l IH]; intros w; simpl.
  - by rewrite after_nil.
  - unfold bind, ret. rewrite sv_jtag_step_after.
    rewrite IH. by rewrite after_cons.
Qed.

Lemma tap_reset_run (w : World) :
  tap_reset w = Some (tt, after (nav <$> [true; true; true; true; true; false]) w).
Proof.
  unfold tap_reset, for_int. simpl. unfold bind, ret.
  repeat (rewrite sv_jtag_step_after; cbv beta iota).
  by rewrite !after_cons.
Qed.

Lemma navigate_to_shift_ir_run (w : World) :
  navigate_to_shift_ir w = Some (tt, after (nav <$> [true; true; false; false]) w).
Proof. apply for_each_nav. Qed.

Lemma navigate_to_shift_dr_run (w : World) :
  navigate_to_shift_dr w = Some (tt, after (nav <$> [true; false; false]) w).
Proof. apply for_each_nav. Qed.

Lemma navigate_to_shift_dr_with_idle_run (w : World) :
  navigate_to_shift_dr_with_idle w
  = Some (tt, after (nav <$> [false; true; false; false]) w).
Proof.
  unfold navigate_to_shift_dr_with_idle, bind.
  rewrite sv_jtag_step_after. cbv beta iota zeta.
  rewrite for_each_nav. by rewrite after_cons.
Qed.

Lemma exit_to_run_test_idle_run (w : World) :
  exit_to_run_test_idle w = Some (tt, after (nav <$> [true; false]) w).
Proof.
  unfold exit_to_run_test_idle, bind, ret.
  repeat (rewrite sv_jtag_step_after; cbv beta iota).
  by rewrite !after_cons.
Qed.

End OpenLoop.

(** ** Words and their bits *)

Lemma lsb_word_testbit (bits : list bool) (p : Z) :
  0 ≤ p → Z.testbit (lsb_word bits) p = default false (bits !! Z.to_nat p).
Proof.
  revert p. induction bits as [|b bits IH]; intros p Hp; simpl.
  - apply Z.testbit_0_l.
  - rewrite Z.add_comm. destruct (decide (p = 0)) as [->|Hne].
    + simpl. apply Z.testbit_0_r.
    + replace p with (Z.succ (p - 1)) at 1 by lia.
      rewrite Z.testbit_succ_r by lia. rewrite IH by lia.
      replace (Z.to_nat p) with (S (Z.to_nat (p - 1))) by lia. done.
Qed.

Lemma lsb_word_nonneg (bits : list bool) : 0 ≤ lsb_word bits.
Proof. induction bits as [|[] bits IH]; simpl; lia. Qed.

Lemma lsb_word_inj (bits bits' : list bool) :
  length bits = length bits' → lsb_word bits = lsb_word bits' → bits = bits'.
Proof.
  intros Hlen Heq. apply (list_eq_same_length _ _ (length bits)); [done|done|].
  intros i x y Hi Hx Hy.
  pose proof (lsb_word_testbit bits (Z.of_nat i) ltac:(lia)) as H1.
  pose proof (lsb_word_testbit bits' (Z.of_nat i) ltac:(lia)) as H2.
  rewrite Nat2Z.id in H1, H2. rewrite Hx in H1. rewrite Hy in H2.
  simpl in *. congruence.
Qed.

Lemma lsb_word_bits_of (n : nat) (z : Z) :
  lsb_word (bits_of n z) = z mod 2 ^ Z.of_nat n.
Proof.
  apply Z.bits_inj'. intros p Hp. rewrite lsb_word_testbit by done.
  unfold bits_of. rewrite list_lookup_fmap.
  destruct (decide (p < Z.of_nat n)) as [Hlt|Hge].
  - rewrite lookup_seqZ_lt by lia. simpl.
    rewrite Z.mod_pow2_bits_low by lia. f_equal. lia.
  - rewrite lookup_seqZ_ge by lia. simpl.
    by rewrite Z.mod_pow2_bits_high by lia.
Qed.

(** The bits of the local of a loop that sets bit [pos i] when answer [i]
    is 1. *)
Lemma fold_steps_testbit (pos : Z → Z) (upd : Z → Z → bool → Z)
    (rs : list bool) (i acc p : Z) :
  0 ≤ p →
  (∀ j a r q, 0 ≤ q →
     Z.testbit (upd j a r) q = Z.testbit a q || (r && (q =? pos j))) →
  Z.testbit (fold_steps upd i rs acc) p = true ↔
  Z.testbit acc p = true ∨
  ∃ k : nat, rs !! k = Some true ∧ p = pos (i + Z.of_nat k).
Proof.
  intros Hp Hupd. revert i acc. induction rs as [|r rs IH]; intros i acc; simpl.
  - split; [by left|]. intros [H|(k & Hk & _)]; done.
  - rewrite IH, Hupd by done. split.
    + intros [H|(k & Hk & Hpk)].
      * apply orb_true_iff in H as [H|H]; [by left|].
        apply andb_true_iff in H as [-> H]. apply Z.eqb_eq in H.
        right. exists 0%nat. split; [done|]. by rewrite Z.add_0_r.
      * right. exists (S k). split; [done|]. rewrite Hpk. f_equal. lia.
    + intros [H|(k & Hk & Hpk)].
      * left. by rewrite H.
      * destruct k as [|k]; simpl in Hk.
        -- injection Hk as ->. left. rewrite Z.add_0_r in Hpk.
           rewrite (proj2 (Z.eqb_eq p (pos i))) by done.
           by rewrite orb_true_r.
        -- right. exists k. split; [done|]. rewrite Hpk. f_equal. lia.
Qed.

Lemma or_shl_bool_testbit (a q k : Z) (r : bool) :
  0 ≤ q →
  Z.testbit (Z.lor a (Z.shiftl (int_of_bool r) k)) q
  = Z.testbit a q || (r && (q =? k)).
Proof.
  intros Hq. destruct r; simpl.
  - rewrite Z.lor_spec, Z.shiftl_spec, testbit_one by done. f_equal.
    destruct (Z.eqb_spec (q - k) 0), (Z.eqb_spec q k); try reflexivity; lia.
  - rewrite Z.shiftl_0_l, Z.lor_0_r. by rewrite orb_false_r.
Qed.

Lemma or_shl_if_testbit (a q k : Z) (r : bool) :
  0 ≤ q →
  Z.testbit (if r then Z.lor a (Z.shiftl 1 k) else a) q
  = Z.testbit a q || (r && (q =? k)).
Proof.
  intros Hq. pose proof (or_shl_bool_testbit a q k r Hq) as H.
  destruct r; simpl in *; [done|]. by rewrite orb_false_r.
Qed.

(** Answers collected LSB first make [lsb_word] of the answers. *)
Lemma fold_steps_lsb (upd : Z → Z → bool → Z) (rs : list bool) :
  (∀ j a r q, 0 ≤ q →
     Z.testbit (upd j a r) q = Z.testbit a q || (r && (q =? j))) →
  fold_steps upd 0 rs 0 = lsb_word rs.
Proof.
  intros Hupd. apply Z.bits_inj'. intros p Hp.
  apply eq_true_iff_eq.
  rewrite (fold_steps_testbit (λ j, j) upd rs 0 0 p Hp Hupd).
  rewrite lsb_word_testbit by done. rewrite Z.testbit_0_l. split.
  - intros [H|(k & Hk & ->)]; [done|].
    rewrite Z.add_0_l, Nat2Z.id, Hk. done.
  - intros H. right. exists (Z.to_nat p).
    destruct (rs !! Z.to_nat p) as [[]|]; try done. split; [done|lia].
Qed.

(** Answers collected MSB first, over [length rs] bits, make [lsb_word] of
    the answers reversed. *)
Lemma fold_steps_msb (upd : Z → Z → bool → Z) (rs : list bool) (n : Z) :
  n = Z.of_nat (length rs) →
  (∀ j a r q, 0 ≤ q →
     Z.testbit (upd j a r) q = Z.testbit a q || (r && (q =? n - 1 - j))) →
  fold_steps upd 0 rs 0 = lsb_word (reverse rs).
Proof.
  intros Hn Hupd. apply Z.bits_inj'. intros p Hp.
  apply eq_true_iff_eq.
  rewrite (fold_steps_testbit (λ j, n - 1 - j) upd rs 0 0 p Hp Hupd).
  rewrite lsb_word_testbit by done. rewrite Z.testbit_0_l. split.
  - intros [H|(k & Hk & ->)]; [done|].
    pose proof (lookup_lt_Some _ _ _ Hk) as Hlt.
    rewrite reverse_lookup by lia.
    replace (length rs - S (Z.to_nat (n - 1 - (0 + Z.of_nat k))))%nat with k by lia.
    by rewrite Hk.
  - intros H. destruct (decide (Z.to_nat p < length rs)%nat) as [Hlt|Hge].
    + rewrite reverse_lookup in H by done.
      right. exists (length rs - S (Z.to_nat p))%nat.
      destruct (rs !! _) as [[]|]; try done. split; [done|lia].
    + rewrite (proj2 (lookup_ge_None (reverse rs) (Z.to_nat p))) in H; [done|].
      rewrite length_reverse. lia.
Qed.

Lemma seqZ_to_nat (n : Z) : seqZ 0 (Z.of_nat (Z.to_nat n)) = seqZ 0 n.
Proof.
  destruct (Z.le_gt_cases 0 n); [f_equal; lia|].
  rewrite !seqZ_nil; [done|lia|lia].
Qed.

(** ** The two word shifts of the counter tests *)

Section WordShifts.
Context `{TB : SvTestbench} `{RE : RandomEngine}.

Lemma shift_data_register_run (hif data bit_count : Z) (is_instruction : bool)
    (w : World) :
  bit_count ≤ 32 →
  shift_data_register hif data bit_count is_instruction w
  = Some (lsb_word (answers (lsb_calls data bit_count) (sv_sim w)),
          after (lsb_calls data bit_count) w).
Proof.
  intros Hn. unfold shift_data_register, for_int.
  rewrite (for_from_steps
             (λ i, (i =? bit_count - 1, Z.testbit data i, i =? bit_count - 1))
             (λ i a r, if r then Z.lor a (Z.shiftl 1 i) else a)).
  - unfold lsb_calls. rewrite seqZ_to_nat. f_equal. f_equal.
    apply fold_steps_lsb. intros j a r q Hq. by apply or_shl_if_testbit.
  - intros k a u Hk. rewrite Z.add_0_l. unfold bind, u32_bit, int_shl_1.
    rewrite decide_True by lia. unfold ret at 1.
    rewrite shr_and_1_testbit by lia. rewrite sv_jtag_step_after.
    cbv beta iota. simpl.
    destruct (tb_jtag_step _ _ _ _).1; [|reflexivity].
    rewrite decide_True by lia. unfold ret.
    by rewrite to_uint32_shl_1 by lia.
Qed.

Lemma shift_msb_first_run (hif data bit_count : Z) (w : World) :
  bit_count ≤ 32 →
  shift_data_register_msb_first hif data bit_count w
  = Some (lsb_word (reverse (answers (msb_calls data bit_count) (sv_sim w))),
          after (msb_calls data bit_count) w).
Proof.
  intros Hn. unfold shift_data_register_msb_first, for_int.
  rewrite (for_from_steps
             (λ i, (i =? bit_count - 1, Z.testbit data (bit_count - 1 - i),
                    i =? bit_count - 1))
             (λ i a r, if r then Z.lor a (Z.shiftl 1 (bit_count - 1 - i)) else a)).
  - unfold msb_calls. rewrite seqZ_to_nat. f_equal. f_equal.
    destruct (Z.le_gt_cases bit_count 0) as [Hneg|Hpos].
    + by rewrite seqZ_nil by done.
    + apply (fold_steps_msb _ _ bit_count).
      * rewrite answers_length, length_fmap, length_seqZ. lia.
      * intros j a r q Hq. by apply or_shl_if_testbit.
  - intros k a u Hk. rewrite Z.add_0_l. unfold bind, u32_bit, int_shl_1.
    rewrite decide_True by lia. unfold ret at 1.
    rewrite shr_and_1_testbit by lia. rewrite sv_jtag_step_after.
    cbv beta iota. simpl.
    destruct (tb_jtag_step _ _ _ _).1; [|reflexivity].
    rewrite decide_True by lia. unfold ret.
    by rewrite to_uint32_shl_1 by lia.
Qed.

Lemma step_events_proj (cs : list StepArgs) (rs : list bool) :
  length rs = length cs →
  step_tms <$> zip_with step_event cs rs = (λ c : StepArgs, c.1.1) <$> cs ∧
  step_tdi <$> zip_with step_event cs rs = (λ c : StepArgs, c.1.2) <$> cs ∧
  step_last <$> zip_with step_event cs rs = (λ c : StepArgs, c.2) <$> cs ∧
  step_tdo <$> zip_with step_event cs rs = rs.
Proof.
  revert rs. induction cs as [|c cs IH]; intros [|r rs] Hlen; try done.
  destruct (IH rs) as (H1 & H2 & H3 & H4); [simpl in Hlen; lia|].
  csimpl. by rewrite H1, H2, H3, H4.
Qed.

Lemma answers_loopback (cs : list StepArgs) (s : sim) :
  (∀ tms tdi is_last s, (tb_jtag_step tms tdi is_last s).1 = tdi) →
  answers cs s = (λ c : StepArgs, c.1.2) <$> cs.
Proof.
  intros Hloop. revert s. induction cs as [|c cs IH]; intros s; simpl; [done|].
  by rewrite Hloop, IH.
Qed.

Lemma lsb_calls_tdi (data bit_count : Z) :
  (λ c : StepArgs, c.1.2) <$> lsb_calls data bit_count
  = bits_of (Z.to_nat bit_count) data.
Proof.
  unfold lsb_calls, bits_of. rewrite <- list_fmap_compose, seqZ_to_nat. done.
Qed.

Lemma msb_calls_tdi (data bit_count : Z) :
  (λ c : StepArgs, c.1.2) <$> msb_calls data bit_count
  = reverse (bits_of (Z.to_nat bit_count) data).
Proof.
  unfold msb_calls, bits_of. rewrite <- list_fmap_compose, seqZ_to_nat.
  apply list_eq. intros i. rewrite list_lookup_fmap.
  destruct (decide (Z.of_nat i < bit_count)) as [Hlt|Hge].
  - rewrite reverse_lookup by (rewrite length_fmap, length_seqZ; lia).
    rewrite length_fmap, length_seqZ, list_lookup_fmap.
    rewrite !lookup_seqZ_lt by lia. simpl. do 2 f_equal. lia.
  - rewrite lookup_seqZ_ge by lia.
    rewrite (proj2 (lookup_ge_None _ _)); [done|].
    rewrite length_reverse, length_fmap, length_seqZ. lia.
Qed.

Lemma word_calls_flags (data bit_count : Z) :
  (λ c : StepArgs, (c.1.1, c.2)) <$> msb_calls data bit_count
  = (λ c : StepArgs, (c.1.1, c.2)) <$> lsb_calls data bit_count.
Proof. unfold msb_calls, lsb_calls. by rewrite <- !list_fmap_compose. Qed.

(** X14: [shift_data_register] makes one step call per bit, call [i]
    driving TDI with bit [i] of [data], TMS and is_last high on the last
    call only, and puts the TDO of call [i] into bit [i] of the result, whose
    other bits are 0; [is_instruction] changes nothing. *)
Theorem shift_lsb_first (hif data bit_count : Z) (is_instruction : bool)
    (w : World) (Hbits : bit_count ≤ 32) :
  ∃ w' evs result,
    shift_data_register hif data bit_count is_instruction w = Some (result, w') ∧
    shift_data_register hif data bit_count (negb is_instruction) w
    = Some (result, w') ∧
    sv_trace w' = sv_trace w ++ evs ∧
    length evs = Z.to_nat bit_count ∧
    (∀ i, 0 ≤ i < bit_count →
       ∃ tdo,
         evs !! Z.to_nat i
         = Some (EvJtagStep (i =? bit_count - 1) (Z.testbit data i)
                   (i =? bit_count - 1) tdo) ∧
         Z.testbit result i = tdo) ∧
    0 ≤ result ∧
    (∀ p, bit_count ≤ p → Z.testbit result p = false) ∧
    device_registry w' = device_registry w ∧
    open_arrays w' = open_arrays w.
Proof.
  set (cs := lsb_calls data bit_count).
  set (rs := answers cs (sv_sim w)).
  assert (Hlen : length rs = Z.to_nat bit_count).
  { unfold rs, cs, lsb_calls. by rewrite answers_length, length_fmap, length_seqZ. }
  exists (after cs w), (zip_with step_event cs rs), (lsb_word rs).
  split; [by apply shift_data_register_run|].
  split; [by apply shift_data_register_run|].
  split; [reflexivity|].
  split; [rewrite length_zip_with; unfold cs, lsb_calls;
          rewrite length_fmap, length_seqZ; lia|].
  split; [|split; [apply lsb_word_nonneg|split; [|done]]].
  - intros i Hi.
    destruct (lookup_lt_is_Some_2 rs (Z.to_nat i)) as [r Hr]; [lia|].
    exists r. split.
    + rewrite lookup_zip_with. unfold cs, lsb_calls.
      rewrite list_lookup_fmap, lookup_seqZ_lt by lia. simpl. rewrite Hr. simpl.
      unfold step_event. simpl. repeat f_equal; lia.
    + rewrite lsb_word_testbit by lia. by rewrite Hr.
  - intros p Hp. destruct (Z.le_gt_cases 0 p) as [Hp0|Hp0].
    + rewrite lsb_word_testbit by done.
      by rewrite (proj2 (lookup_ge_None rs (Z.to_nat p))) by lia.
    + apply Z.testbit_neg_r. lia.
Qed.

(** X15: against a simulator that answers every TDI with the same TDO, both
    word shifts return the low [bit_count] bits of [data]. *)
Theorem word_shifts_loopback (hif data bit_count : Z) (is_instruction : bool)
    (w : World)
    (Hloop : ∀ tms tdi is_last s, (tb_jtag_step tms tdi is_last s).1 = tdi)
    (Hbits : 0 ≤ bit_count ≤ 32) :
  fst <$> shift_data_register hif data bit_count is_instruction w
  = Some (data mod 2 ^ bit_count) ∧
  fst <$> shift_data_register_msb_first hif data bit_count w
  = Some (data mod 2 ^ bit_count).
Proof.
  rewrite shift_data_register_run, shift_msb_first_run by lia. simpl.
  rewrite !answers_loopback by done.
  rewrite lsb_calls_tdi, msb_calls_tdi, reverse_involutive, lsb_word_bits_of.
  by rewrite Z2Nat.id by lia.
Qed.

(** X16: the MSB-first shift makes the calls of the LSB-first shift with
    the TDI levels in reverse order, TMS and is_last being the same; and on
    the same TDO answers its result is the LSB-first result with its
    [bit_count] bits reversed. *)
Theorem msb_first_reverses_lsb_first (hif data bit_count : Z) (w1 w2 : World)
    (Hbits : bit_count ≤ 32) :
  ∃ u1 u2 ev1 ev2 r1 r2,
    shift_data_register hif data bit_count false w1 = Some (r1, u1) ∧
    shift_data_register_msb_first hif data bit_count w2 = Some (r2, u2) ∧
    sv_trace u1 = sv_trace w1 ++ ev1 ∧ sv_trace u2 = sv_trace w2 ++ ev2 ∧
    step_tdi <$> ev2 = reverse (step_tdi <$> ev1) ∧
    step_tms <$> ev2 = step_tms <$> ev1 ∧
    step_last <$> ev2 = step_last <$> ev1 ∧
    (step_tdo <$> ev2 = step_tdo <$> ev1 →
     ∀ i, 0 ≤ i < bit_count →
       Z.testbit r2 (bit_count - 1 - i) = Z.testbit r1 i).
Proof.
  set (c1 := lsb_calls data bit_count). set (c2 := msb_calls data bit_count).
  set (a1 := answers c1 (sv_sim w1)). set (a2 := answers c2 (sv_sim w2)).
  assert (Hl1 : length a1 = length c1) by apply answers_length.
  assert (Hl2 : length a2 = length c2) by apply answers_length.
  assert (Hn1 : length c1 = Z.to_nat bit_count)
    by (unfold c1, lsb_calls; by rewrite length_fmap, length_seqZ).
  assert (Hn2 : length c2 = Z.to_nat bit_count)
    by (unfold c2, msb_calls; by rewrite length_fmap, length_seqZ).
  destruct (step_events_proj c1 a1 Hl1) as (Hm1 & Hd1 & Hla1 & Ho1).
  destruct (step_events_proj c2 a2 Hl2) as (Hm2 & Hd2 & Hla2 & Ho2).
  exists (after c1 w1), (after c2 w2), (zip_with step_event c1 a1),
    (zip_with step_event c2 a2), (lsb_word a1), (lsb_word (reverse a2)).
  split; [by apply shift_data_register_run|].
  split; [by apply shift_msb_first_run|].
  split; [reflexivity|]. split; [reflexivity|].
  pose proof (word_calls_flags data bit_count) as Hflags. fold c1 c2 in Hflags.
  split; [|split; [|split]].
  - rewrite Hd1, Hd2. unfold c1, c2.
    by rewrite lsb_calls_tdi, msb_calls_tdi.
  - rewrite Hm1, Hm2.
    apply (f_equal (fmap fst)) in Hflags.
    by rewrite <- !list_fmap_compose in Hflags.
  - rewrite Hla1, Hla2.
    apply (f_equal (fmap snd)) in Hflags.
    by rewrite <- !list_fmap_compose in Hflags.
  - rewrite Ho1, Ho2. intros -> i Hi.
    rewrite !lsb_word_testbit by lia.
    rewrite reverse_lookup by lia. do 2 f_equal. lia.
Qed.

End WordShifts.

Lemma shift_lsb_first_witness :
  ∃ w', shift_data_register 1 0x5 4 true demo_world = Some (0x5, w').
Proof.
  destruct (shift_lsb_first 1 0x5 4 true demo_world ltac:(lia))
    as (w' & evs & result & Hrun & _).
  exists w'. rewrite Hrun. vm_compute in Hrun. injection Hrun as <- _.
  reflexivity.
Defined.

Lemma word_shifts_loopback_witness :
  fst <$> shift_data_register 1 0x1234 8 false demo_world = Some 0x34 ∧
  fst <$> shift_data_register_msb_first 1 0x1234 8 demo_world = Some 0x34.
Proof.
  apply (word_shifts_loopback 1 0x1234 8 false demo_world);
    [reflexivity|lia].
Defined.

Lemma msb_first_reverses_lsb_first_witness :
  ∃ r1 r2,
    fst <$> shift_data_register 1 0x3 4 false demo_world = Some r1 ∧
    fst <$> shift_data_register_msb_first 1 0x3 4 demo_world = Some r2.
Proof.
  destruct (msb_first_reverses_lsb_first 1 0x3 4 demo_world demo_world
              ltac:(lia)) as (u1 & u2 & _ & _ & r1 & r2 & H1 & H2 & _).
  exists r1, r2. by rewrite H1, H2.
Defined.

(** ** The counter tests *)

Section CounterTests.
Context `{TB : SvTestbench} `{RE : RandomEngine}.

(** The answers to a middle segment of a call sequence. *)
Lemma answers_segment (p d e : list StepArgs) (s : sim) :
  take (length d) (drop (length p) (answers (p ++ d ++ e) s))
  = answers d (sim_after p s).
Proof.
  rewrite !answers_app.
  rewrite drop_app_length' by (by rewrite answers_length).
  rewrite take_app_length' by (by rewrite answers_length). done.
Qed.

Lemma segment_answers (p d e : list StepArgs) (n m : nat) (s : sim) :
  n = length p → m = length d →
  answers d (sim_after p s) = take m (drop n (answers (p ++ d ++ e) s)).
Proof. intros -> ->. by rewrite answers_segment. Qed.

Lemma load_ir_run (hif instruction : Z) (b : bool) (w : World) :
  (navigate_to_shift_ir ;; _ <- shift_data_register hif instruction 4 b ;;
   exit_to_run_test_idle) w
  = Some (tt, after (load_ir_calls instruction) w).
Proof.
  unfold bind. rewrite navigate_to_shift_ir_run. cbv beta iota.
  rewrite shift_data_register_run by lia. cbv beta iota.
  rewrite exit_to_run_test_idle_run. by rewrite !after_app.
Qed.

Lemma test_counter_idcode_run (hif : Z) (w : World) :
  test_counter_idcode hif w
  = Some (if lsb_word (take 32 (drop 14 (answers idcode_calls (sv_sim w))))
             =? 0x12345678
          then 1 else 0,
          after idcode_calls w).
Proof.
  unfold test_counter_idcode, bind.
  rewrite navigate_to_shift_ir_run. cbv beta iota zeta.
  rewrite shift_data_register_run by lia. cbv beta iota.
  rewrite exit_to_run_test_idle_run. cbv beta iota.
  rewrite navigate_to_shift_dr_with_idle_run. cbv beta iota.
  rewrite shift_data_register_run by lia. cbv beta iota.
  rewrite exit_to_run_test_idle_run. cbv beta iota.
  rewrite !after_app, !sim_after_after.
  rewrite (segment_answers _ (lsb_calls 0 32) exit_calls 14 32)
    by reflexivity.
  unfold idcode_calls, load_ir_calls, ir_calls, exit_calls, dr_idle_calls.
  rewrite <- !app_assoc. by destruct (_ =? _).
Qed.

(** A loop of data calls, TMS and is_last low, collecting TDO MSB first. *)
Lemma collect_msb_run (tdi : Z → bool) (count : Z) (body : Z → Z → M Z)
    (w : World) :
  0 ≤ count →
  (∀ i a u, 0 ≤ i < count →
     body i a u
     = (tdo_bit <- sv_jtag_step false (tdi i) false ;;
        ret (Z.lor a (Z.shiftl (int_of_bool tdo_bit) (count - 1 - i)))) u) →
  for_int count body 0 w
  = Some (lsb_word
            (reverse (answers ((λ i, (false, tdi i, false)) <$> seqZ 0 count)
                        (sv_sim w))),
          after ((λ i, (false, tdi i, false)) <$> seqZ 0 count) w).
Proof.
  intros Hcount Hbody. unfold for_int.
  rewrite (for_from_steps (λ i, (false, tdi i, false))
             (λ i a r, Z.lor a (Z.shiftl (int_of_bool r) (count - 1 - i)))).
  - rewrite seqZ_to_nat. do 2 f_equal.
    destruct (decide (count = 0)) as [->|Hne]; [done|].
    apply (fold_steps_msb _ _ count).
    + rewrite answers_length, length_fmap, length_seqZ. lia.
    + intros j a r q Hq. by apply or_shl_bool_testbit.
  - intros k a u Hk. rewrite Z.add_0_l, Hbody by lia.
    unfold bind, ret. by rewrite sv_jtag_step_after.
Qed.

Lemma data_calls_shr (pattern count : Z) :
  (λ i, (false, shr_and_1 pattern (count - 1 - i), false)) <$> seqZ 0 count
  = data_calls pattern count.
Proof.
  unfold data_calls. apply list_fmap_ext. intros k i Hi.
  apply lookup_seqZ in Hi as [-> Hi]. by rewrite shr_and_1_testbit by lia.
Qed.

Lemma test_preload_instruction_run (hif : Z) (w : World) :
  test_preload_instruction hif w = Some (1, after preload_calls w).
Proof.
  unfold test_preload_instruction, bind.
  rewrite navigate_to_shift_ir_run. cbv beta iota zeta.
  rewrite shift_data_register_run by lia. cbv beta iota.
  rewrite exit_to_run_test_idle_run. cbv beta iota.
  rewrite navigate_to_shift_dr_run. cbv beta iota.
  unfold for_int.
  rewrite (for_from_steps (λ i, (false, shr_and_1 0x1A5 (9 - 1 - i), false))
             (λ _ _ _, tt)).
  - cbv beta iota. rewrite exit_to_run_test_idle_run. unfold ret.
    rewrite seqZ_to_nat, data_calls_shr, !after_app.
    unfold preload_calls, load_ir_calls, ir_calls, exit_calls, dr_calls.
    by rewrite <- !app_assoc.
  - intros k [] u Hk. unfold bind, ret. by rewrite sv_jtag_step_after.
Qed.

Lemma test_unknown_instruction_run (hif : Z) (w : World) :
  test_unknown_instruction hif w = Some (1, after unknown_calls w).
Proof.
  unfold test_unknown_instruction, bind.
  rewrite navigate_to_shift_ir_run. cbv beta iota zeta.
  rewrite shift_data_register_run by lia. cbv beta iota.
  rewrite exit_to_run_test_idle_run. cbv beta iota.
  rewrite navigate_to_shift_dr_run. cbv beta iota.
  rewrite (collect_msb_run (λ i, shr_and_1 0x33 (8 - 1 - i)) 8);
    [|lia|reflexivity].
  cbv beta iota. rewrite exit_to_run_test_idle_run. unfold ret.
  rewrite data_calls_shr, !after_app.
  unfold unknown_calls, load_ir_calls, ir_calls, exit_calls, dr_calls.
  by rewrite <- !app_assoc.
Qed.

Lemma test_instruction_register_capture_run (hif : Z) (w : World) :
  test_instruction_register_capture hif w = Some (1, after ir_capture_calls w).
Proof.
  unfold test_instruction_register_capture, bind.
  rewrite navigate_to_shift_ir_run. cbv beta iota zeta.
  rewrite (collect_msb_run (λ _, false) 4); [|lia|reflexivity].
  cbv beta iota. rewrite exit_to_run_test_idle_run. unfold ret.
  rewrite !after_app. do 2 f_equal.
Qed.

Lemma test_tap_state_transitions_run (hif : Z) (w : World) :
  test_tap_state_transitions hif w = Some (1, after tap_transition_calls w).
Proof.
  unfold test_tap_state_transitions, for_int. simpl. unfold bind, ret.
  repeat (rewrite sv_jtag_step_after; cbv beta iota).
  by rewrite !after_cons.
Qed.

(** X18: four of the nine tests return 1 whatever the simulator answers:
    [test_preload_instruction] after 24 step calls,
    [test_unknown_instruction] after 23, [test_instruction_register_capture]
    after 10 and [test_tap_state_transitions] after 19, none of them
    touching registry or arrays. *)
Theorem unconditional_tests (hif : Z) (w : World) :
  test_preload_instruction hif w = Some (1, after preload_calls w) ∧
  test_unknown_instruction hif w = Some (1, after unknown_calls w) ∧
  test_instruction_register_capture hif w = Some (1, after ir_capture_calls w) ∧
  test_tap_state_transitions hif w = Some (1, after tap_transition_calls w) ∧
  length preload_calls = 24%nat ∧ length unknown_calls = 23%nat ∧
  length ir_capture_calls = 10%nat ∧ length tap_transition_calls = 19%nat ∧
  ∀ cs, device_registry (after cs w) = device_registry w ∧
        open_arrays (after cs w) = open_arrays w ∧
        length (sv_trace (after cs w)) = (length (sv_trace w) + length cs)%nat.
Proof.
  split; [apply test_preload_instruction_run|].
  split; [apply test_unknown_instruction_run|].
  split; [apply test_instruction_register_capture_run|].
  split; [apply test_tap_state_transitions_run|].
  do 4 (split; [reflexivity|]).
  intros cs. split; [done|]. split; [done|]. simpl.
  rewrite length_app, length_zip_with, answers_length. lia.
Qed.

Lemma segment_length (p d e : list StepArgs) (n m : nat) (s : sim) :
  n = length p → m = length d →
  length (take m (drop n (answers (p ++ d ++ e) s))) = m.
Proof.
  intros Hn Hm. rewrite <- (segment_answers p d e n m s Hn Hm).
  by rewrite answers_length.
Qed.

Lemma answers_window_length (cs : list StepArgs) (n m : nat) (s : sim) :
  (n + m ≤ length cs)%nat → length (take m (drop n (answers cs s))) = m.
Proof. intros H. rewrite length_take, length_drop, answers_length. lia. Qed.

(** X17: [test_counter_idcode] makes 48 step calls, the same for every
    simulator, and returns 1 exactly when the TDO answers to calls 14 to 45,
    the 32 data register bits, spell 0x12345678 from bit 0 up; otherwise it
    returns 0. *)
Theorem idcode_test_verdict (hif : Z) (w : World) :
  ∃ v,
    test_counter_idcode hif w = Some (v, after idcode_calls w) ∧
    length idcode_calls = 48%nat ∧
    (v = 0 ∨ v = 1) ∧
    (v = 1 ↔
     take 32 (drop 14 (answers idcode_calls (sv_sim w)))
     = bits_of 32 0x12345678).
Proof.
  eexists. split; [apply test_counter_idcode_run|]. split; [reflexivity|].
  set (seg := take 32 (drop 14 (answers idcode_calls (sv_sim w)))).
  assert (Hlen : length seg = 32%nat).
  { unfold seg, idcode_calls.
    rewrite app_assoc. by apply segment_length. }
  destruct (Z.eqb_spec (lsb_word seg) 0x12345678) as [Heq|Hne].
  - split; [by right|]. split; [intros _|done].
    apply lsb_word_inj; [done|]. rewrite Heq. by rewrite lsb_word_bits_of.
  - split; [by left|]. split; [done|]. intros Hseg. exfalso. apply Hne.
    rewrite Hseg. by rewrite lsb_word_bits_of.
Qed.

Lemma sample_check_bits (seg : list bool) :
  length seg = 9%nat →
  let bsr_data := lsb_word seg in
  let up_down := nonzero (Z.land bsr_data 0x1) in
  let count_oe := Z.land (Z.shiftr bsr_data 5) 0xF in
  let test_passed := true in
  let test_passed :=
    if negb (int_of_bool up_down =? 1) then false else test_passed in
  let test_passed := if negb (count_oe =? 0xF) then false else test_passed in
  (if test_passed then 1 else 0)
  = if bool_decide (seg !! 0%nat = Some true ∧
                    drop 5 seg = [true; true; true; true])
    then 1 else 0.
Proof.
  intros Hlen.
  destruct seg as [|b0 [|b1 [|b2 [|b3 [|b4 [|b5 [|b6 [|b7 [|b8 [|]]]]]]]]]];
    try done.
  destruct b0, b1, b2, b3, b4, b5, b6, b7, b8; vm_compute; reflexivity.
Qed.

Lemma test_boundary_scan_sample_run (hif : Z) (w : World) :
  test_boundary_scan_sample hif w
  = Some (if bool_decide
               (take 9 (drop 13 (answers sample_calls (sv_sim w))) !! 0%nat
                = Some true ∧
                drop 5 (take 9 (drop 13 (answers sample_calls (sv_sim w))))
                = [true; true; true; true])
          then 1 else 0,
          after sample_calls w).
Proof.
  unfold test_boundary_scan_sample, bind.
  rewrite navigate_to_shift_ir_run. cbv beta iota zeta.
  rewrite shift_data_register_run by lia. cbv beta iota.
  rewrite exit_to_run_test_idle_run. cbv beta iota.
  rewrite navigate_to_shift_dr_run. cbv beta iota.
  rewrite shift_data_register_run by lia. cbv beta iota.
  rewrite exit_to_run_test_idle_run. cbv beta iota. unfold ret.
  rewrite !after_app, !sim_after_after.
  rewrite (segment_answers _ (lsb_calls 0 9) exit_calls 13 9) by reflexivity.
  unfold sample_calls, load_ir_calls, ir_calls, exit_calls, dr_calls.
  rewrite <- !app_assoc.
  set (seg := take 9 (drop 13 _)).
  rewrite <- (sample_check_bits seg); [done|].
  apply answers_window_length. vm_compute. lia.
Qed.

(** X19: [test_boundary_scan_sample] makes 24 step calls and returns 1
    exactly when, of the nine data register answers (calls 13 to 21), the
    first and the last four are 1; the four answers in between, the count,
    have no say. *)
Theorem sample_test_verdict (hif : Z) (w : World) :
  ∃ v,
    test_boundary_scan_sample hif w = Some (v, after sample_calls w) ∧
    length sample_calls = 24%nat ∧
    (v = 0 ∨ v = 1) ∧
    (v = 1 ↔
     ∃ c1 c2 c3 c4,
       take 9 (drop 13 (answers sample_calls (sv_sim w)))
       = [true; c1; c2; c3; c4; true; true; true; true]).
Proof.
  eexists. split; [apply test_boundary_scan_sample_run|].
  split; [reflexivity|].
  set (seg := take 9 (drop 13 (answers sample_calls (sv_sim w)))).
  assert (Hlen : length seg = 9%nat).
  { apply answers_window_length. vm_compute. lia. }
  destruct seg as [|b0 [|b1 [|b2 [|b3 [|b4 [|b5 [|b6 [|b7 [|b8 [|]]]]]]]]]];
    try done.
  case_bool_decide as Hd.
  - split; [by right|]. split; [intros _|done].
    destruct Hd as [[= ->] [= -> -> -> ->]]. by eexists _, _, _, _.
  - split; [by left|]. split; [done|].
    intros (c1 & c2 & c3 & c4 & [= -> -> -> -> -> -> -> -> ->]).
    exfalso. by apply Hd.
Qed.

Lemma bypass_check_bits (seg : list bool) :
  length seg = 8%nat →
  (lsb_word (reverse seg)
   =? Z.lor (Z.shiftr 0xAA 1) (Z.shiftl (Z.land 0xAA 1) 7))
  = bool_decide (seg = [false; true; false; true; false; true; false; true]).
Proof.
  intros Hlen.
  destruct seg as [|b0 [|b1 [|b2 [|b3 [|b4 [|b5 [|b6 [|b7 [|]]]]]]]]];
    try done.
  destruct b0, b1, b2, b3, b4, b5, b6, b7; vm_compute; reflexivity.
Qed.

Lemma test_bypass_run (hif : Z) (w : World) :
  test_bypass hif w
  = Some (if bool_decide
               (take 8 (drop 13 (answers bypass_calls (sv_sim w)))
                = [false; true; false; true; false; true; false; true])
          then 1 else 0,
          after bypass_calls w).
Proof.
  unfold test_bypass, bind.
  rewrite navigate_to_shift_ir_run. cbv beta iota zeta.
  rewrite shift_data_register_run by lia. cbv beta iota.
  rewrite exit_to_run_test_idle_run. cbv beta iota.
  rewrite navigate_to_shift_dr_run. cbv beta iota.
  rewrite (collect_msb_run (λ i, shr_and_1 0xAA (8 - 1 - i)) 8);
    [|lia|reflexivity].
  cbv beta iota. rewrite exit_to_run_test_idle_run. cbv beta iota.
  rewrite data_calls_shr, !after_app, !sim_after_after.
  rewrite (segment_answers _ (data_calls 0xAA 8) exit_calls 13 8) by reflexivity.
  unfold bypass_calls, load_ir_calls, ir_calls, exit_calls, dr_calls.
  rewrite <- !app_assoc.
  set (seg := take 8 (drop 13 _)).
  rewrite (bypass_check_bits seg) by (apply answers_window_length; vm_compute; lia).
  by destruct (bool_decide _).
Qed.

(** A one-bit register in the simulator: every answer is the TDI of the
    call before. *)
Lemma answers_delay (reg : sim → bool) (cs : list StepArgs) (s : sim) :
  (∀ tms tdi is_last s,
     (tb_jtag_step tms tdi is_last s).1 = reg s ∧
     reg (tb_jtag_step tms tdi is_last s).2 = tdi) →
  answers cs s = take (length cs) (reg s :: ((λ c : StepArgs, c.1.2) <$> cs)).
Proof.
  intros Hreg. revert s. induction cs as [|c cs IH]; intros s; [done|].
  simpl. destruct (Hreg c.1.1 c.1.2 c.2 s) as [-> Hnext].
  by rewrite IH, Hnext.
Qed.

(** X20: [test_bypass] makes 23 step calls and returns 1 exactly when the
    TDO answers to its eight data calls (calls 13 to 20) are 0,1,0,1,0,1,0,1.
    So it passes against any simulator that answers with the TDI of the call
    before, and fails against one that answers with the TDI of the same
    call. *)
Theorem bypass_test_verdict (hif : Z) (w : World) :
  ∃ v,
    test_bypass hif w = Some (v, after bypass_calls w) ∧
    length bypass_calls = 23%nat ∧
    (v = 0 ∨ v = 1) ∧
    (v = 1 ↔
     take 8 (drop 13 (answers bypass_calls (sv_sim w)))
     = [false; true; false; true; false; true; false; true]) ∧
    ((∃ reg : sim → bool,
        ∀ tms tdi is_last s,
          (tb_jtag_step tms tdi is_last s).1 = reg s ∧
          reg (tb_jtag_step tms tdi is_last s).2 = tdi) → v = 1) ∧
    ((∀ tms tdi is_last s, (tb_jtag_step tms tdi is_last s).1 = tdi) → v = 0).
Proof.
  eexists. split; [apply test_bypass_run|]. split; [reflexivity|].
  case_bool_decide as Hd.
  - split; [by right|]. split; [done|]. split; [done|].
    intros Hloop. rewrite answers_loopback in Hd by done. done.
  - split; [by left|]. split; [done|]. split; [|done].
    intros [reg Hreg]. exfalso. apply Hd.
    rewrite (answers_delay reg) by done. reflexivity.
Qed.

Lemma wait_cycles_run (cycles : Z) (w : World) :
  wait_cycles cycles w = Some (tt, waited cycles w).
Proof. reflexivity. Qed.

Lemma extest_check_bits (seg : list bool) :
  length seg = 9%nat →
  let test_pattern := 0x1AF in
  let bsr_readback := reverse9 (lsb_word seg) in
  let readback_up_down := nonzero (Z.land bsr_readback 0x1) in
  let readback_count := Z.land (Z.shiftr bsr_readback 1) 0xF in
  let readback_count_oe := Z.land (Z.shiftr bsr_readback 5) 0xF in
  let expected_up_down := nonzero (Z.land test_pattern 1) in
  let expected_count := Z.land (Z.shiftr test_pattern 1) 0xF in
  let expected_count_oe := Z.land (Z.shiftr test_pattern 5) 0xF in
  let test_passed := true in
  let test_passed :=
    if negb (Bool.eqb readback_up_down expected_up_down) then false
    else test_passed in
  let test_passed :=
    if negb (readback_count =? expected_count) then false else test_passed in
  let test_passed :=
    if negb (readback_count_oe =? expected_count_oe) then false
    else test_passed in
  (if test_passed then 1 else 0)
  = if bool_decide (seg = reverse (bits_of 9 0x1AF)) then 1 else 0.
Proof.
  intros Hlen.
  destruct seg as [|b0 [|b1 [|b2 [|b3 [|b4 [|b5 [|b6 [|b7 [|b8 [|]]]]]]]]]];
    try done.
  destruct b0, b1, b2, b3, b4, b5, b6, b7, b8; vm_compute; reflexivity.
Qed.

Lemma test_boundary_scan_extest_run (hif : Z) (w : World) :
  let w1 := waited 5 (after extest_calls_1 w) in
  test_boundary_scan_extest hif w
  = Some (if bool_decide
               (take 9 (drop 13 (answers extest_calls_2 (sv_sim w1)))
                = reverse (bits_of 9 0x1AF))
          then 1 else 0,
          after extest_calls_2 w1).
Proof.
  intros w1. unfold test_boundary_scan_extest, bind.
  rewrite navigate_to_shift_ir_run. cbv beta iota zeta.
  rewrite shift_data_register_run by lia. cbv beta iota.
  rewrite exit_to_run_test_idle_run. cbv beta iota.
  rewrite navigate_to_shift_dr_run. cbv beta iota.
  rewrite shift_data_register_run by lia. cbv beta iota.
  rewrite exit_to_run_test_idle_run. cbv beta iota.
  rewrite navigate_to_shift_ir_run. cbv beta iota.
  rewrite shift_data_register_run by lia. cbv beta iota.
  rewrite exit_to_run_test_idle_run. cbv beta iota.
  rewrite wait_cycles_run. cbv beta iota.
  rewrite !after_app.
  replace (after _ w) with (after extest_calls_1 w); cycle 1.
  { unfold extest_calls_1, load_ir_calls, ir_calls, exit_calls, dr_calls.
    by rewrite <- !app_assoc. }
  fold w1.
  rewrite navigate_to_shift_ir_run. cbv beta iota.
  rewrite shift_data_register_run by lia. cbv beta iota.
  rewrite exit_to_run_test_idle_run. cbv beta iota.
  rewrite navigate_to_shift_dr_run. cbv beta iota.
  rewrite shift_data_register_run by lia. cbv beta iota.
  rewrite exit_to_run_test_idle_run. cbv beta iota. unfold ret.
  rewrite !after_app, !sim_after_after.
  rewrite (segment_answers _ (lsb_calls 0 9) exit_calls 13 9) by reflexivity.
  unfold extest_calls_2, load_ir_calls, ir_calls, exit_calls, dr_calls.
  rewrite <- !app_assoc.
  set (seg := take 9 (drop 13 _)).
  rewrite <- (extest_check_bits seg); [done|].
  apply answers_window_length. vm_compute. lia.
Qed.

(** X21: [test_boundary_scan_extest] makes 34 step calls, waits 5 cycles and
    makes 24 more; it returns 1 exactly when the nine answers read back
    (calls 13 to 21 after the wait) are the pattern 0x1AF with its highest
    bit first, that is 1,1,0,1,0,1,1,1,1. What the simulator answered before
    the wait has no say. *)
Theorem extest_test_verdict (hif : Z) (w : World) :
  ∃ v,
    test_boundary_scan_extest hif w
    = Some (v, after extest_calls_2 (waited 5 (after extest_calls_1 w))) ∧
    length extest_calls_1 = 34%nat ∧ length extest_calls_2 = 24%nat ∧
    (v = 0 ∨ v = 1) ∧
    (v = 1 ↔
     take 9 (drop 13
       (answers extest_calls_2
          (tb_wait_cycles 5 (sim_after extest_calls_1 (sv_sim w)))))
     = [true; true; false; true; false; true; true; true; true]).
Proof.
  eexists. split; [apply test_boundary_scan_extest_run|].
  do 2 (split; [reflexivity|]).
  change (sv_sim (waited 5 (after extest_calls_1 w)))
    with (tb_wait_cycles 5 (sim_after extest_calls_1 (sv_sim w))).
  change (reverse (bits_of 9 0x1AF))
    with [true; true; false; true; false; true; true; true; true].
  case_bool_decide as Hd.
  - split; [by right|]. done.
  - split; [by left|]. done.
Qed.

Lemma complex_sample_bits (seg : list bool) :
  length seg = 9%nat →
  (Z.land (lsb_word seg) 0x1 =? 1)
  && (Z.land (Z.shiftr (lsb_word seg) 5) 0xF =? 0xF)
  = bool_decide (seg !! 0%nat = Some true ∧ drop 5 seg = [true; true; true; true]).
Proof.
  intros Hlen.
  destruct seg as [|b0 [|b1 [|b2 [|b3 [|b4 [|b5 [|b6 [|b7 [|b8 [|]]]]]]]]]];
    try done.
  destruct b0, b1, b2, b3, b4, b5, b6, b7, b8; vm_compute; reflexivity.
Qed.

Lemma test_complex_instruction_sequence_run (hif : Z) (w : World) :
  let rs := answers complex_calls (sv_sim w) in
  test_complex_instruction_sequence hif w
  = Some (if (lsb_word (take 32 (drop 19 rs)) =? 0x12345678)
             && bool_decide (take 9 (drop 66 rs) !! 0%nat = Some true ∧
                             drop 5 (take 9 (drop 66 rs))
                             = [true; true; true; true])
          then 1 else 0,
          after complex_calls w).
Proof.
  intros rs. unfold test_complex_instruction_sequence, bind.
  rewrite tap_reset_run. cbv beta iota zeta.
  rewrite navigate_to_shift_ir_run. cbv beta iota.
  rewrite shift_data_register_run by lia. cbv beta iota.
  rewrite exit_to_run_test_idle_run. cbv beta iota.
  rewrite navigate_to_shift_dr_run. cbv beta iota.
  rewrite shift_data_register_run by lia. cbv beta iota.
  rewrite exit_to_run_test_idle_run. cbv beta iota.
  rewrite navigate_to_shift_ir_run. cbv beta iota.
  rewrite shift_data_register_run by lia. cbv beta iota.
  rewrite exit_to_run_test_idle_run. cbv beta iota.
  rewrite navigate_to_shift_dr_run. cbv beta iota.
  rewrite shift_data_register_run by lia. cbv beta iota.
  rewrite exit_to_run_test_idle_run. cbv beta iota.
  rewrite navigate_to_shift_ir_run. cbv beta iota.
  rewrite shift_data_register_run by lia. cbv beta iota.
  rewrite exit_to_run_test_idle_run. cbv beta iota.
  rewrite navigate_to_shift_dr_run. cbv beta iota.
  rewrite shift_data_register_run by lia. cbv beta iota.
  rewrite exit_to_run_test_idle_run. cbv beta iota.
  rewrite navigate_to_shift_ir_run. cbv beta iota.
  rewrite shift_data_register_run by lia. cbv beta iota.
  rewrite exit_to_run_test_idle_run. cbv beta iota.
  rewrite navigate_to_shift_dr_run. cbv beta iota.
  unfold for_int.
  rewrite (for_from_steps (λ _, (false, true, false))
             (λ i a r, Z.lor a (Z.shiftl (int_of_bool r) i)));
    [|intros k a u Hk; unfold bind, ret; by rewrite sv_jtag_step_after].
  cbv beta iota. rewrite exit_to_run_test_idle_run. cbv beta iota.
  rewrite !after_app, !sim_after_after.
  rewrite (segment_answers _ (lsb_calls 0 32) (drop 51 complex_calls) 19 32)
    by reflexivity.
  rewrite (segment_answers _ (lsb_calls 0 9) (drop 75 complex_calls) 66 9)
    by reflexivity.
  repeat match goal with
         | |- context [answers ?l (sv_sim w)] =>
             lazymatch l with
             | complex_calls => fail
             | _ => change l with complex_calls
             end
         end.
  fold rs.
  set (seg := take 9 (drop 66 rs)).
  rewrite (complex_sample_bits seg)
    by (apply answers_window_length; vm_compute; lia).
  match goal with
  | |- context [after ?l w] => change l with complex_calls
  end.
  by destruct (_ =? 0x12345678), (bool_decide _).
Qed.

(** X22: [test_complex_instruction_sequence] makes 120 step calls and
    returns 1 exactly when its IDCODE read (answers 19 to 50) spells
    0x12345678 from bit 0 up and, of its nine SAMPLE answers (66 to 74), the
    first and the last four are 1. Its EXTEST and BYPASS parts count as
    passed whatever the simulator answers. *)
Theorem complex_sequence_verdict (hif : Z) (w : World) :
  ∃ v,
    test_complex_instruction_sequence hif w = Some (v, after complex_calls w) ∧
    length complex_calls = 120%nat ∧
    (v = 0 ∨ v = 1) ∧
    (v = 1 ↔
     take 32 (drop 19 (answers complex_calls (sv_sim w)))
     = bits_of 32 0x12345678 ∧
     ∃ c1 c2 c3 c4,
       take 9 (drop 66 (answers complex_calls (sv_sim w)))
       = [true; c1; c2; c3; c4; true; true; true; true]).
Proof.
  eexists. split; [apply test_complex_instruction_sequence_run|].
  split; [reflexivity|].
  set (rs := answers complex_calls (sv_sim w)).
  set (seg := take 32 (drop 19 rs)).
  assert (Hlen : length seg = 32%nat).
  { apply answers_window_length. vm_compute. lia. }
  set (seg' := take 9 (drop 66 rs)).
  assert (Hlen' : length seg' = 9%nat).
  { apply answers_window_length. vm_compute. lia. }
  clearbody seg seg'.
  destruct seg' as [|b0 [|b1 [|b2 [|b3 [|b4 [|b5 [|b6 [|b7 [|b8 [|]]]]]]]]]];
    try done.
  destruct (Z.eqb_spec (lsb_word seg) 0x12345678) as [Heq|Hne]; cycle 1.
  { split; [by left|]. split; [done|]. intros [Hseg _]. exfalso. apply Hne.
    rewrite Hseg. by rewrite lsb_word_bits_of. }
  assert (Hseg : seg = bits_of 32 0x12345678).
  { apply lsb_word_inj; [done|]. rewrite Heq. by rewrite lsb_word_bits_of. }
  rewrite andb_true_l. case_bool_decide as Hd.
  - split; [by right|]. split; [intros _|done]. split; [done|].
    destruct Hd as [[= ->] [= -> -> -> ->]]. by eexists _, _, _, _.
  - split; [by left|]. split; [done|].
    intros (_ & c1 & c2 & c3 & c4 & [= -> -> -> -> -> -> -> -> ->]).
    exfalso. by apply Hd.
Qed.

Lemma after_with_registry (cs : list StepArgs) (r : gmap Z JtagDevice)
    (w : World) :
  after cs (with_registry r w) = with_registry r (after cs w).
Proof. reflexivity. Qed.

Lemma waited_with_registry (cycles : Z) (r : gmap Z JtagDevice) (w : World) :
  waited cycles (with_registry r w) = with_registry r (waited cycles w).
Proof. reflexivity. Qed.

Lemma with_registry_twice (r r' : gmap Z JtagDevice) (w : World) :
  with_registry r (with_registry r' w) = with_registry r w.
Proof. reflexivity. Qed.

Lemma djtg_disable_run (hif : Z) (dev : JtagDevice) (w : World) :
  device_registry w !! hif = Some dev → enabled dev = true →
  djtg_disable hif w
  = Some (TRUE,
          with_registry (<[hif := set_enabled false dev]> (device_registry w)) w).
Proof.
  intros Hreg Hen.
  unfold djtg_disable, bind, registry_find, registry_modify, ret.
  rewrite Hreg, Hen. simpl. do 3 f_equal.
  rewrite <- (insert_id _ _ _ Hreg) at 1.
  by rewrite alter_insert_eq.
Qed.

Lemma run_counter_jtag_tests_run (w : World) :
  ∃ p1 p2 p3 p4 p8,
    Forall (λ p, p = 0 ∨ p = 1) [p1; p2; p3; p4; p8] ∧
    run_counter_jtag_tests w
    = if Qlt_le_dec (uniform_real (gen w)).1 default_failure_rate
      then Some (None, with_gen (uniform_real (gen w)).2 w)
      else Some (Some (0 + p1 + p2 + p3 + p4 + 1 + 1 + 1 + p8 + 1),
                 with_registry
                   (<[1 := mkJtagDevice false 10000000 false false false false
                            0x12345678 1000]> (device_registry w))
                   (after suite_calls_2
                      (waited 5
                         (after suite_calls_1
                            (with_gen (uniform_real (gen w)).2 w))))).
Proof.
  unfold run_counter_jtag_tests, bind. rewrite enable_run.
  destruct (Qlt_le_dec _ _) as [Hfail|Hok].
  { exists 0, 0, 0, 0, 0. split; [|reflexivity]. repeat constructor; by left. }
  cbv beta iota.
  set (w0 := with_gen _ w).
  set (dev := set_clock_freq 10000000 enabled_defaults).
  assert (Hspeed :
    djtg_set_speed 1 10000000 0
      (with_registry (<[1 := enabled_defaults]> (device_registry w)) w0)
    = Some ((TRUE, 10000000),
            with_registry (<[1 := dev]> (device_registry w)) w0)).
  { unfold djtg_set_speed, bind, registry_find, registry_modify, ret. simpl.
    rewrite lookup_insert_eq. simpl. by rewrite alter_insert_eq. }
  change (negb (nonzero TRUE)) with false. cbv beta iota.
  rewrite Hspeed. cbv beta iota.
  change (negb (nonzero (TRUE, 10000000).1)) with false. cbv beta iota.
  rewrite tap_reset_run. cbv beta iota zeta.
  rewrite test_counter_idcode_run. cbv beta iota.
  rewrite test_boundary_scan_sample_run. cbv beta iota.
  rewrite test_boundary_scan_extest_run. cbv beta iota zeta.
  rewrite test_bypass_run. cbv beta iota.
  rewrite test_preload_instruction_run. cbv beta iota.
  rewrite test_unknown_instruction_run. cbv beta iota.
  rewrite test_instruction_register_capture_run. cbv beta iota.
  rewrite test_complex_instruction_sequence_run. cbv beta iota zeta.
  rewrite test_tap_state_transitions_run. cbv beta iota.
  rewrite !after_with_registry, !waited_with_registry, !after_with_registry.
  rewrite (djtg_disable_run 1 dev); [|apply lookup_insert_eq|reflexivity].
  unfold ret.
  eexists _, _, _, _, _. split; cycle 1.
  - apply (f_equal Some). apply (f_equal2 pair); [reflexivity|].
    rewrite with_registry_twice.
    change (device_registry (with_registry ?r _)) with r.
    rewrite insert_insert_eq. f_equal.
    rewrite !after_app. reflexivity.
  - repeat (apply Forall_cons; split;
              [first [destruct (_ && _) | destruct (_ =? _)
                     | destruct (bool_decide _)]; [by right|by left]|]).
    by apply Forall_nil.
Qed.

(** X23: [run_counter_jtag_tests] stops before any DPI call, with the
    registry untouched, when the enable draw falls below the failure rate.
    Otherwise it always runs to the end: 112 step calls, one wait of 5
    cycles and 243 more step calls, the same for every simulator; between 4
    and 9 tests pass; and handle 1 is left disabled at 10 MHz. The early
    return after [djtg_set_speed] is never taken. *)
Theorem suite_outcome (w : World) :
  ∃ passed,
    4 ≤ passed ≤ 9 ∧
    length suite_calls_1 = 112%nat ∧ length suite_calls_2 = 243%nat ∧
    run_counter_jtag_tests w
    = if Qlt_le_dec (uniform_real (gen w)).1 default_failure_rate
      then Some (None, with_gen (uniform_real (gen w)).2 w)
      else Some (Some passed,
                 with_registry
                   (<[1 := mkJtagDevice false 10000000 false false false false
                            0x12345678 1000]> (device_registry w))
                   (after suite_calls_2
                      (waited 5
                         (after suite_calls_1
                            (with_gen (uniform_real (gen w)).2 w))))).
Proof.
  destruct (run_counter_jtag_tests_run w)
    as (p1 & p2 & p3 & p4 & p8 & Hp & Hrun).
  exists (0 + p1 + p2 + p3 + p4 + 1 + 1 + 1 + p8 + 1).
  split; [|split; [reflexivity|split; [reflexivity|exact Hrun]]].
  apply Forall_cons in Hp as [H1 Hp]. apply Forall_cons in Hp as [H2 Hp].
  apply Forall_cons in Hp as [H3 Hp]. apply Forall_cons in Hp as [H4 Hp].
  apply Forall_cons in Hp as [H8 _]. lia.
Qed.

End CounterTests.

(** Both bounds of the suite are met: a wire from TDI to TDO passes the four
    unconditional tests only, a simulator with the right answers passes all
    nine. *)
Example suite_passes_four :
  fst <$> run_counter_jtag_tests
            (@fresh_world loopback_tb (const_rng (1 # 2)) tt tt)
  = Some (Some 4).
Proof. vm_compute. reflexivity. Qed.

Example suite_passes_nine :
  let idcode := bits_of 32 0x12345678 in
  let sample := [true; false; false; false; false; true; true; true; true] in
  let script :=
    replicate 6 false ++
    (replicate 14 false ++ idcode ++ replicate 2 false) ++
    (replicate 13 false ++ sample ++ replicate 2 false) ++
    replicate 34 false ++
    (replicate 13 false ++ [true; true; false; true; false; true; true; true; true]
       ++ replicate 2 false) ++
    (replicate 13 false ++ [false; true; false; true; false; true; false; true]
       ++ replicate 2 false) ++
    replicate 57 false ++
    (replicate 19 false ++ idcode ++ replicate 15 false ++ sample) in
  fst <$> run_counter_jtag_tests
            (@fresh_world scripted_tb (const_rng (1 # 2)) tt script)
  = Some (Some 9).
Proof. vm_compute. reflexivity. Qed.
